(** * styxy-mcp-server: the daemon-communication layer

    A shallow embedding of [styxyClient.js] (class [StyxyClient]), of
    [singleton.js] (class [SingletonLock]) and of the tool handlers and the
    start of [index.js], with the properties the specification states about
    them and further properties of the code.

    Conventions of the embedding.
    - A JavaScript string is a [string]; a character is a code unit below 256.
    - A JavaScript number is a double. Every number that the embedded paths
      compute is a non-negative integer read from decimal digits (a port, a
      process id), so [JNum] holds the integer that the double is:
      [Js.to_double] rounds what the digits write to the nearest double,
      which changes nothing below 2^53, and 2^1024 stands for [Infinity].
    - A JavaScript object is an association list from property names to
      values, in insertion order; a property read with a computed name
      ([Js.lookup]) also finds the members of [Object.prototype].
    - What the process cannot decide by itself (the [styxy] command line, the
      socket, the file system faults, [JSON.parse]) is a field of an
      environment record; the functions are executable once it is given. *)

From Stdlib Require Import ZArith List String Ascii Bool Lia DecimalString.
From stdpp Require Import gmap strings list fin_maps.

Set Warnings "-register-all".

Local Open Scope Z_scope.
Local Open Scope string_scope.

(** ** JavaScript values and the string primitives the sources use *)

Module Js.

Inductive jsval : Type :=
| JUndefined
| JNull
| JBool (b : bool)
| JNum (n : Z)
| JNaN
| JStr (s : string)
| JArr (xs : list jsval)
| JObj (fields : list (string * jsval))
| JFunction (name : string) (arity : Z).   (* a built-in function *)

(** [ToBoolean]: what [if (v)], [!v], [a && b] and [a || b] test. *)
Definition truthy (v : jsval) : bool :=
  match v with
  | JUndefined | JNull | JNaN => false
  | JBool b => b
  | JNum n => negb (Z.eqb n 0)
  | JStr s => negb (String.eqb s "")
  | JArr _ | JObj _ | JFunction _ _ => true
  end.

Fixpoint assoc (k : string) (fs : list (string * jsval)) : option jsval :=
  match fs with
  | [] => None
  | (k', v) :: fs' => if String.eqb k k' then Some v else assoc k fs'
  end.

(** [v.k] on a value that is neither [null] nor [undefined], for the
    property names that the sources write after a dot, none of which is a
    member of [Object.prototype]: the own property of an object,
    [undefined] otherwise. *)
Definition get (k : string) (v : jsval) : jsval :=
  match v with
  | JObj fs => default JUndefined (assoc k fs)
  | _ => JUndefined
  end.

(** The members of [Object.prototype]: eleven functions and the accessor
    [__proto__], which gives the prototype itself, an object without an
    enumerable property. *)
Definition object_prototype : list (string * jsval) :=
  [("constructor", JFunction "Object" 1);
   ("__defineGetter__", JFunction "__defineGetter__" 2);
   ("__defineSetter__", JFunction "__defineSetter__" 2);
   ("hasOwnProperty", JFunction "hasOwnProperty" 1);
   ("__lookupGetter__", JFunction "__lookupGetter__" 1);
   ("__lookupSetter__", JFunction "__lookupSetter__" 1);
   ("isPrototypeOf", JFunction "isPrototypeOf" 1);
   ("propertyIsEnumerable", JFunction "propertyIsEnumerable" 1);
   ("toString", JFunction "toString" 0);
   ("valueOf", JFunction "valueOf" 0);
   ("__proto__", JObj []);
   ("toLocaleString", JFunction "toLocaleString" 0)].

(** [o[k]] for a computed key [k] on an object literal: the own property,
    or else the member of [Object.prototype] that it inherits. *)
Definition lookup (k : string) (fs : list (string * jsval)) : jsval :=
  match assoc k fs with
  | Some v => v
  | None => default JUndefined (assoc k object_prototype)
  end.

(** The property names of an object, in insertion order. *)
Definition keys (v : jsval) : list string :=
  match v with
  | JObj fs => map fst fs
  | _ => []
  end.

(** [{ ...o, k: v }] and [o[k] = v]: overwrite in place or append. *)
Fixpoint set_field (k : string) (v : jsval) (fs : list (string * jsval))
  : list (string * jsval) :=
  match fs with
  | [] => [(k, v)]
  | (k', v') :: fs' =>
      if String.eqb k k' then (k, v) :: fs' else (k', v') :: set_field k v fs'
  end.

(** [delete o.k]. *)
Definition delete_field (k : string) (fs : list (string * jsval))
  : list (string * jsval) :=
  filter (fun kv => negb (String.eqb k (fst kv))) fs.

(** *** Characters *)

Definition is_digit (c : ascii) : bool :=
  let n := nat_of_ascii c in (48 <=? n)%nat && (n <=? 57)%nat.

(** [\s] and the characters [trim] strips, among code units below 256. *)
Definition is_space (c : ascii) : bool :=
  let n := nat_of_ascii c in
  ((9 <=? n)%nat && (n <=? 13)%nat) || (n =? 32)%nat || (n =? 160)%nat.

(** The characters [.] does not match. *)
Definition is_line_terminator (c : ascii) : bool :=
  let n := nat_of_ascii c in (n =? 10)%nat || (n =? 13)%nat.

Definition LF : ascii := ascii_of_nat 10.
Definition DQUOTE : ascii := ascii_of_nat 34.

(** *** Strings *)

Fixpoint take_while (p : ascii -> bool) (s : string) : string :=
  match s with
  | String c s' => if p c then String c (take_while p s') else ""
  | EmptyString => ""
  end.

Fixpoint drop_while (p : ascii -> bool) (s : string) : string :=
  match s with
  | String c s' => if p c then drop_while p s' else s
  | EmptyString => ""
  end.

Fixpoint drop (n : nat) (s : string) : string :=
  match n, s with
  | S n', String _ s' => drop n' s'
  | _, _ => s
  end.

(** [s.includes(sub)]. *)
Fixpoint includes (sub s : string) : bool :=
  String.prefix sub s ||
  match s with
  | String _ s' => includes sub s'
  | EmptyString => false
  end.

Definition trimStart (s : string) : string := drop_while is_space s.
Definition trimEnd (s : string) : string :=
  String.rev (drop_while is_space (String.rev s)).
(** [s.trim()]. *)
Definition trim (s : string) : string := trimEnd (trimStart s).

(** [s.split(sep)] for a non-empty separator: [cur] holds, reversed, the
    characters of the piece being read, [skip] the characters of a
    separator that is being stepped over. *)
Fixpoint split_go (sep : string) (skip : nat) (cur : string) (s : string)
  : list string :=
  match s with
  | EmptyString => [String.rev cur]
  | String c s' =>
      match skip with
      | S k => split_go sep k cur s'
      | O =>
          if String.prefix sep s
          then String.rev cur :: split_go sep (String.length sep - 1) "" s'
          else split_go sep O (String c cur) s'
      end
  end.

Definition split (sep s : string) : list string := split_go sep O "" s.

Definition NL : string := String LF "".

(** [arr.join(sep)] on an array of strings. *)
Fixpoint join (sep : string) (xs : list string) : string :=
  match xs with
  | [] => ""
  | [x] => x
  | x :: xs' => x +:+ sep +:+ join sep xs'
  end.

(** [path.join] of segments that need no normalisation. *)
Definition path_join (segments : list string) : string := join "/" segments.

(** [s.match(/\d+/)]: the leftmost maximal run of digits, [None] for the
    [null] of a failed match. *)
Fixpoint match_digits (s : string) : option string :=
  match s with
  | EmptyString => None
  | String c s' =>
      if is_digit c then Some (String c (take_while is_digit s'))
      else match_digits s'
  end.

Definition digit_value (c : ascii) : Z := Z.of_nat (nat_of_ascii c) - 48.

Fixpoint parse_digits (acc : Z) (s : string) : Z :=
  match s with
  | String c s' =>
      if is_digit c then parse_digits (10 * acc + digit_value c) s' else acc
  | EmptyString => acc
  end.

(** *** Numbers

    A JavaScript number is a double. A [Z] stands for the double that has
    its value: every integer of magnitude up to 2^53 is one, above that
    only the integers that 53 bits of mantissa give. [infinity] is the
    first power of two that is too large for a double; it stands for
    [Infinity]. *)

Definition safe_bound : Z := 9007199254740992.   (* 2^53 *)
Definition infinity : Z := 2 ^ 1024.

(** The double nearest to a non-negative integer, a tie going to the even
    mantissa: the Number value of a decimal numeral. *)
Definition to_double (n : Z) : Z :=
  if Z.ltb n safe_bound then n
  else
    let e := Z.log2 n - 52 in
    let q := Z.shiftr n e in
    let r := n - Z.shiftl q e in
    let half := 2 ^ (e - 1) in
    let q' := if Z.ltb half r || (Z.eqb r half && Z.odd q) then q + 1 else q in
    Z.min (Z.shiftl q' e) infinity.

(** [parseInt(s)] on the strings the sources pass, which start with a
    decimal digit: the Number value of the leading digits. *)
Definition parseInt (s : string) : jsval :=
  match s with
  | String c _ => if is_digit c then JNum (to_double (parse_digits 0 s)) else JNaN
  | EmptyString => JNaN
  end.

(** The decimal numeral of a non-negative integer. *)
Definition decimal (n : Z) : string := NilZero.string_of_int (Z.to_int n).

(** The numeral with [k] significant digits, padded with zeros, that is
    nearest to the double [v] and reads back as [v], if there is one;
    of two at the same distance the one with the even last digit. *)
Definition round_trip (v : Z) (k : nat) : option Z :=
  let p := 10 ^ Z.of_nat (String.length (decimal v) - k) in
  let lo := (v / p) * p in
  let hi := lo + p in
  match Z.eqb (to_double lo) v, Z.eqb (to_double hi) v with
  | true, true =>
      Some (if Z.ltb (v - lo) (hi - v) then lo
            else if Z.ltb (hi - v) (v - lo) then hi
            else if Z.even (v / p) then lo else hi)
  | true, false => Some lo
  | false, true => Some hi
  | false, false => None
  end.

(** The shortest numeral that reads back as [v], tried from [k]
    significant digits on. *)
Fixpoint shortest (v : Z) (k : nat) (fuel : nat) : Z :=
  match fuel with
  | O => v
  | S fuel' =>
      match round_trip v k with
      | Some c => c
      | None => shortest v (S k) fuel'
      end
  end.

Fixpoint strip_zeros (rev_digits : string) : string :=
  match rev_digits with
  | String "0" s' => strip_zeros s'
  | _ => rev_digits
  end.

(** [d.ddde+x], the notation of a number from 10^21 on. *)
Definition exponent_notation (c : Z) : string :=
  let digits := decimal c in
  let exponent := decimal (Z.of_nat (String.length digits - 1)) in
  match String.rev (strip_zeros (String.rev digits)) with
  | String d "" => String d "" +:+ "e+" +:+ exponent
  | String d more => String d "" +:+ "." +:+ more +:+ "e+" +:+ exponent
  | EmptyString => digits
  end.

(** [Number::toString] of a non-negative integer-valued number. *)
Definition unsigned_toString (n : Z) : string :=
  if Z.ltb n safe_bound then decimal n
  else if Z.leb infinity n then "Infinity"
  else
    let c := shortest n 1 (String.length (decimal n)) in
    if (String.length (decimal c) <=? 21)%nat then decimal c
    else exponent_notation c.

(** [n.toString()] and [`${n}`] for an integer-valued number. *)
Definition toString (n : Z) : string :=
  if Z.ltb n 0 then "-" +:+ unsigned_toString (- n) else unsigned_toString n.

(** [`${v}`]: the string a template literal inserts. *)
Fixpoint ToString (v : jsval) : string :=
  match v with
  | JUndefined => "undefined"
  | JNull => "null"
  | JBool true => "true"
  | JBool false => "false"
  | JNum n => toString n
  | JNaN => "NaN"
  | JStr s => s
  | JArr xs =>
      join "," (map (fun x => match x with
                              | JUndefined | JNull => ""
                              | _ => ToString x
                              end) xs)
  | JObj _ => "[object Object]"
  | JFunction name _ => "function " +:+ name +:+ "() { [native code] }"
  end.

End Js.

Import Js.

(** ** [singleton.js]: the lock file that keeps one adapter per host *)

Module Singleton.

(** The synchronous [fs] calls that may throw. [fs.existsSync] never does. *)
Inductive fs_call : Type := MkdirSync | ReadFileSync | UnlinkSync | WriteFileSync.

(** What [acquire] and [release] print, without the formatting. *)
Inductive log_line : Type :=
| LogOtherInstance (pid : jsval)   (* Another styxy-mcp-server instance is running *)
| LogStale                          (* Stale lock file found, cleaning up... *)
| LogAcquired (pid : Z)             (* Lock acquired successfully *)
| LogAcquireFailed                  (* Failed to acquire lock *)
| LogReleased (pid : Z)             (* Lock released *)
| LogReleaseFailed                  (* Failed to release lock *)
| LogCleanupFailed.                 (* Cleanup failed *)

Record Env : Type := {
  os_homedir : string;
  os_hostname : string;
  process_pid : Z;
  process_argv : list string;
  (** [new Date().toISOString()] *)
  now_iso : string;
  (** the call on this path throws (permissions, a full disk, ...) *)
  throws : fs_call -> string -> bool;
  (** what a [writeFileSync] that throws leaves at the path: [None] when it
      fails before it has opened the file, else the part that it wrote *)
  write_residue : string -> option string;
  (** [JSON.parse], [None] when it throws *)
  JSON_parse : string -> option jsval;
  (** [JSON.stringify(v, null, 2)] *)
  JSON_stringify : jsval -> string;
  (** [process.kill(pid, 0)] returns instead of throwing *)
  process_kill0 : jsval -> bool
}.

(** The files and directories of the host, the [fs] calls that completed,
    the console and the number of times the exit handlers were installed. *)
Record World : Type := {
  files : gmap string string;
  dirs : gset string;
  calls : list (fs_call * string);
  console : list log_line;
  handler_sets : nat
}.

(** The fields of a [SingletonLock]. *)
Record Lock : Type := {
  lockName : string;
  lockDir : string;
  lockFile : string;
  acquired : bool;
  pid : Z
}.

(** A completed [fs] call and the files and directories it leaves. *)
Definition completed (call : fs_call) (path : string)
    (f : gmap string string) (d : gset string) (w : World) : World :=
  {| files := f; dirs := d; calls := calls w ++ [(call, path)];
     console := console w; handler_sets := handler_sets w |}.

Definition console_log (l : log_line) (w : World) : World :=
  {| files := files w; dirs := dirs w; calls := calls w;
     console := console w ++ [l]; handler_sets := handler_sets w |}.

Definition set_acquired (b : bool) (this : Lock) : Lock :=
  {| lockName := lockName this; lockDir := lockDir this;
     lockFile := lockFile this; acquired := b; pid := pid this |}.

Section Methods.
Variable env : Env.

(** [constructor(lockName = 'styxy-mcp-server')] *)
Definition new_lock (name : string) : Lock :=
  let dir := path_join [os_homedir env; ".styxy"; "locks"] in
  {| lockName := name;
     lockDir := dir;
     lockFile := path_join [dir; name +:+ ".lock"];
     acquired := false;
     pid := process_pid env |}.

(** [fs.mkdirSync(dir, { recursive: true })] *)
Definition mkdirSync (dir : string) (w : World) : option World :=
  if throws env MkdirSync dir then None
  else Some (completed MkdirSync dir (files w) ({[dir]} ∪ dirs w) w).

Definition existsSync (path : string) (w : World) : bool :=
  bool_decide (is_Some (files w !! path)).

(** [fs.readFileSync(path, 'utf8')]: the content and the world after the
    call. *)
Definition readFileSync (path : string) (w : World) : option (string * World) :=
  if throws env ReadFileSync path then None
  else match files w !! path with
       | Some content =>
           Some (content, completed ReadFileSync path (files w) (dirs w) w)
       | None => None
       end.

Definition unlinkSync (path : string) (w : World) : option World :=
  if throws env UnlinkSync path then None
  else match files w !! path with
       | Some _ =>
           Some (completed UnlinkSync path (delete path (files w)) (dirs w) w)
       | None => None
       end.

Definition writeFileSync (path content : string) (w : World) : option World :=
  if throws env WriteFileSync path then None
  else Some (completed WriteFileSync path (<[path := content]> (files w))
                       (dirs w) w).

(** The world after a [writeFileSync] that threw: the call opens the file,
    which creates it or empties it, before it writes. *)
Definition failed_write (path : string) (w : World) : World :=
  match write_residue env path with
  | Some partial =>
      {| files := <[path := partial]> (files w); dirs := dirs w;
         calls := calls w; console := console w;
         handler_sets := handler_sets w |}
  | None => w
  end.

(** [readLockFile()]: the parsed content, [null] on any failure. *)
Definition readLockFile (this : Lock) (w : World) : jsval * World :=
  match readFileSync (lockFile this) w with
  | Some (content, w') => (default JNull (JSON_parse env content), w')
  | None => (JNull, w)
  end.

(** [isProcessRunning(pid)] *)
Definition isProcessRunning (p : jsval) : bool := process_kill0 env p.

(** [cleanup()]: removes the lock file, swallowing a failure. *)
Definition cleanup (this : Lock) (w : World) : World :=
  if existsSync (lockFile this) w
  then match unlinkSync (lockFile this) w with
       | Some w' => w'
       | None => console_log LogCleanupFailed w
       end
  else w.

Definition setupCleanupHandlers (w : World) : World :=
  {| files := files w; dirs := dirs w; calls := calls w;
     console := console w; handler_sets := S (handler_sets w) |}.

(** The record [acquire] writes. *)
Definition lock_record (this : Lock) : jsval :=
  JObj [("pid", JNum (pid this));
        ("started", JStr (now_iso env));
        ("hostname", JStr (os_hostname env));
        ("command", JStr (join " " (process_argv env)))].

(** [acquire()]. The three results of the [try] block are: the early
    [return false], the [return true], and a throw that the [catch] turns
    into [false]. *)
Definition acquire (this : Lock) (w : World) : bool * Lock * World :=
  match mkdirSync (lockDir this) w with
  | None => (false, this, console_log LogAcquireFailed w)
  | Some w1 =>
      let checked : World + World :=
        if existsSync (lockFile this) w1 then
          let '(lockData, w1') := readLockFile this w1 in
          if truthy lockData && isProcessRunning (get "pid" lockData)
          then inl (console_log (LogOtherInstance (get "pid" lockData)) w1')
          else inr (cleanup this (console_log LogStale w1'))
        else inr w1 in
      match checked with
      | inl w2 => (false, this, w2)
      | inr w2 =>
          let lockData := lock_record this in
          match writeFileSync (lockFile this) (JSON_stringify env lockData) w2 with
          | None =>
              (false, this,
               console_log LogAcquireFailed (failed_write (lockFile this) w2))
          | Some w3 =>
              (true, set_acquired true this,
               console_log (LogAcquired (pid this)) (setupCleanupHandlers w3))
          end
      end
  end.

(** [release()] *)
Definition release (this : Lock) (w : World) : Lock * World :=
  if negb (acquired this) then (this, w)
  else if existsSync (lockFile this) w then
    match unlinkSync (lockFile this) w with
    | Some w' => (set_acquired false this, console_log (LogReleased (pid this)) w')
    | None => (this, console_log LogReleaseFailed w)
    end
  else (set_acquired false this, w).

(** [isAcquired()] *)
Definition isAcquired (this : Lock) : bool := acquired this.

(** [getLockInfo()] *)
Definition getLockInfo (this : Lock) (w : World) : jsval * World :=
  if negb (existsSync (lockFile this) w) then (JNull, w) else readLockFile this w.

End Methods.

(** No file-system call fails. *)
Definition no_faults (env : Env) : Prop :=
  forall call path, throws env call path = false.

(** The content of a lock file does not parse, or names a process that is
    not alive. *)
Definition stale (env : Env) (content : string) : Prop :=
  JSON_parse env content = None \/
  exists v, JSON_parse env content = Some v /\
            process_kill0 env (get "pid" v) = false.

End Singleton.

(** ** [styxyClient.js]: the daemon channel and its command-line fallback *)

Module Client.

(** *** Exceptions and promise outcomes *)

Inductive exn : Type :=
| Error (message : string)
| TypeError (message : string)
| SyntaxError (message : string)
| RangeError (message : string)
| ExecError (message stdout : string).   (* what a failed [execAsync] rejects with *)

(** [error.message] *)
Definition message (e : exn) : string :=
  match e with
  | Error m | TypeError m | SyntaxError m | RangeError m | ExecError m _ => m
  end.

(** [error.stdout] *)
Definition error_stdout (e : exn) : jsval :=
  match e with
  | ExecError _ out => JStr out
  | _ => JUndefined
  end.

(** The message of the [TypeError] that V8 raises for [what.prop]. *)
Definition cannot_read (what prop : string) : string :=
  "Cannot read properties of " +:+ what +:+ " (reading '" +:+ prop +:+ "')".

Definition stack_overflow : exn := RangeError "Maximum call stack size exceeded".

(** How a promise settles, and how a synchronous call completes. *)
Inductive outcome (A : Type) : Type :=
| Resolved (a : A)
| Rejected (e : exn).
Arguments Resolved {A} a.
Arguments Rejected {A} e.

(** *** Commands *)

Record Context : Type := {
  serviceType : string;
  projectName : string;
  workingDir : string;
  claudeSessionId : option string
}.

Record Preferences : Type := {
  port : option Z;
  duration : string
}.

Record Metadata : Type := {
  serviceName : option string;
  timestamp : string
}.

(** The objects that [allocatePort], [getStatus], [getLogs], [cleanup] and
    [getMetrics] build. *)
Inductive Command : Type :=
| Allocate (context : Context) (preferences : Preferences) (metadata : Metadata)
| Status (include_ports include_recent_errors : bool)
| Logs (level time_range : string) (filter : option string) (limit : Z)
| Cleanup (force : bool) (port : option Z) (session_id : option string)
| Metrics (time_range : string) (include_patterns : bool).

(** [command.type] *)
Definition command_type (c : Command) : string :=
  match c with
  | Allocate _ _ _ => "allocate"
  | Status _ _ => "status"
  | Logs _ _ _ _ => "logs"
  | Cleanup _ _ _ => "cleanup"
  | Metrics _ _ => "metrics"
  end.

Definition opt_str (o : option string) : jsval := from_option JStr JUndefined o.
Definition opt_num (o : option Z) : jsval := from_option JNum JUndefined o.

(** The command as the object that [JSON.stringify] receives. *)
Definition command_object (c : Command) : jsval :=
  match c with
  | Allocate ctx prefs meta =>
      JObj [("type", JStr "allocate");
            ("context", JObj [("serviceType", JStr (serviceType ctx));
                              ("projectName", JStr (projectName ctx));
                              ("workingDir", JStr (workingDir ctx));
                              ("claudeSessionId", opt_str (claudeSessionId ctx))]);
            ("preferences", JObj [("port", opt_num (port prefs));
                                  ("duration", JStr (duration prefs))]);
            ("metadata", JObj [("serviceName", opt_str (serviceName meta));
                               ("timestamp", JStr (timestamp meta))])]
  | Status ports errors =>
      JObj [("type", JStr "status");
            ("options", JObj [("include_ports", JBool ports);
                              ("include_recent_errors", JBool errors)])]
  | Logs level range filter limit =>
      JObj [("type", JStr "logs");
            ("options", JObj [("level", JStr level); ("time_range", JStr range);
                              ("filter", opt_str filter); ("limit", JNum limit)])]
  | Cleanup force p session =>
      JObj [("type", JStr "cleanup"); ("force", JBool force);
            ("port", opt_num p); ("session_id", opt_str session)]
  | Metrics range patterns =>
      JObj [("type", JStr "metrics");
            ("options", JObj [("time_range", JStr range);
                              ("include_patterns", JBool patterns)])]
  end.

(** *** The environment and the state of a client *)

Inductive exec_result : Type :=
| ExecOk (stdout : string)
| ExecFailed (message stdout : string).

(** The first event of a socket that is being opened. *)
Inductive connect_event : Type :=
| Connect
| ConnectError (message : string)
| ConnectTimeout.

(** What an open socket delivers while a call waits. *)
Inductive socket_event : Type :=
| Data (chunk : string)
| SocketError (e : exn).

Inductive ready_state : Type := Opening | Open | ReadOnly | WriteOnly | Closed.

Record Socket : Type := { readyState : ready_state }.

Record Env : Type := {
  os_homedir : string;
  (** [execAsync(cmd)] *)
  exec : string -> exec_result;
  (** [fs.readFile(path, 'utf8')] *)
  readFile : string -> outcome string;
  (** [JSON.parse], [None] when it throws *)
  JSON_parse : string -> option jsval;
  JSON_stringify : jsval -> string;
  (** the first event of [net.createConnection(path)] *)
  connect : jsval -> connect_event;
  (** the events of the open socket that arrive before the 10000 ms timer *)
  socket_events : list socket_event;
  (** how many nested calls fit on the stack *)
  stack_depth : nat;
  process_cwd : string;
  (** [new Date().toISOString()] *)
  now_iso : string;
  (** [process.env.CLAUDE_SESSION_ID] *)
  CLAUDE_SESSION_ID : option string
}.

(** The fields of a [StyxyClient]. *)
Record Client : Type := {
  daemonSocket : option Socket;
  config : jsval
}.

(** [constructor()] *)
Definition new_client : Client := {| daemonSocket := None; config := JNull |}.

(** What a call does to the outside, in order. [EvFallback] marks an entry
    into [fallbackToCliCommand]. *)
Inductive event : Type :=
| EvExec (cmd : string)
| EvReadFile (path : string)
| EvConnect (path : jsval)
| EvDestroy
| EvWrite (payload : string)
| EvFallback (command : Command).

Record World : Type := { this : Client; trace : list event }.

(** *** Computations: a state and exception monad over [World] *)

Definition M (A : Type) : Type := World -> outcome A * World.

Definition ret {A} (a : A) : M A := fun w => (Resolved a, w).
Definition throw {A} (e : exn) : M A := fun w => (Rejected e, w).
Definition bind {A B} (m : M A) (k : A -> M B) : M B :=
  fun w => match m w with
           | (Resolved a, w') => k a w'
           | (Rejected e, w') => (Rejected e, w')
           end.
(** [try { body } catch (error) { handler }] *)
Definition try_catch {A} (body : M A) (handler : exn -> M A) : M A :=
  fun w => match body w with
           | (Resolved a, w') => (Resolved a, w')
           | (Rejected e, w') => handler e w'
           end.

#[export] Instance M_ret : MRet M := @ret.
#[export] Instance M_bind : MBind M := fun A B k m => bind m k.

(** A promise that settles as [o] does. *)
Definition settled {A} (o : outcome A) : M A := fun w => (o, w).

Definition emit (ev : event) : M unit :=
  fun w => (Resolved tt, {| this := this w; trace := trace w ++ [ev] |}).
Definition get_this : M Client := fun w => (Resolved (this w), w).
Definition set_this (c : Client) : M unit :=
  fun w => (Resolved tt, {| this := c; trace := trace w |}).

(** [obj.k], which throws on [null] and [undefined]. *)
Definition prop (k : string) (v : jsval) : M jsval :=
  match v with
  | JNull => throw (TypeError (cannot_read "null" k))
  | JUndefined => throw (TypeError (cannot_read "undefined" k))
  | _ => ret (get k v)
  end.

(** [obj?.k] *)
Definition opt_prop (k : string) (v : jsval) : jsval :=
  match v with
  | JNull | JUndefined => JUndefined
  | _ => get k v
  end.

(** The elements of an array or the characters of a string as properties
    named by their indices. *)
Fixpoint indexed (i : nat) (xs : list jsval) : list (string * jsval) :=
  match xs with
  | x :: rest => (decimal (Z.of_nat i), x) :: indexed (S i) rest
  | [] => []
  end.

(** [{ ...v }]: the own enumerable properties of [v]. An array and a
    string spread their indices; the other values spread to nothing. *)
Definition spread (v : jsval) : list (string * jsval) :=
  match v with
  | JObj fs => fs
  | JArr xs => indexed 0 xs
  | JStr s => indexed 0 (map (fun c => JStr (String c "")) (list_ascii_of_string s))
  | _ => []
  end.

(** *** The configuration resolver *)

Record ConfigOptions : Type := { validate : bool; show_sensitive : bool }.

(** [options = {}] *)
Definition no_options : ConfigOptions :=
  {| validate := false; show_sensitive := false |}.

(** The method definitions of the class body, in source order, each with
    the line it starts on. *)
Definition class_body : list (string * nat) :=
  [("getConfig", 16%nat); ("loadDefaultConfig", 30%nat);
   ("connectToDaemon", 56%nat); ("sendDaemonCommand", 85%nat);
   ("fallbackToCliCommand", 116%nat); ("cliAllocatePort", 131%nat);
   ("cliGetStatus", 173%nat); ("parseStatusOutput", 193%nat);
   ("extractValue", 207%nat); ("extractPorts", 212%nat);
   ("cliCleanup", 226%nat); ("extractReleasedPorts", 253%nat);
   ("generateUsageExamplesCli", 258%nat); ("allocatePort", 271%nat);
   ("getStatus", 293%nat); ("getLogs", 305%nat); ("readLogFiles", 324%nat);
   ("getConfig", 344%nat); ("validateConfig", 367%nat);
   ("cleanup", 387%nat); ("getMetrics", 398%nat)].

(** Evaluating a class body defines each method on the prototype in turn; a
    later definition of a name replaces the earlier one. *)
Definition prototype : gmap string nat :=
  fold_left (fun proto def => <[def.1 := def.2]> proto) class_body ∅.

Section Methods.
Variable env : Env.

Definition execAsync (cmd : string) : M string :=
  emit (EvExec cmd);;
  match exec env cmd with
  | ExecOk stdout => ret stdout
  | ExecFailed m out => throw (ExecError m out)
  end.

Definition fs_readFile (path : string) : M string :=
  emit (EvReadFile path);;
  settled (readFile env path).

Definition JSON_parse_m (text : string) : M jsval :=
  match JSON_parse env text with
  | Some v => ret v
  | None => throw (SyntaxError "Unexpected token in JSON")
  end.

Definition set_config (v : jsval) : M unit :=
  c ← get_this;
  set_this {| daemonSocket := daemonSocket c; config := v |}.

Definition default_socket_path : string :=
  path_join [os_homedir env; ".styxy"; "daemon.sock"].

(** The [for] loop of [loadDefaultConfig] over the paths not yet tried. *)
Fixpoint loadDefaultConfig_from (possiblePaths : list string) : M jsval :=
  match possiblePaths with
  | configPath :: rest =>
      try_catch
        (content ← fs_readFile configPath;
         parsed ← JSON_parse_m content;
         ret (JObj (set_field "config_path" (JStr configPath) (spread parsed))))
        (fun _ => loadDefaultConfig_from rest)
  | [] =>
      ret (JObj [("daemon",
                  JObj [("socket_path", JStr default_socket_path);
                        ("port_range", JObj [("start", JNum 3000);
                                             ("end", JNum 9999)])]);
                 ("config_path", JStr "not found")])
  end.

(** [loadDefaultConfig()] *)
Definition loadDefaultConfig : M jsval :=
  loadDefaultConfig_from
    [path_join [os_homedir env; ".styxy"; "config.json"];
     path_join [os_homedir env; ".config"; "styxy"; "config.json"];
     "/etc/styxy/config.json"].

(** The [getConfig()] defined at line 16. *)
Definition getConfig_l16 : M jsval :=
  c ← get_this;
  (if negb (truthy (config c))
   then try_catch
          (stdout ← execAsync "styxy config show --json";
           parsed ← JSON_parse_m stdout;
           set_config parsed)
          (fun _ => loaded ← loadDefaultConfig; set_config loaded)
   else ret tt);;
  c' ← get_this;
  ret (config c').

(** [validateConfig(config)]: [isValid] and [errors]. *)
Definition validateConfig (cfg : jsval) : M (bool * list string) :=
  daemon ← prop "daemon" cfg;
  errors ← (if negb (truthy daemon)
            then ret ["Missing daemon configuration"]
            else
              ret (app (if negb (truthy (get "socket_path" daemon))
                        then ["Missing daemon socket_path"] else [])
                       (if negb (truthy (get "port_range" daemon))
                        then ["Missing port_range configuration"] else [])));
  ret (bool_decide (errors = []), errors).

(** The [getConfig(options = {})] defined at line 344; [self] is what its
    [this.getConfig()] runs. *)
Definition getConfig_l344 (self : M jsval) (options : ConfigOptions) : M jsval :=
  cfg ← self;
  if validate options then
    validation ← validateConfig cfg;
    ret (JObj (set_field "is_valid" (JBool validation.1)
                 (set_field "validation_errors" (JArr (map JStr validation.2))
                    (spread cfg))))
  else if negb (show_sensitive options) then
    ret (JObj (delete_field "tokens" (delete_field "secrets" (spread cfg))))
  else ret cfg.

(** [this.getConfig(options)]: the call looks the name up on the prototype
    and needs a stack frame. *)
Fixpoint getConfig (depth : nat) (options : ConfigOptions) : M jsval :=
  match depth with
  | O => throw stack_overflow
  | S depth' =>
      match prototype !! "getConfig" with
      | Some 16%nat => getConfig_l16
      | Some 344%nat => getConfig_l344 (getConfig depth' no_options) options
      | _ => throw (TypeError "this.getConfig is not a function")
      end
  end.

(** *** The socket path *)

(** The [new Promise] of [connectToDaemon]: the first event settles it. *)
Definition open_socket (socketPath : jsval) : M Socket :=
  emit (EvConnect socketPath);;
  match connect env socketPath with
  | Connect =>
      let socket := {| readyState := Open |} in
      c ← get_this;
      set_this {| daemonSocket := Some socket; config := config c |};;
      ret socket
  | ConnectError m =>
      throw (Error ("Daemon not reachable: " +:+ m +:+ ". Try 'styxy daemon start'"))
  | ConnectTimeout =>
      emit EvDestroy;;
      throw (Error "Daemon connection timeout. Check if styxy daemon is running.")
  end.

(** [connectToDaemon()] *)
Definition connectToDaemon : M Socket :=
  c ← get_this;
  match daemonSocket c with
  | Some {| readyState := Open |} => ret {| readyState := Open |}
  | _ =>
      cfg ← getConfig (stack_depth env) no_options;
      daemon ← prop "daemon" cfg;
      let configured := opt_prop "socket_path" daemon in
      open_socket (if truthy configured then configured
                   else JStr default_socket_path)
  end.

(** The listeners of the promise in [sendDaemonCommand]: each chunk is
    appended to [response] and the whole parsed; an [error] event rejects;
    when the events run out the timer rejects. *)
Fixpoint settle (response : string) (events : list socket_event) : outcome jsval :=
  match events with
  | Data chunk :: rest =>
      match JSON_parse env (response +:+ chunk) with
      | Some result => Resolved result
      | None => settle (response +:+ chunk) rest
      end
  | SocketError e :: _ => Rejected e
  | [] => Rejected (Error "Command timeout")
  end.

(** The promise that [sendDaemonCommand] builds once it has a socket. *)
Definition exchange (socket : Socket) (command : Command) : M jsval :=
  emit (EvWrite (JSON_stringify env (command_object command) +:+ NL));;
  settled (settle "" (socket_events env)).

(** *** The command-line fallback *)

(** [s.match(/Released port (\d+)/g)]: the matches from left to right, the
    search resuming after each one. [skip] counts the characters of a match
    still to step over. *)
Fixpoint match_all_released (skip : nat) (s : string) : list string :=
  match s with
  | EmptyString => []
  | String _ s' =>
      match skip with
      | S k => match_all_released k s'
      | O =>
          let digits := take_while is_digit (drop 14 s) in
          if String.prefix "Released port " s && negb (String.eqb digits "")
          then let m := "Released port " +:+ digits in
               m :: match_all_released (String.length m - 1) s'
          else match_all_released O s'
      end
  end.

(** [extractReleasedPorts(output)]; the callback of [map] reads index 0 of
    a match result. *)
Fixpoint released_ports_of (matches : list string) : M (list jsval) :=
  match matches with
  | [] => ret []
  | m :: rest =>
      match match_digits m with
      | Some digits =>
          ports ← released_ports_of rest;
          ret (parseInt digits :: ports)
      | None => throw (TypeError (cannot_read "null" "0"))
      end
  end.

Definition extractReleasedPorts (output : string) : M (list jsval) :=
  released_ports_of (match_all_released O output).

(** [\s*(.+)] at the start of [s]: the blanks are given back one by one
    until a character that [.] accepts follows. *)
Fixpoint match_description (s : string) : option string :=
  let rest_of_line := take_while (fun c => negb (is_line_terminator c)) s in
  match s with
  | EmptyString => None
  | String c s' =>
      if is_space c then
        match match_description s' with
        | Some d => Some d
        | None => if is_line_terminator c then None else Some rest_of_line
        end
      else Some rest_of_line
  end.

(** [(\d+)\s*-\s*(.+)] anchored at the start of [s]. *)
Definition match_port_row_here (s : string) : option (string * string) :=
  let digits := take_while is_digit s in
  if String.eqb digits "" then None
  else match drop_while is_space (drop_while is_digit s) with
       | String "-" after =>
           match match_description after with
           | Some d => Some (digits, d)
           | None => None
           end
       | _ => None
       end.

(** [line.match(/(\d+)\s*-\s*(.+)/)]: groups 1 and 2 of the leftmost match. *)
Fixpoint match_port_row (s : string) : option (string * string) :=
  match s with
  | EmptyString => None
  | String _ s' =>
      match match_port_row_here s with
      | Some groups => Some groups
      | None => match_port_row s'
      end
  end.

(** [extractPorts(lines)] *)
Definition extractPorts (lines : list string) : list jsval :=
  flat_map (fun line =>
              match match_port_row line with
              | Some (digits, description) =>
                  [JObj [("port", parseInt digits);
                         ("description", JStr (trim description))]]
              | None => []
              end) lines.

(** [extractValue(lines, prefix)] *)
Definition extractValue (lines : list string) (prefix : string) : jsval :=
  match find (includes prefix) lines with
  | Some line =>
      if truthy (JStr line)
      then match split prefix line !! 1%nat with
           | Some piece => JStr (trim piece)
           | None => JUndefined
           end
      else JNull
  | None => JNull
  end.

(** [parseStatusOutput(output)] *)
Definition parseStatusOutput (output : string) : jsval :=
  let lines := split NL output in
  JObj [("daemon_running",
         JBool (negb (includes "not running" output) &&
                negb (includes "failed" output)));
        ("pid", extractValue lines "PID:");
        ("uptime", extractValue lines "Uptime:");
        ("active_ports", JArr (extractPorts lines));
        ("config_path", extractValue lines "Config:");
        ("log_path", extractValue lines "Logs:");
        ("raw_output", JStr output)].

(** [cliGetStatus()] *)
Definition cliGetStatus : M jsval :=
  try_catch
    (stdout ← execAsync "styxy status --json";
     JSON_parse_m stdout)
    (fun _ =>
       try_catch
         (stdout ← execAsync "styxy status";
          ret (parseStatusOutput stdout))
         (fun fallbackError =>
            ret (JObj [("daemon_running", JBool false);
                       ("error", JStr ("Status check failed: " +:+
                                       message fallbackError));
                       ("active_ports", JArr []);
                       ("recent_errors",
                        JArr [JStr ("CLI error: " +:+ message fallbackError)])]))).

(** [generateUsageExamplesCli(serviceType, port)]. For a service type
    that names a member of [Object.prototype] the lookup finds that member,
    which is truthy, and the result is the member, not a string. *)
Definition generateUsageExamplesCli (serviceType : string) (port : jsval) : jsval :=
  let p := ToString port in
  let examples :=
    [("web", JStr ("npm run dev -- --port " +:+ p));
     ("api", JStr ("PORT=" +:+ p +:+ " npm start"));
     ("storybook", JStr ("npm run storybook -- --port " +:+ p));
     ("database", JStr ("# Configure your database to use port " +:+ p));
     ("testing", JStr ("npm test -- --port " +:+ p))] in
  let example := lookup serviceType examples in
  if truthy example then example
  else JStr ("# Use port " +:+ p +:+ " for your " +:+ serviceType +:+ " service").

(** Lines 151 to 153 of [cliAllocatePort]: the value of the local [port]. *)
Definition cliAllocatePort_port (stdout : string) : M jsval :=
  let lines := split NL (trim stdout) in
  match find (includes "Port:") lines with
  | Some portLine =>
      if truthy (JStr portLine)
      then match match_digits portLine with
           | Some digits => ret (parseInt digits)
           | None => throw (TypeError (cannot_read "null" "0"))
           end
      else ret JNull
  | None => ret JNull
  end.

Definition unparseable_output : string :=
  "Failed to parse allocated port from styxy output".

(** The argument list of [cliAllocatePort]. *)
Definition allocate_args (context : Context) (preferences : Preferences)
  : list string :=
  ["allocate"; "--service-type"; serviceType context;
   "--project"; projectName context] ++
  (if truthy (opt_num (Client.port preferences))
   then ["--preferred-port"; ToString (opt_num (Client.port preferences))]
   else []) ++
  (if truthy (JStr (duration preferences))
   then ["--duration"; duration preferences]
   else []).

(** [cliAllocatePort(command)] on the fields of an allocate command. *)
Definition cliAllocatePort (context : Context) (preferences : Preferences)
  : M jsval :=
  try_catch
    (stdout ← execAsync ("styxy " +:+ join " " (allocate_args context preferences));
     port ← cliAllocatePort_port stdout;
     if negb (truthy port) then throw (Error unparseable_output)
     else
       ret (JObj [("allocated_port", port);
                  ("service_url", JStr ("http://localhost:" +:+ ToString port));
                  ("cleanup_command", JStr ("styxy release " +:+ ToString port));
                  ("duration",
                   JStr (if truthy (JStr (duration preferences))
                         then duration preferences else "session"));
                  ("expires_with_session",
                   JBool (String.eqb (duration preferences) "session"));
                  ("usage_example",
                   generateUsageExamplesCli (serviceType context) port);
                  ("raw_output", JStr stdout)]))
    (fun error => throw (Error ("CLI allocation failed: " +:+ message error))).

(** The argument list of [cliCleanup]. *)
Definition cleanup_args (force : bool) (p : option Z) : list string :=
  ["cleanup"] ++
  (if force then ["--force"] else []) ++
  (if truthy (opt_num p) then ["--port"; ToString (opt_num p)] else []).

(** [cliCleanup(command)] on the fields of a cleanup command. *)
Definition cliCleanup (force : bool) (p : option Z) : M jsval :=
  try_catch
    (stdout ← execAsync ("styxy " +:+ join " " (cleanup_args force p));
     released ← extractReleasedPorts stdout;
     ret (JObj [("released_ports", JArr released);
                ("raw_output", JStr stdout)]))
    (fun error =>
       ret (JObj [("released_ports", JArr []);
                  ("errors", JArr [JStr (message error)]);
                  ("raw_output",
                   if truthy (error_stdout error) then error_stdout error
                   else JStr "")])).

(** [fallbackToCliCommand(command)] *)
Definition fallbackToCliCommand (command : Command) : M jsval :=
  emit (EvFallback command);;
  match command with
  | Allocate context preferences _ => cliAllocatePort context preferences
  | Status _ _ => cliGetStatus
  | Cleanup force p _ => cliCleanup force p
  | _ =>
      throw (Error ("CLI fallback not implemented for command type: " +:+
                    command_type command))
  end.

(** [sendDaemonCommand(command)]. Each [return] of the [try] and of the
    [catch] hands back a promise that is not awaited there; the call settles
    as that promise does. *)
Definition sendDaemonCommand (command : Command) : M jsval :=
  promise ← try_catch
              (socket ← connectToDaemon;
               ret (exchange socket command))
              (fun _ => ret (fallbackToCliCommand command));
  promise.

(** *** The main API *)

Record AllocateOptions : Type := {
  opt_serviceType : string;
  opt_projectName : string;
  opt_preferredPort : option Z;
  opt_duration : option string;
  opt_serviceName : option string;
  opt_claudeSessionId : option string
}.

(** [allocatePort(options)] *)
Definition allocatePort (options : AllocateOptions) : M jsval :=
  sendDaemonCommand
    (Allocate
       {| serviceType := opt_serviceType options;
          projectName := opt_projectName options;
          workingDir := process_cwd env;
          claudeSessionId := opt_claudeSessionId options |}
       {| port := opt_preferredPort options;
          duration := if truthy (opt_str (opt_duration options))
                      then default "" (opt_duration options) else "session" |}
       {| serviceName := opt_serviceName options;
          timestamp := now_iso env |}).

(** [getStatus(options = {})]; a flag is on unless it is [false]. *)
Definition getStatus (include_ports include_recent_errors : option bool)
  : M jsval :=
  sendDaemonCommand (Status (default true include_ports)
                            (default true include_recent_errors)).

(** [cleanup(options = {})] *)
Definition cleanup (force : option bool) (p : option Z) : M jsval :=
  sendDaemonCommand (Cleanup (default false force) p (CLAUDE_SESSION_ID env)).

(** [getMetrics(options = {})]: here the call is awaited inside the [try]. *)
Definition getMetrics (time_range : option string) (include_patterns : option bool)
  : M jsval :=
  try_catch
    (sendDaemonCommand
       (Metrics (if truthy (opt_str time_range) then default "" time_range
                 else "24h")
                (default true include_patterns)))
    (fun _ =>
       ret (JObj [("total_allocations", JNum 0);
                  ("active_allocations", JNum 0);
                  ("top_service_type", JStr "unknown");
                  ("top_project", JStr "unknown");
                  ("recommendations",
                   JArr [JStr "Enable metrics collection in styxy daemon for detailed analytics"])])).

End Methods.

(** *** Logs *)

(** The options of [getLogs] and [readLogFiles]. *)
Record LogsOptions : Type := {
  lo_level : option string;
  lo_time_range : option string;
  lo_filter : option string;
  lo_limit : option Z
}.

(** [o || d] for an optional string. *)
Definition or_default (o : option string) (d : string) : string :=
  if truthy (opt_str o) then default "" o else d.

(** [arr.slice(start)] *)
Definition slice_from {A} (start : Z) (l : list A) : list A :=
  let len := Z.of_nat (length l) in
  let k := if Z.ltb start 0 then Z.max (len + start) 0 else Z.min start len in
  skipn (Z.to_nat k) l.

(** [-options.limit || -50] *)
Definition log_slice_start (limit : option Z) : Z :=
  match limit with
  | Some n => if Z.eqb n 0 then -50 else - n
  | None => -50
  end.

Section Logs.
Variable env : Env.
(** The message of the error with which [fs.readFile] rejects a path that
    is not a string. *)
Variable invalid_path_message : jsval -> string.

(** [readLogFiles(options)] *)
Definition readLogFiles (options : LogsOptions) : M jsval :=
  try_catch
    (cfg ← getConfig env (stack_depth env) no_options;
     daemon ← prop "daemon" cfg;
     let configured := opt_prop "log_path" daemon in
     let logPath := if truthy configured then configured
                    else JStr (path_join [os_homedir env; ".styxy"; "daemon.log"]) in
     content ← match logPath with
               | JStr path => fs_readFile env path
               | _ => throw (TypeError (invalid_path_message logPath))
               end;
     let lines := List.filter (fun line => truthy (JStr line)) (split NL content) in
     ret (JObj [("entries",
                 JArr (map JStr (slice_from (log_slice_start (lo_limit options)) lines)));
                ("summary",
                 JStr ("Read " +:+ toString (Z.of_nat (length lines)) +:+
                       " log entries from " +:+ ToString logPath))]))
    (fun error =>
       ret (JObj [("entries", JArr []);
                  ("summary",
                   JStr ("Could not read log files: " +:+ message error))])).

(** The command that [getLogs] builds. *)
Definition logs_command (options : LogsOptions) : Command :=
  Logs (or_default (lo_level options) "info")
       (or_default (lo_time_range options) "1h")
       (lo_filter options)
       (match lo_limit options with
        | Some n => if Z.eqb n 0 then 50 else n
        | None => 50
        end).

(** [getLogs(options = {})] *)
Definition getLogs (options : LogsOptions) : M jsval :=
  try_catch
    (sendDaemonCommand env (logs_command options))
    (fun _ => readLogFiles options).

End Logs.

(** The world after the commands of [cs] were sent one after the other. *)
Fixpoint send_all (env : Env) (cs : list Command) (w : World) : World :=
  match cs with
  | [] => w
  | c :: cs' => send_all env cs' (sendDaemonCommand env c w).2
  end.

End Client.

(** ** [index.js]: the tool dispatcher

    The texts are kept as the bytes of their UTF-8 encoding; they are only
    concatenated. *)

Module Server.
Import Client.

(** The [arguments] object of a tool call. The two required fields of the
    allocate tool are strings; a field that is absent is [None]. *)
Record ToolArgs : Type := {
  a_service_type : string;
  a_project_name : string;
  a_preferred_port : option Z;
  a_duration : option string;
  a_service_name : option string;
  a_include_ports : option bool;
  a_include_recent_errors : option bool;
  a_level : option string;
  a_time_range : option string;
  a_filter : option string;
  a_limit : option Z;
  a_validate : option bool;
  a_show_sensitive : option bool;
  a_force : option bool;
  a_port : option Z;
  a_include_patterns : option bool
}.

(** [{ content: [{ type: 'text', text }] }] *)
Definition tool_result (text : string) : jsval :=
  JObj [("content", JArr [JObj [("type", JStr "text"); ("text", JStr text)]])].

(** [`${v || fallback}`] *)
Definition or_text (v : jsval) (fallback : string) : string :=
  if truthy v then ToString v else fallback.

(** [v?.length] *)
Definition opt_length (v : jsval) : jsval :=
  match v with
  | JArr xs => JNum (Z.of_nat (length xs))
  | JStr s => JNum (Z.of_nat (String.length s))
  | JObj _ => get "length" v
  | _ => JUndefined
  end.

(** The string that [join] and a template give for an element of an
    array. *)
Definition element_text (x : jsval) : string :=
  match x with
  | JUndefined | JNull => ""
  | _ => ToString x
  end.

(** [v.join(sep)], which only an array has. *)
Definition join_values (what sep : string) (v : jsval) : M string :=
  match v with
  | JArr xs => ret (join sep (map element_text xs))
  | _ => throw (TypeError (what +:+ ".join is not a function"))
  end.

(** [v.map(x => `  ${x}`).join('\n')], which only an array has. *)
Definition indented_lines (what : string) (v : jsval) : M string :=
  match v with
  | JArr xs => ret (join NL (map (fun x => "  " +:+ ToString x) xs))
  | _ => throw (TypeError (what +:+ ".map is not a function"))
  end.

(** [examples[serviceType] || [...]] of [generateUsageExamples]. For a
    service type that names a member of [Object.prototype] the lookup finds
    that member, which is truthy. *)
Definition serviceExamples (serviceType : string) (port : jsval) : jsval :=
  let p := ToString port in
  let examples :=
    [("web", JArr [JStr ("npm run dev -- --port " +:+ p);
                   JStr ("npm start -- --port " +:+ p);
                   JStr ("yarn dev --port " +:+ p);
                   JStr ("npx vite --port " +:+ p);
                   JStr ("npx webpack serve --port " +:+ p)]);
     ("api", JArr [JStr ("npm run start:dev -- --port " +:+ p);
                   JStr ("node server.js --port " +:+ p);
                   JStr ("npm run api -- --port " +:+ p);
                   JStr ("PORT=" +:+ p +:+ " npm start")]);
     ("storybook", JArr [JStr ("npm run storybook -- --port " +:+ p);
                         JStr ("npx storybook dev --port " +:+ p);
                         JStr ("yarn storybook --port " +:+ p)]);
     ("database", JArr [JStr ("postgresql://localhost:" +:+ p +:+ "/dbname");
                        JStr ("redis://localhost:" +:+ p);
                        JStr ("mongodb://localhost:" +:+ p +:+ "/database")]);
     ("testing", JArr [JStr ("npm test -- --port " +:+ p);
                       JStr ("npx playwright test --port " +:+ p);
                       JStr ("jest --port " +:+ p)])] in
  let found := lookup serviceType examples in
  if truthy found then found
  else JArr [JStr ("service --port " +:+ p); JStr ("PORT=" +:+ p +:+ " npm start")].

(** [generateUsageExamples(serviceType, port)]: [map] and [join] over the
    examples, which only an array has. *)
Definition generateUsageExamples (serviceType : string) (port : jsval) : M string :=
  indented_lines "serviceExamples" (serviceExamples serviceType port).

Section Handlers.
Variable env : Env.
(** [JSON.stringify(v, null, 2)] *)
Variable JSON_stringify_pretty : jsval -> string.
Variable invalid_path_message : jsval -> string.

(** The text of a successful allocation. *)
Definition allocation_text (args : ToolArgs) (duration : string)
    (allocation port : jsval) (usageExamples : string) : string :=
  "🎯 PORT ALLOCATED SUCCESSFULLY!" +:+ NL +:+ NL +:+
  "✅ Port: " +:+ ToString port +:+ NL +:+
  "🔗 URL: http://localhost:" +:+ ToString port +:+ NL +:+
  "⏱️  Duration: " +:+ duration +:+ NL +:+
  "🏷️  Service: " +:+ a_service_type args +:+
    (if truthy (opt_str (a_service_name args))
     then " (" +:+ ToString (opt_str (a_service_name args)) +:+ ")" else "") +:+ NL +:+
  "📁 Project: " +:+ a_project_name args +:+ NL +:+ NL +:+
  "🚀 USAGE EXAMPLES:" +:+ NL +:+ usageExamples +:+ NL +:+ NL +:+
  "🧹 CLEANUP:" +:+ NL +:+ ToString (get "cleanup_command" allocation) +:+ NL +:+ NL +:+
  (if truthy (get "conflict_info" allocation)
   then "⚠️  CONFLICTS AVOIDED:" +:+ NL +:+
        ToString (get "conflict_info" allocation) +:+ NL +:+ NL
   else "") +:+
  (if truthy (get "expires_with_session" allocation)
   then "🔄 This port will be automatically released when your Claude session ends." +:+ NL
   else "") +:+
  NL +:+ "💡 TIP: Use the allocated port in your commands above for conflict-free development!".

(** The text of a failed allocation. *)
Definition allocation_failure_text (error : exn) : string :=
  "❌ Failed to allocate port: " +:+ message error +:+ NL +:+ NL +:+
  "🔧 Troubleshooting:" +:+ NL +:+
  "- Check if styxy daemon is running: styxy status" +:+ NL +:+
  "- Try a different service type or project name" +:+ NL +:+
  "- Use styxy_status tool to check daemon health".

(** [handleAllocatePort(args)] *)
Definition handleAllocatePort (args : ToolArgs) : M jsval :=
  let duration := default "session" (a_duration args) in
  try_catch
    (allocation ← allocatePort env
       {| opt_serviceType := a_service_type args;
          opt_projectName := a_project_name args;
          opt_preferredPort := a_preferred_port args;
          opt_duration := Some duration;
          opt_serviceName := a_service_name args;
          opt_claudeSessionId :=
            Some (or_default (CLAUDE_SESSION_ID env) "unknown") |};
     port ← prop "port" allocation;
     usageExamples ← generateUsageExamples (a_service_type args) port;
     ret (tool_result (allocation_text args duration allocation port usageExamples)))
    (fun error => ret (tool_result (allocation_failure_text error))).

(** The lines of the allocated ports in the status text. *)
Fixpoint port_lines (ports : list jsval) : M (list string) :=
  match ports with
  | [] => ret []
  | p :: rest =>
      port ← prop "port" p;
      line ← ret ("  " +:+ ToString port +:+ " - " +:+
                  ToString (get "service_type" p) +:+ " (" +:+
                  ToString (get "project_name" p) +:+ ")");
      lines ← port_lines rest;
      ret (line :: lines)
  end.

(** [handleStatus(args)] *)
Definition handleStatus (args : ToolArgs) : M jsval :=
  status ← getStatus env (a_include_ports args) (a_include_recent_errors args);
  daemon_running ← prop "daemon_running" status;
  let active_ports := get "active_ports" status in
  let recent_errors := get "recent_errors" status in
  ports_section ←
    (if truthy (opt_length active_ports)
     then match active_ports with
          | JArr ports =>
              lines ← port_lines ports;
              ret ("📋 ALLOCATED PORTS:" +:+ NL +:+ join NL lines +:+ NL +:+ NL)
          | _ => throw (TypeError "status.active_ports.map is not a function")
          end
     else ret "");
  errors_section ←
    (if truthy (opt_length recent_errors)
     then match recent_errors with
          | JArr errors =>
              ret ("⚠️  RECENT ERRORS:" +:+ NL +:+
                   join NL (map (fun err => "  " +:+ ToString err) (firstn 3 errors))
                   +:+ NL +:+ NL)
          | JStr _ =>
              throw (TypeError "status.recent_errors.slice(...).map is not a function")
          | _ => throw (TypeError "status.recent_errors.slice is not a function")
          end
     else ret "");
  ret (tool_result
         ("📊 STYXY DAEMON STATUS" +:+ NL +:+ NL +:+
          "🟢 Status: " +:+
            (if truthy daemon_running then "Running" else "❌ Not Running") +:+ NL +:+
          "🏠 PID: " +:+ or_text (get "pid" status) "N/A" +:+ NL +:+
          "⏰ Uptime: " +:+ or_text (get "uptime" status) "N/A" +:+ NL +:+
          "🔌 Active Ports: " +:+ or_text (opt_length active_ports) "0" +:+ NL +:+ NL +:+
          ports_section +:+
          errors_section +:+
          "🔧 Config Path: " +:+ or_text (get "config_path" status) "N/A" +:+ NL +:+
          "📄 Log Path: " +:+ or_text (get "log_path" status) "N/A")).

(** [handleLogs(args)] *)
Definition handleLogs (args : ToolArgs) : M jsval :=
  logs ← getLogs env invalid_path_message
           {| lo_level := a_level args; lo_time_range := a_time_range args;
              lo_filter := a_filter args; lo_limit := a_limit args |};
  entries ← prop "entries" logs;
  entries_text ←
    (if truthy (opt_length entries)
     then join_values "logs.entries" NL entries
     else ret "No log entries found");
  ret (tool_result
         ("📄 STYXY DAEMON LOGS (" +:+ or_default (a_time_range args) "1h" +:+ ")" +:+
          NL +:+ NL +:+
          entries_text +:+ NL +:+ NL +:+
          "📊 Summary: " +:+ or_text (get "summary" logs) "No summary available")).

(** [handleConfig(args)] *)
Definition handleConfig (args : ToolArgs) : M jsval :=
  cfg ← getConfig env (stack_depth env)
          {| validate := default false (a_validate args);
             show_sensitive := default false (a_show_sensitive args) |};
  validation_errors ← prop "validation_errors" cfg;
  validation_text ←
    (if truthy (opt_length validation_errors)
     then errors ← join_values "config.validation_errors" NL validation_errors;
          ret ("❌ VALIDATION ERRORS:" +:+ NL +:+ errors +:+ NL +:+ NL)
     else ret ("✅ Configuration is valid" +:+ NL +:+ NL));
  ret (tool_result
         ("⚙️  STYXY CONFIGURATION" +:+ NL +:+ NL +:+
          JSON_stringify_pretty cfg +:+ NL +:+ NL +:+
          validation_text +:+
          "🔧 To modify config: Edit " +:+
            or_text (get "config_path" cfg) "styxy config file")).

(** [handleCleanup(args)] *)
Definition handleCleanup (args : ToolArgs) : M jsval :=
  result ← cleanup env (a_force args) (a_port args);
  released_ports ← prop "released_ports" result;
  released_text ←
    (if truthy (opt_length released_ports)
     then lines ← indented_lines "result.released_ports" released_ports;
          ret ("📋 Released Ports:" +:+ NL +:+ lines +:+ NL +:+ NL)
     else ret "");
  errors_text ←
    (if truthy (opt_length (get "errors" result))
     then errors ← join_values "result.errors" NL (get "errors" result);
          ret ("⚠️  Errors:" +:+ NL +:+ errors +:+ NL +:+ NL)
     else ret "");
  ret (tool_result
         ("🧹 CLEANUP COMPLETED" +:+ NL +:+ NL +:+
          "✅ Released: " +:+ or_text (opt_length released_ports) "0" +:+ " ports" +:+ NL +:+
          released_text +:+
          errors_text +:+
          "💡 Use styxy_status to verify cleanup results")).

(** [handleMetrics(args)] *)
Definition handleMetrics (args : ToolArgs) : M jsval :=
  metrics ← getMetrics env (a_time_range args) (a_include_patterns args);
  total_allocations ← prop "total_allocations" metrics;
  patterns_text ←
    (if truthy (opt_length (get "port_patterns" metrics))
     then lines ← indented_lines "metrics.port_patterns" (get "port_patterns" metrics);
          ret ("🎯 PORT USAGE PATTERNS:" +:+ NL +:+ lines +:+ NL +:+ NL)
     else ret "");
  recommendations_text ←
    (if truthy (opt_length (get "recommendations" metrics))
     then lines ← indented_lines "metrics.recommendations" (get "recommendations" metrics);
          ret ("💡 RECOMMENDATIONS:" +:+ NL +:+ lines +:+ NL +:+ NL)
     else ret "");
  ret (tool_result
         ("📊 STYXY USAGE METRICS (" +:+ or_default (a_time_range args) "24h" +:+ ")" +:+
          NL +:+ NL +:+
          "🔢 Total Allocations: " +:+ or_text total_allocations "0" +:+ NL +:+
          "⚡ Active Allocations: " +:+ or_text (get "active_allocations" metrics) "0" +:+ NL +:+
          "🏆 Most Used Service: " +:+ or_text (get "top_service_type" metrics) "N/A" +:+ NL +:+
          "📁 Most Active Project: " +:+ or_text (get "top_project" metrics) "N/A" +:+
          NL +:+ NL +:+
          patterns_text +:+
          recommendations_text)).

(** The handler of [CallToolRequestSchema]: the tool is chosen by its
    name, and whatever a handler throws becomes a text. *)
Definition callTool (name : string) (args : ToolArgs) : M jsval :=
  try_catch
    (if String.eqb name "styxy_allocate_port" then handleAllocatePort args
     else if String.eqb name "styxy_status" then handleStatus args
     else if String.eqb name "styxy_logs" then handleLogs args
     else if String.eqb name "styxy_config" then handleConfig args
     else if String.eqb name "styxy_cleanup" then handleCleanup args
     else if String.eqb name "styxy_metrics" then handleMetrics args
     else throw (Error ("Unknown tool: " +:+ name)))
    (fun error =>
       ret (tool_result ("Error executing " +:+ name +:+ ": " +:+ message error))).

End Handlers.

(** The text of a tool result. *)
Definition result_text (r : jsval) : jsval :=
  match get "content" r with
  | JArr (item :: _) => get "text" item
  | _ => JUndefined
  end.

End Server.

(** ** [index.js]: the start of the process *)

Module Startup.
Import Singleton.

(** How the start ends: with [process.exit(code)], or with the server
    running. *)
Inductive ending : Type :=
| Exited (code : Z)
| Running.

(** What the start prints with [console.error], without the error object
    of a failed [run()]. *)
Definition already_running : list string :=
  ["[Singleton] Another styxy-mcp-server instance is already running";
   "[Singleton] This instance will exit to prevent conflicts"].

Definition existing_instance (lockInfo : jsval) : string :=
  "[Singleton] Existing instance: PID " +:+ ToString (get "pid" lockInfo) +:+
  ", started " +:+ ToString (get "started" lockInfo).

Definition starting_server : string :=
  "[Singleton] Singleton lock acquired, starting server...".

(** The handlers of [exit] that [setupCleanupHandlers] installed: each
    calls [release()]. None is installed unless [acquire()] answered
    [true]. *)
Fixpoint exit_handlers (env : Env) (n : nat) (this : Lock) (w : World)
  : Lock * World :=
  match n with
  | O => (this, w)
  | S n' => let '(this1, w1) := release env this w in exit_handlers env n' this1 w1
  end.

(** The statements at the end of the module. [run_rejects] says whether
    the promise of [server.run()] rejects. The result is the ending, the
    lines printed, the lock object and the host. *)
Definition main (env : Env) (run_rejects : bool) (w : World)
  : ending * list string * Lock * World :=
  let singletonLock := new_lock env "styxy-mcp-server" in
  let '(ok, lock1, w1) := acquire env singletonLock w in
  if negb ok then
    let '(lockInfo, w2) := getLockInfo env lock1 w1 in
    let lines :=
      (already_running ++
       (if truthy lockInfo then [existing_instance lockInfo] else []))%list in
    let '(lock3, w3) :=
      exit_handlers env (handler_sets w2 - handler_sets w) lock1 w2 in
    (Exited 1, lines, lock3, w3)
  else if run_rejects then
    let '(lock2, w2) := release env lock1 w1 in
    let '(lock3, w3) :=
      exit_handlers env (handler_sets w2 - handler_sets w) lock2 w2 in
    (Exited 1, [starting_server; "Server error:"], lock3, w3)
  else
    (Running, [starting_server; "Styxy MCP server running on stdio"], lock1, w1).

End Startup.

(** ** The words of the specification *)

Module Spec.

(** [sub] occurs in [s]. *)
Definition contains (sub s : string) : Prop :=
  exists before after, s = before +:+ sub +:+ after.

Fixpoint all_digits (s : string) : bool :=
  match s with
  | String c s' => is_digit c && all_digits s'
  | EmptyString => true
  end.

Fixpoint no_digit (s : string) : bool :=
  match s with
  | String c s' => negb (is_digit c) && no_digit s'
  | EmptyString => true
  end.

(** [s] is empty or starts with a character that is not a digit. *)
Definition ends_digit_run (s : string) : bool :=
  match s with
  | String c _ => negb (is_digit c)
  | EmptyString => true
  end.

(** The integer that a string of decimal digits denotes. *)
Fixpoint decimal_value (ds : string) : Z :=
  match ds with
  | String c ds' =>
      digit_value c * 10 ^ Z.of_nat (String.length ds') + decimal_value ds'
  | EmptyString => 0
  end.

(** [ds] is the first maximal run of digits of [line]. *)
Definition first_digit_run (line ds : string) : Prop :=
  exists before after,
    line = before +:+ ds +:+ after /\
    no_digit before = true /\
    all_digits ds = true /\ ds <> "" /\
    ends_digit_run after = true.

(** [text] holds a release: the marker [Released port ] followed by a
    digit. *)
Definition holds_release (text : string) : Prop :=
  exists before d after,
    text = before +:+ "Released port " +:+ String d after /\ is_digit d = true.

(** The text of a cleanup output: [head], then for each row the marker,
    the digits of a port and the text that follows them. Every output
    reads this way, [head] and the texts of the rows being what stands
    between the releases. *)
Fixpoint report_rows (rows : list (string * string)) : string :=
  match rows with
  | (ds, text) :: rows' => "Released port " +:+ ds +:+ text +:+ report_rows rows'
  | [] => ""
  end.

Definition cleanup_report (head : string) (rows : list (string * string)) : string :=
  head +:+ report_rows rows.

(** The digits of a row are all the digits that follow its marker, and its
    text holds no release. *)
Definition well_formed_rows (rows : list (string * string)) : Prop :=
  Forall (fun row => all_digits row.1 = true /\ row.1 <> "" /\
                     ends_digit_run row.2 = true /\ ~ holds_release row.2) rows.

(** The field sets of the results of the command-line fallback. *)
Definition allocate_fields : list string :=
  ["allocated_port"; "service_url"; "cleanup_command"; "duration";
   "expires_with_session"; "usage_example"; "raw_output"].
Definition status_text_fields : list string :=
  ["daemon_running"; "pid"; "uptime"; "active_ports"; "config_path";
   "log_path"; "raw_output"].
Definition status_degraded_fields : list string :=
  ["daemon_running"; "error"; "active_ports"; "recent_errors"].
Definition cleanup_ok_fields : list string := ["released_ports"; "raw_output"].
Definition cleanup_failed_fields : list string :=
  ["released_ports"; "errors"; "raw_output"].

(** Which of its three returns [cliGetStatus] takes: the parsed output of
    [styxy status --json], the parse of the plain-text output, or the
    degraded result. *)
Inductive status_path : Type :=
| Structured (v : jsval)
| PlainText
| Degraded.

Definition status_path_of (env : Client.Env) : status_path :=
  let plain := match Client.exec env "styxy status" with
               | Client.ExecOk _ => PlainText
               | Client.ExecFailed _ _ => Degraded
               end in
  match Client.exec env "styxy status --json" with
  | Client.ExecOk stdout =>
      match Client.JSON_parse env stdout with
      | Some v => Structured v
      | None => plain
      end
  | Client.ExecFailed _ _ => plain
  end.

(** The commands that a trace hands to the fallback translator. *)
Definition fallback_calls (t : list Client.event) : list Client.Command :=
  flat_map (fun ev => match ev with
                      | Client.EvFallback c => [c]
                      | _ => []
                      end) t.

End Spec.

(** ** Notions that the statements and proofs share *)

Module Aux.
Import Client Spec.

(** A computation is quiet when it leaves the client as it is and never
    enters the fallback translator. *)
Definition quiet {A} (m : M A) : Prop :=
  forall w, this (m w).2 = this w /\
            fallback_calls (trace (m w).2) = fallback_calls (trace w).

(** The world in which the translator runs a command. *)
Definition entered (c : Command) (w : World) : World :=
  {| this := this w; trace := trace w ++ [EvFallback c] |}.

(** The result of [cliGetStatus] when both invocations failed, the second
    with message [m]. *)
Definition degraded_status (m : string) : jsval :=
  JObj [("daemon_running", JBool false);
        ("error", JStr ("Status check failed: " +:+ m));
        ("active_ports", JArr []);
        ("recent_errors", JArr [JStr ("CLI error: " +:+ m)])].

Definition marker : string := "Released port ".

(** The test that [match_all_released] makes at a position. *)
Definition released_here (s : string) : bool :=
  String.prefix marker s &&
  negb (String.eqb (take_while is_digit (drop 14 s)) "").

(** Unfolds the monad in a goal or in a hypothesis. *)
Ltac mrun :=
  cbv [mbind M_bind bind mret M_ret ret throw try_catch settled emit get_this
       set_this set_config execAsync fs_readFile JSON_parse_m].
Tactic Notation "mrun" "in" hyp(H) :=
  cbv [mbind M_bind bind mret M_ret ret throw try_catch settled emit get_this
       set_this set_config execAsync fs_readFile JSON_parse_m] in H.


End Aux.

(** ** Runs of several calls *)

Module Scenarios.

(** [n] rounds of [acquire()] followed by [release()]. *)
Fixpoint rounds (env : Singleton.Env) (n : nat)
    (this : Singleton.Lock) (w : Singleton.World)
  : Singleton.Lock * Singleton.World :=
  match n with
  | O => (this, w)
  | S n' =>
      let '(_, this1, w1) := Singleton.acquire env this w in
      let '(this2, w2) := Singleton.release env this1 w1 in
      rounds env n' this2 w2
  end.

(** An event of the socket. *)
Definition is_socket_event (ev : Client.event) : bool :=
  match ev with
  | Client.EvConnect _ | Client.EvDestroy | Client.EvWrite _ => true
  | _ => false
  end.

(** A computation is offline when it leaves the client as it is and adds
    no event of the socket to the trace. *)
Definition offline {A} (m : Client.M A) : Prop :=
  forall w,
    Client.this (m w).2 = Client.this w /\
    exists evs, Client.trace (m w).2 = (Client.trace w ++ evs)%list /\
                Forall (fun ev => is_socket_event ev = false) evs.

(** The bytes of the chunks, in order. *)
Fixpoint concat_chunks (chunks : list string) : string :=
  match chunks with
  | [] => ""
  | chunk :: rest => chunk +:+ concat_chunks rest
  end.

(** What [readLogFiles] answers when [getConfig] has overflowed the
    stack. *)
Definition logs_unavailable : jsval :=
  JObj [("entries", JArr []);
        ("summary",
         JStr "Could not read log files: Maximum call stack size exceeded")].


(** The socket of the client is open. *)
Definition socket_open (w : Client.World) : Prop :=
  Client.daemonSocket (Client.this w) = Some {| Client.readyState := Client.Open |}.

(** The configuration files that [loadDefaultConfig] tries, in order. *)
Definition config_candidates (env : Client.Env) : list string :=
  [path_join [Client.os_homedir env; ".styxy"; "config.json"];
   path_join [Client.os_homedir env; ".config"; "styxy"; "config.json"];
   "/etc/styxy/config.json"].

(** What a configuration file gives when it can be read and parsed. *)
Definition load (env : Client.Env) (path : string) : option jsval :=
  match Client.readFile env path with
  | Client.Resolved content => Client.JSON_parse env content
  | Client.Rejected _ => None
  end.

(** The configuration that [loadDefaultConfig] makes up when no file
    loads. *)
Definition made_up_config (env : Client.Env) : jsval :=
  JObj [("daemon",
         JObj [("socket_path", JStr (Client.default_socket_path env));
               ("port_range", JObj [("start", JNum 3000); ("end", JNum 9999)])]);
        ("config_path", JStr "not found")].

(** Every character of [s] is a blank. *)
Fixpoint all_blank (s : string) : bool :=
  match s with
  | String c s' => is_space c && all_blank s'
  | EmptyString => true
  end.

(** [s] holds no line terminator. *)
Fixpoint one_line (s : string) : bool :=
  match s with
  | String c s' => negb (is_line_terminator c) && one_line s'
  | EmptyString => true
  end.

(** The character [c] does not occur in [s]. *)
Fixpoint no_char (c : ascii) (s : string) : bool :=
  match s with
  | String c' s' => negb (Ascii.eqb c c') && no_char c s'
  | EmptyString => true
  end.

(** The text of the lines, each followed by a line feed. *)
Fixpoint lines_text (lines : list string) : string :=
  match lines with
  | line :: rest => line +:+ NL +:+ lines_text rest
  | [] => ""
  end.

Fixpoint last_char (s : string) : option ascii :=
  match s with
  | EmptyString => None
  | String c EmptyString => Some c
  | String _ s' => last_char s'
  end.

(** [body] is [stdout] without the blanks at its two ends. *)
Definition trimmed (stdout body : string) : Prop :=
  exists lead trail,
    stdout = lead +:+ body +:+ trail /\
    all_blank lead = true /\ all_blank trail = true /\
    match body with String c _ => is_space c = false | EmptyString => True end /\
    match last_char body with Some c => is_space c = false | None => True end.

(** [line] is the first line of the trimmed output that contains the
    marker: the lines [earlier] stand before it and do not contain it, and
    either the output ends with [line] or a line feed follows. *)
Definition first_marked_line (marker stdout line : string) : Prop :=
  exists body earlier rest,
    trimmed stdout body /\
    body = lines_text earlier +:+ line +:+ rest /\
    Forall (fun l => no_char LF l = true /\ ~ Spec.contains marker l) earlier /\
    no_char LF line = true /\ Spec.contains marker line /\
    (rest = "" \/ exists more, rest = NL +:+ more).

(** An entry of [active_ports] as [extractPorts] builds it. *)
Definition port_entry (n : Z) (description : string) : jsval :=
  JObj [("port", JNum n); ("description", JStr description)].

(** The names of the tools that the dispatcher knows. *)
Definition tool_names : list string :=
  ["styxy_allocate_port"; "styxy_status"; "styxy_logs"; "styxy_config";
   "styxy_cleanup"; "styxy_metrics"].

(** Whatever the computation resolves with is a tool result that holds
    one text. *)
Definition answers_text (m : Client.M jsval) : Prop :=
  forall w r w', m w = (Client.Resolved r, w') ->
                 exists text, r = Server.tool_result text.

(** The line of the status text for an entry of [active_ports] that has a
    [port] but neither a [service_type] nor a [project_name]. *)
Definition port_row_text (e : jsval) : string :=
  "  " +:+ ToString (get "port" e) +:+ " - undefined (undefined)".





End Scenarios.

(** ** Concrete environments, for the examples *)

Module Demo.

Definition quoted (s : string) : string :=
  String DQUOTE s +:+ String DQUOTE "".

Definition stringify_scalar (v : jsval) : string :=
  match v with
  | JStr s => quoted s
  | JNum n => toString n
  | JBool true => "true"
  | JBool false => "false"
  | _ => "null"
  end.

(** [JSON.stringify(v, null, 2)] on an object of strings and numbers that
    need no escaping. *)
Definition JSON_stringify (v : jsval) : string :=
  match v with
  | JObj fs =>
      "{" +:+ NL +:+
      join ("," +:+ NL)
           (map (fun kv => "  " +:+ quoted kv.1 +:+ ": " +:+ stringify_scalar kv.2) fs)
      +:+ NL +:+ "}"
  | _ => stringify_scalar v
  end.

Definition not_quote (c : ascii) : bool := negb (Ascii.eqb c DQUOTE).

Definition parse_string_literal (s : string) : option (string * string) :=
  match s with
  | String c s' =>
      if Ascii.eqb c DQUOTE
      then match drop_while not_quote s' with
           | String _ rest => Some (take_while not_quote s', rest)
           | EmptyString => None
           end
      else None
  | EmptyString => None
  end.

Definition parse_scalar (s : string) : option (jsval * string) :=
  match s with
  | String c _ =>
      if Ascii.eqb c DQUOTE
      then match parse_string_literal s with
           | Some (body, rest) => Some (JStr body, rest)
           | None => None
           end
      else if is_digit c
      then Some (JNum (parse_digits 0 s), drop_while is_digit s)
      else None
  | EmptyString => None
  end.

Fixpoint parse_members (fuel : nat) (s : string) : option (list (string * jsval)) :=
  match fuel with
  | O => None
  | S fuel' =>
      match parse_string_literal (trimStart s) with
      | Some (k, r1) =>
          match trimStart r1 with
          | String ":" r2 =>
              match parse_scalar (trimStart r2) with
              | Some (v, r3) =>
                  match trimStart r3 with
                  | String "," r4 =>
                      match parse_members fuel' r4 with
                      | Some fs => Some ((k, v) :: fs)
                      | None => None
                      end
                  | String "}" r4 =>
                      if String.eqb (trimStart r4) "" then Some [(k, v)] else None
                  | _ => None
                  end
              | None => None
              end
          | _ => None
          end
      | None => None
      end
  end.

(** [JSON.parse] on the texts that [JSON_stringify] writes. *)
Definition JSON_parse (s : string) : option jsval :=
  match trimStart s with
  | String "{" r =>
      match parse_members (String.length s) r with
      | Some fs => Some (JObj fs)
      | None => None
      end
  | _ => None
  end.

(** A host on which no file-system call fails and only the process itself,
    4242, is alive. *)
Definition host : Singleton.Env :=
  {| Singleton.os_homedir := "/home/dev";
     Singleton.os_hostname := "devbox";
     Singleton.process_pid := 4242;
     Singleton.process_argv := ["node"; "/srv/styxy/src/index.js"];
     Singleton.now_iso := "2025-01-01T00:00:00.000Z";
     Singleton.throws := fun _ _ => false;
     Singleton.write_residue := fun _ => None;
     Singleton.JSON_parse := JSON_parse;
     Singleton.JSON_stringify := JSON_stringify;
     Singleton.process_kill0 :=
       fun v => match v with JNum n => Z.eqb n 4242 | _ => false end |}.

Definition the_lock : Singleton.Lock := Singleton.new_lock host "styxy-mcp-server".

Definition lock_path : string := "/home/dev/.styxy/locks/styxy-mcp-server.lock".

(** A host whose only file is a lock left by process 17, now dead. *)
Definition stale_world : Singleton.World :=
  {| Singleton.files :=
       {[ lock_path :=
            JSON_stringify (JObj [("pid", JNum 17); ("started", JStr "2024");
                                  ("hostname", JStr "devbox");
                                  ("command", JStr "node index.js")]) ]};
     Singleton.dirs := ∅;
     Singleton.calls := [];
     Singleton.console := [];
     Singleton.handler_sets := 0 |}.

Definition empty_world : Singleton.World :=
  {| Singleton.files := ∅; Singleton.dirs := ∅; Singleton.calls := [];
     Singleton.console := []; Singleton.handler_sets := 0 |}.

(** A machine on which the [styxy] command line answers as [cli] says, no
    configuration file exists, the daemon accepts connections and sends
    [events]; by default it sends an opening brace and stays silent. *)
Definition machine_with (cli : string -> Client.exec_result)
    (events : list Client.socket_event) : Client.Env :=
  {| Client.os_homedir := "/home/dev";
     Client.exec := cli;
     Client.readFile := fun _ => Client.Rejected (Client.Error "ENOENT: no such file or directory");
     Client.JSON_parse := JSON_parse;
     Client.JSON_stringify := JSON_stringify;
     Client.connect := fun _ => Client.Connect;
     Client.socket_events := events;
     Client.stack_depth := 512;
     Client.process_cwd := "/home/dev/demo";
     Client.now_iso := "2025-01-01T00:00:00.000Z";
     Client.CLAUDE_SESSION_ID := None |}.

Definition machine (cli : string -> Client.exec_result) : Client.Env :=
  machine_with cli [Client.Data "{"].

(** The answer of a daemon to a status command, in two chunks. *)
Definition daemon_answer : list Client.socket_event :=
  [Client.Data ("{ " +:+ quoted "daemon_running" +:+ ": 1, ");
   Client.Data (quoted "pid" +:+ ": 812 }" +:+ NL)].

Definition cli_missing (cmd : string) : Client.exec_result :=
  Client.ExecFailed ("Command failed: " +:+ cmd) "".

(** The command line prints a port for [allocate], two released ports for
    [cleanup], a plain-text status, and knows no [--json] flag. *)
Definition cli_working (cmd : string) : Client.exec_result :=
  if String.prefix "styxy allocate" cmd then
    Client.ExecOk ("Allocating a port for demo" +:+ NL +:+ "Port: 3042" +:+ NL)
  else if String.prefix "styxy cleanup" cmd then
    Client.ExecOk ("Cleaning up" +:+ NL +:+ "Released port 3000" +:+ NL +:+
                   "Released port 3001" +:+ NL)
  else if String.eqb cmd "styxy status" then
    Client.ExecOk ("Daemon is up" +:+ NL +:+ "PID: 812" +:+ NL +:+
                   "3042 - web (demo)" +:+ NL)
  else cli_missing cmd.

Definition fresh : Client.World :=
  {| Client.this := Client.new_client; Client.trace := [] |}.

(** A client whose [daemonSocket] is open. *)
Definition connected : Client.World :=
  {| Client.this := {| Client.daemonSocket := Some {| Client.readyState := Client.Open |};
                       Client.config := JNull |};
     Client.trace := [] |}.

Definition web_demo : Client.AllocateOptions :=
  {| Client.opt_serviceType := "web";
     Client.opt_projectName := "demo";
     Client.opt_preferredPort := None;
     Client.opt_duration := None;
     Client.opt_serviceName := None;
     Client.opt_claudeSessionId := None |}.

(** A host whose lock file names process 4242, which is alive. *)
Definition held_world : Singleton.World :=
  {| Singleton.files :=
       {[ lock_path :=
            JSON_stringify (JObj [("pid", JNum 4242); ("started", JStr "2024");
                                  ("hostname", JStr "devbox");
                                  ("command", JStr "node index.js")]) ]};
     Singleton.dirs := ∅;
     Singleton.calls := [];
     Singleton.console := [];
     Singleton.handler_sets := 0 |}.

(** The demonstration host with a lock directory in which nothing can be
    deleted. *)
Definition host_no_unlink : Singleton.Env :=
  {| Singleton.os_homedir := "/home/dev";
     Singleton.os_hostname := "devbox";
     Singleton.process_pid := 4242;
     Singleton.process_argv := ["node"; "/srv/styxy/src/index.js"];
     Singleton.now_iso := "2025-01-01T00:00:00.000Z";
     Singleton.throws :=
       fun call _ => match call with Singleton.UnlinkSync => true | _ => false end;
     Singleton.write_residue := fun _ => None;
     Singleton.JSON_parse := JSON_parse;
     Singleton.JSON_stringify := JSON_stringify;
     Singleton.process_kill0 :=
       fun v => match v with JNum n => Z.eqb n 4242 | _ => false end |}.

(** The arguments of a tool call that names a web service of the project
    [demo] and nothing else. *)
Definition web_args : Server.ToolArgs :=
  {| Server.a_service_type := "web";
     Server.a_project_name := "demo";
     Server.a_preferred_port := None;
     Server.a_duration := None;
     Server.a_service_name := None;
     Server.a_include_ports := None;
     Server.a_include_recent_errors := None;
     Server.a_level := None;
     Server.a_time_range := None;
     Server.a_filter := None;
     Server.a_limit := None;
     Server.a_validate := None;
     Server.a_show_sensitive := None;
     Server.a_force := None;
     Server.a_port := None;
     Server.a_include_patterns := None |}.

Definition path_message (v : jsval) : string :=
  "The path argument must be of type string".

(** The demonstration host with a full disk: the lock file can be created
    but not written. *)
Definition host_disk_full : Singleton.Env :=
  {| Singleton.os_homedir := "/home/dev";
     Singleton.os_hostname := "devbox";
     Singleton.process_pid := 4242;
     Singleton.process_argv := ["node"; "/srv/styxy/src/index.js"];
     Singleton.now_iso := "2025-01-01T00:00:00.000Z";
     Singleton.throws :=
       fun call _ => match call with Singleton.WriteFileSync => true | _ => false end;
     Singleton.write_residue := fun _ => Some "";
     Singleton.JSON_parse := JSON_parse;
     Singleton.JSON_stringify := JSON_stringify;
     Singleton.process_kill0 :=
       fun v => match v with JNum n => Z.eqb n 4242 | _ => false end |}.

(** The demonstration host on which the lock file cannot be opened for
    writing. *)
Definition host_read_only : Singleton.Env :=
  {| Singleton.os_homedir := "/home/dev";
     Singleton.os_hostname := "devbox";
     Singleton.process_pid := 4242;
     Singleton.process_argv := ["node"; "/srv/styxy/src/index.js"];
     Singleton.now_iso := "2025-01-01T00:00:00.000Z";
     Singleton.throws :=
       fun call _ => match call with Singleton.WriteFileSync => true | _ => false end;
     Singleton.write_residue := fun _ => None;
     Singleton.JSON_parse := JSON_parse;
     Singleton.JSON_stringify := JSON_stringify;
     Singleton.process_kill0 :=
       fun v => match v with JNum n => Z.eqb n 4242 | _ => false end |}.

(** The demonstration host on which the lock directory cannot be
    created. *)
Definition host_no_mkdir : Singleton.Env :=
  {| Singleton.os_homedir := "/home/dev";
     Singleton.os_hostname := "devbox";
     Singleton.process_pid := 4242;
     Singleton.process_argv := ["node"; "/srv/styxy/src/index.js"];
     Singleton.now_iso := "2025-01-01T00:00:00.000Z";
     Singleton.throws :=
       fun call _ => match call with Singleton.MkdirSync => true | _ => false end;
     Singleton.write_residue := fun _ => None;
     Singleton.JSON_parse := JSON_parse;
     Singleton.JSON_stringify := JSON_stringify;
     Singleton.process_kill0 :=
       fun v => match v with JNum n => Z.eqb n 4242 | _ => false end |}.

End Demo.

(** * Properties *)

(** ** Strings *)

#[local] Arguments String.append !s1 s2 : simpl nomatch.

Module StringFacts.
Import Spec.

Lemma append_assoc (a b c : string) : (a +:+ b) +:+ c = a +:+ (b +:+ c).
Proof. induction a as [|x a IH]; simpl; congruence. Qed.

Lemma append_nil_r (a : string) : a +:+ "" = a.
Proof. induction a as [|x a IH]; simpl; congruence. Qed.

Lemma length_append (a b : string) :
  String.length (a +:+ b) = (String.length a + String.length b)%nat.
Proof. induction a as [|x a IH]; simpl; congruence. Qed.

Lemma prefix_spec (a s : string) :
  String.prefix a s = true <-> exists rest, s = a +:+ rest.
Proof.
  revert s. induction a as [|x a IH]; intros s.
  - split; [intros _; now exists s | intros _; destruct s; reflexivity].
  - destruct s as [|y s]; simpl.
    + split; [discriminate | intros [rest H]; discriminate].
    + destruct (ascii_dec x y) as [->|Hne].
      * rewrite IH. split; intros [rest H]; exists rest; congruence.
      * split; [discriminate | intros [rest H]; congruence].
Qed.

Lemma includes_spec (sub s : string) :
  includes sub s = true <-> contains sub s.
Proof.
  unfold contains. induction s as [|c s IH].
  - cbn [includes]. rewrite orb_false_r, prefix_spec. split.
    + intros [rest H]. exists "", rest. exact H.
    + intros (before & after & H). destruct before; [|discriminate].
      exists after. exact H.
  - cbn [includes]. rewrite orb_true_iff, prefix_spec, IH. split.
    + intros [[rest H]|(before & after & H)].
      * exists "", rest. exact H.
      * exists (String c before), after. simpl. now rewrite H.
    + intros (before & after & H). destruct before as [|c' before].
      * left. exists after. exact H.
      * right. exists before, after. simpl in H. congruence.
Qed.

Lemma includes_false (sub s : string) :
  includes sub s = false <-> ~ contains sub s.
Proof.
  rewrite <- includes_spec. destruct (includes sub s); split; intros H;
    try reflexivity; try discriminate; try (intros ?; discriminate).
  exfalso. now apply H.
Qed.

Lemma take_while_digits (ds rest : string) :
  all_digits ds = true -> ends_digit_run rest = true ->
  take_while is_digit (ds +:+ rest) = ds.
Proof.
  intros Hds Hrest. induction ds as [|c ds IH]; simpl in *.
  - destruct rest as [|c rest]; [reflexivity|]. simpl in Hrest.
    simpl. destruct (is_digit c); [discriminate | reflexivity].
  - apply andb_true_iff in Hds as [Hc Hds]. rewrite Hc, IH by assumption.
    reflexivity.
Qed.

Lemma drop_while_digits (ds rest : string) :
  all_digits ds = true -> ends_digit_run rest = true ->
  drop_while is_digit (ds +:+ rest) = rest.
Proof.
  intros Hds Hrest. induction ds as [|c ds IH]; simpl in *.
  - destruct rest as [|c rest]; [reflexivity|]. simpl in Hrest.
    simpl. destruct (is_digit c); [discriminate | reflexivity].
  - apply andb_true_iff in Hds as [Hc Hds]. rewrite Hc. now apply IH.
Qed.

Lemma parse_digits_run (ds rest : string) (acc : Z) :
  all_digits ds = true -> ends_digit_run rest = true ->
  parse_digits acc (ds +:+ rest) =
  acc * 10 ^ Z.of_nat (String.length ds) + decimal_value ds.
Proof.
  intros Hds Hrest. revert acc. induction ds as [|c ds IH]; intros acc.
  - simpl. destruct rest as [|c rest]; simpl; [lia|].
    simpl in Hrest. destruct (is_digit c); [discriminate | lia].
  - simpl in Hds. apply andb_true_iff in Hds as [Hc Hds].
    cbn [String.append parse_digits decimal_value String.length]. rewrite Hc, IH by assumption.
    rewrite Nat2Z.inj_succ, Z.pow_succ_r by lia. ring.
Qed.

Lemma to_double_safe (n : Z) : n < safe_bound -> to_double n = n.
Proof.
  intros H. unfold to_double. now rewrite (proj2 (Z.ltb_lt n safe_bound) H).
Qed.

Lemma parseInt_rounds (ds : string) :
  all_digits ds = true -> ds <> "" ->
  parseInt ds = JNum (to_double (decimal_value ds)).
Proof.
  intros Hds Hne. destruct ds as [|c ds]; [congruence|].
  unfold parseInt. pose proof Hds as Hc. simpl in Hc.
  apply andb_true_iff in Hc as [Hc _]. rewrite Hc.
  rewrite <- (append_nil_r (String c ds)) at 1.
  rewrite parse_digits_run by (assumption || reflexivity).
  do 2 f_equal; lia.
Qed.

Lemma parseInt_digits (ds : string) :
  all_digits ds = true -> ds <> "" -> decimal_value ds < safe_bound ->
  parseInt ds = JNum (decimal_value ds).
Proof.
  intros Hds Hne Hsafe. rewrite parseInt_rounds by assumption.
  now rewrite to_double_safe.
Qed.

Lemma match_digits_run (before ds after : string) :
  no_digit before = true -> all_digits ds = true -> ds <> "" ->
  ends_digit_run after = true ->
  match_digits (before +:+ ds +:+ after) = Some ds.
Proof.
  intros Hb Hds Hne Ha. induction before as [|c before IH]; simpl in *.
  - destruct ds as [|c ds]; [congruence|]. simpl in *.
    apply andb_true_iff in Hds as [Hc Hds]. rewrite Hc.
    now rewrite take_while_digits.
  - apply andb_true_iff in Hb as [Hc Hb]. apply negb_true_iff in Hc.
    rewrite Hc. now apply IH.
Qed.

Lemma match_digits_none (s : string) :
  no_digit s = true -> match_digits s = None.
Proof.
  induction s as [|c s IH]; simpl; [reflexivity|].
  intros H. apply andb_true_iff in H as [Hc Hs]. apply negb_true_iff in Hc.
  rewrite Hc. now apply IH.
Qed.

Example includes_ex : includes "Port:" "Allocated Port: 3042" = true.
Proof. reflexivity. Qed.

Example split_lines_ex : split NL ("a" +:+ NL +:+ NL +:+ "b") = ["a"; ""; "b"].
Proof. reflexivity. Qed.

Example split_separator_ex : split "ab" "xabyabab" = ["x"; "y"; ""; ""].
Proof. reflexivity. Qed.

Example trim_ex : trim ("  a b " +:+ NL) = "a b".
Proof. reflexivity. Qed.

Example match_digits_ex : match_digits "ab12c34" = Some "12".
Proof. reflexivity. Qed.

Example parseInt_ex : parseInt "0304" = JNum 304.
Proof. reflexivity. Qed.

Example toString_ex : toString 3042 = "3042".
Proof. reflexivity. Qed.

(** *** Reversal, [trim] and [split] *)

Lemma rev_app_rev_app (a b c : string) :
  String.rev_app (String.rev_app a b) c = String.rev_app b (a +:+ c).
Proof.
  revert b c. induction a as [|x a IH]; intros b c; [reflexivity|].
  cbn [String.rev_app String.append]. now rewrite IH.
Qed.

Lemma rev_rev_app (a : string) : String.rev (String.rev_app a "") = a.
Proof.
  unfold String.rev. rewrite rev_app_rev_app. cbn. apply append_nil_r.
Qed.

Lemma rev_app_append (a b : string) :
  String.rev_app a b = String.rev a +:+ b.
Proof.
  unfold String.rev. revert b. induction a as [|x a IH]; intros b; [reflexivity|].
  cbn [String.rev_app]. rewrite IH, (IH (String x "")).
  now rewrite append_assoc.
Qed.

Lemma rev_append (a b : string) :
  String.rev (a +:+ b) = String.rev b +:+ String.rev a.
Proof.
  induction a as [|x a IH].
  - cbn. now rewrite append_nil_r.
  - cbn [String.append]. unfold String.rev in *. cbn [String.rev_app].
    rewrite (rev_app_append (a +:+ b)), (rev_app_append a).
    unfold String.rev. rewrite IH. now rewrite append_assoc.
Qed.

Lemma rev_involutive (a : string) : String.rev (String.rev a) = a.
Proof. apply rev_rev_app. Qed.

Lemma drop_while_all_blank (gap rest : string) :
  Scenarios.all_blank gap = true ->
  drop_while is_space (gap +:+ rest) = drop_while is_space rest.
Proof.
  intros H. induction gap as [|c gap IH]; [reflexivity|]. cbn in *.
  apply andb_true_iff in H as [Hc Hg]. rewrite Hc. now apply IH.
Qed.

Lemma all_blank_rev_app (a b : string) :
  Scenarios.all_blank a = true -> Scenarios.all_blank b = true ->
  Scenarios.all_blank (String.rev_app a b) = true.
Proof.
  revert b. induction a as [|c a IH]; intros b Ha Hb; [exact Hb|].
  cbn in *. apply andb_true_iff in Ha as [Hc Ha]. apply IH; [exact Ha|].
  cbn. now rewrite Hc.
Qed.

Lemma rev_last_char (s : string) (c : ascii) :
  Scenarios.last_char s = Some c -> exists t, String.rev s = String c t.
Proof.
  induction s as [|x s IH]; [discriminate|]. cbn [Scenarios.last_char].
  destruct s as [|y s].
  - intros H. injection H as ->. now exists "".
  - intros H. destruct (IH H) as [t Ht].
    change (String x (String y s)) with (String x "" +:+ String y s).
    rewrite rev_append, Ht. now eexists.
Qed.

Lemma trim_trimmed (stdout body : string) :
  Scenarios.trimmed stdout body -> trim stdout = body.
Proof.
  intros (lead & trail & -> & Hlead & Htrail & Hfirst & Hlast).
  unfold trim, trimStart, trimEnd. rewrite drop_while_all_blank by exact Hlead.
  destruct body as [|c body].
  - cbn [String.append]. rewrite <- (append_nil_r trail) at 1.
    rewrite drop_while_all_blank by exact Htrail. cbn.
    reflexivity.
  - cbn [String.append drop_while]. rewrite Hfirst.
    change (String c (body +:+ trail)) with (String c body +:+ trail).
    rewrite rev_append.
    rewrite drop_while_all_blank
      by (unfold String.rev; now apply all_blank_rev_app).
    destruct (Scenarios.last_char (String c body)) as [d|] eqn:Hd.
    + destruct (rev_last_char _ _ Hd) as [t Ht].
      rewrite Ht. cbn [drop_while]. rewrite Hlast, <- Ht.
      apply rev_involutive.
    + exfalso. clear -Hd. revert c Hd.
      induction body as [|y body IH]; intros c; [discriminate|].
      cbn [Scenarios.last_char]. apply IH.
Qed.

Lemma split_go_skip (sep a s cur : string) :
  split_go sep (String.length a) cur (a +:+ s) = split_go sep 0 cur s.
Proof. induction a as [|c a IH]; [reflexivity | exact IH]. Qed.

Lemma split_go_text (c0 : ascii) (sep' before rest cur : string) :
  Scenarios.no_char c0 before = true ->
  split_go (String c0 sep') 0 cur (before +:+ rest) =
  split_go (String c0 sep') 0 (String.rev_app before cur) rest.
Proof.
  revert cur. induction before as [|c before IH]; intros cur H; [reflexivity|].
  cbn in H. apply andb_true_iff in H as [Hc Hb]. apply negb_true_iff in Hc.
  cbn [String.append split_go String.prefix].
  destruct (ascii_dec c0 c) as [->|_].
  - now rewrite Ascii.eqb_refl in Hc.
  - rewrite IH by exact Hb. reflexivity.
Qed.

Lemma split_go_match (c0 : ascii) (sep' rest cur : string) :
  split_go (String c0 sep') 0 cur (String c0 sep' +:+ rest) =
  String.rev cur :: split_go (String c0 sep') 0 "" rest.
Proof.
  cbn [String.append split_go].
  replace (String.prefix (String c0 sep') (String c0 (sep' +:+ rest))) with true
    by (symmetry; apply prefix_spec; eauto).
  f_equal.
  replace (String.length (String c0 sep') - 1)%nat with (String.length sep')
    by (cbn; lia).
  apply split_go_skip.
Qed.

Lemma split_go_plain (sep value cur : string) :
  includes sep value = false ->
  split_go sep 0 cur value = [String.rev (String.rev_app value cur)].
Proof.
  revert cur. induction value as [|c value IH]; intros cur H; [reflexivity|].
  cbn [includes] in H. apply orb_false_elim in H as [Hp Hv].
  cbn [split_go]. rewrite Hp. rewrite IH by exact Hv. reflexivity.
Qed.

Lemma no_char_includes (c : ascii) (s : string) :
  Scenarios.no_char c s = true -> includes (String c "") s = false.
Proof.
  induction s as [|x s IH]; [reflexivity|]. cbn. intros H.
  apply andb_true_iff in H as [Hx Hs]. apply negb_true_iff in Hx.
  destruct (ascii_dec c x) as [->|_]; [now rewrite Ascii.eqb_refl in Hx|].
  now apply IH.
Qed.

(** The pieces of a text made of lines. *)
Lemma split_lines (earlier : list string) (line rest : string) :
  Forall (fun l => Scenarios.no_char LF l = true) earlier ->
  Scenarios.no_char LF line = true ->
  rest = "" \/ (exists more, rest = NL +:+ more) ->
  exists later,
    split NL (Scenarios.lines_text earlier +:+ line +:+ rest) =
    (earlier ++ line :: later)%list.
Proof.
  intros Hearlier Hline Hrest. unfold split, NL.
  induction Hearlier as [|l earlier Hl _ IH].
  - cbn [Scenarios.lines_text String.append app].
    rewrite split_go_text by exact Hline.
    destruct Hrest as [->|[more ->]].
    + exists []. cbn. now rewrite rev_rev_app.
    + unfold NL. rewrite split_go_match. eexists. now rewrite rev_rev_app.
  - destruct IH as [later IH]. exists later.
    cbn [Scenarios.lines_text app]. rewrite !append_assoc.
    rewrite split_go_text by exact Hl.
    unfold NL. rewrite split_go_match, rev_rev_app. f_equal.
    exact IH.
Qed.

Lemma find_first (p : string -> bool) (earlier later : list string) (line : string) :
  Forall (fun l => p l = false) earlier ->
  p line = true ->
  List.find p (earlier ++ line :: later) = Some line.
Proof.
  intros He Hl. induction He as [|l earlier Hl0 _ IH]; cbn.
  - now rewrite Hl.
  - now rewrite Hl0.
Qed.

(** The line that [cliAllocatePort] and [extractValue] select. *)
Lemma find_first_marked_line (marker stdout line : string) :
  Scenarios.first_marked_line marker stdout line ->
  List.find (includes marker) (split NL (trim stdout)) = Some line.
Proof.
  intros (body & earlier & rest & Htrim & -> & Hearlier & Hline & Hmark & Hrest).
  rewrite (trim_trimmed _ _ Htrim).
  destruct (split_lines earlier line rest) as [later ->];
    [eapply Forall_impl; [exact Hearlier | now intros l [H _]] | assumption ..|].
  apply find_first.
  - eapply Forall_impl; [exact Hearlier|]. intros l [_ H]. now apply includes_false.
  - now apply includes_spec.
Qed.

End StringFacts.

(** ** The singleton lock *)

Module SingletonProps.
Import Singleton.

Section Lock.
Variable env : Env.

Lemma new_lock_pid (name : string) : pid (new_lock env name) = process_pid env.
Proof. reflexivity. Qed.

Lemma existsSync_true (path : string) (w : World) (content : string) :
  files w !! path = Some content -> existsSync path w = true.
Proof.
  intros H. unfold existsSync. apply bool_decide_eq_true. rewrite H. eauto.
Qed.

Lemma existsSync_false (path : string) (w : World) :
  files w !! path = None -> existsSync path w = false.
Proof.
  intros H. unfold existsSync. apply bool_decide_eq_false. rewrite H.
  intros [x Hx]. discriminate.
Qed.

(** A fault in [mkdirSync] or [writeFileSync] makes [acquire] answer
    [false]: the lock is never assumed on an error. *)
Lemma acquire_fails_closed (this : Lock) (w : World) :
  throws env MkdirSync (lockDir this) = true \/
  throws env WriteFileSync (lockFile this) = true ->
  (acquire env this w).1.1 = false.
Proof.
  intros H. unfold acquire, mkdirSync, writeFileSync.
  destruct (throws env MkdirSync (lockDir this)); [reflexivity|].
  destruct H as [H|H]; [discriminate|]. rewrite H.
  destruct (existsSync _ _); [|reflexivity].
  destruct (readLockFile _ _ _) as [lockData w1].
  destruct (truthy lockData && isProcessRunning env (get "pid" lockData));
    reflexivity.
Qed.

(** A lock file that names a live process is left alone. *)
Lemma acquire_live_holder (this : Lock) (w : World) (content : string) (v : jsval) :
  no_faults env ->
  files w !! lockFile this = Some content ->
  JSON_parse env content = Some v ->
  truthy v = true ->
  process_kill0 env (get "pid" v) = true ->
  exists w', acquire env this w = (false, this, w') /\ files w' = files w /\
             console w' = (console w ++ [LogOtherInstance (get "pid" v)])%list.
Proof.
  intros Hio Hf Hp Ht Hk. unfold acquire, mkdirSync.
  rewrite Hio. cbn zeta.
  erewrite existsSync_true by exact Hf.
  unfold readLockFile, readFileSync. rewrite Hio. cbn [files completed].
  rewrite Hf, Hp. simpl (default _ _). unfold isProcessRunning. rewrite Ht, Hk.
  cbn [andb]. eexists. repeat split.
Qed.

End Lock.

(** C4. When a lock file exists whose content does not parse or whose
    recorded process id is not alive, [acquire()] deletes it, writes a fresh
    record that holds the current process id, and returns [true]: the [fs]
    calls it completes are the [mkdirSync], the read, the [unlinkSync] of
    the stale file and the [writeFileSync] of the new record. The stale
    file is gone before the record is written: when the write fails
    without having opened the file, no lock file is left. The [mkdirSync],
    the read and the [unlinkSync] are taken not to fail. *)
Theorem acquire_stale_lock (env : Env) (this : Lock) (w : World) (content : string) :
  throws env MkdirSync (lockDir this) = false ->
  throws env ReadFileSync (lockFile this) = false ->
  throws env UnlinkSync (lockFile this) = false ->
  pid this = process_pid env ->
  files w !! lockFile this = Some content ->
  stale env content ->
  (throws env WriteFileSync (lockFile this) = false ->
   exists w',
     acquire env this w = (true, set_acquired true this, w') /\
     calls w' = app (calls w) [(MkdirSync, lockDir this);
                               (ReadFileSync, lockFile this);
                               (UnlinkSync, lockFile this);
                               (WriteFileSync, lockFile this)] /\
     files w' = <[lockFile this := JSON_stringify env (lock_record env this)]>
                  (delete (lockFile this) (files w)) /\
     get "pid" (lock_record env this) = JNum (process_pid env)) /\
  (throws env WriteFileSync (lockFile this) = true ->
   write_residue env (lockFile this) = None ->
   exists w',
     acquire env this w = (false, this, w') /\
     calls w' = app (calls w) [(MkdirSync, lockDir this);
                               (ReadFileSync, lockFile this);
                               (UnlinkSync, lockFile this)] /\
     files w' = delete (lockFile this) (files w) /\
     files w' !! lockFile this = None).
Proof.
  intros Hmk Hrd Hun Hpid Hf Hstale.
  assert (Hdead : truthy (default JNull (JSON_parse env content)) &&
                  isProcessRunning env
                    (get "pid" (default JNull (JSON_parse env content))) = false).
  { destruct Hstale as [Hp|(v & Hp & Hk)]; rewrite Hp; simpl (default _ _).
    - reflexivity.
    - unfold isProcessRunning. rewrite Hk. apply andb_false_r. }
  split.
  - intros Hwr. unfold acquire, mkdirSync. rewrite Hmk. cbn zeta.
    erewrite existsSync_true by exact Hf.
    unfold readLockFile, readFileSync. rewrite Hrd. cbn [files completed].
    rewrite Hf, Hdead. unfold cleanup.
    erewrite existsSync_true by (cbn [files console_log completed]; exact Hf).
    unfold unlinkSync. rewrite Hun. cbn [files console_log completed].
    rewrite Hf. unfold writeFileSync. rewrite Hwr.
    eexists. split; [reflexivity|].
    cbn [calls files console_log completed setupCleanupHandlers].
    repeat split.
    + rewrite <- !app_assoc. reflexivity.
    + cbn. now rewrite Hpid.
  - intros Hwr Hres. unfold acquire, mkdirSync. rewrite Hmk. cbn zeta.
    erewrite existsSync_true by exact Hf.
    unfold readLockFile, readFileSync. rewrite Hrd. cbn [files completed].
    rewrite Hf, Hdead. unfold cleanup.
    erewrite existsSync_true by (cbn [files console_log completed]; exact Hf).
    unfold unlinkSync. rewrite Hun. cbn [files console_log completed].
    rewrite Hf. unfold writeFileSync, failed_write. rewrite Hwr, Hres.
    eexists. split; [reflexivity|].
    cbn [calls files console_log completed].
    repeat split.
    + rewrite <- !app_assoc. reflexivity.
    + apply lookup_delete_eq.
Qed.

(** C5. With no lock file at the start and no [release()] in between, the
    first [acquire()] returns [true] and the second [false]: the second
    reads the file of the first, which names the process itself, alive,
    and reports that process as the running instance. The second call
    leaves the files as the first left them. *)
Theorem acquire_twice (env : Env) (this : Lock) (w : World) :
  no_faults env ->
  pid this = process_pid env ->
  files w !! lockFile this = None ->
  JSON_parse env (JSON_stringify env (lock_record env this)) =
    Some (lock_record env this) ->
  process_kill0 env (JNum (process_pid env)) = true ->
  exists this1 w1 w2,
    acquire env this w = (true, this1, w1) /\
    acquire env this1 w1 = (false, this1, w2) /\
    files w1 !! lockFile this = Some (JSON_stringify env (lock_record env this)) /\
    files w2 = files w1 /\
    console w2 = (console w1 ++ [LogOtherInstance (JNum (process_pid env))])%list.
Proof.
  intros Hio Hpid Hf Hjson Halive.
  assert (H1 : exists w1,
             acquire env this w = (true, set_acquired true this, w1) /\
             files w1 = <[lockFile this := JSON_stringify env (lock_record env this)]>
                          (files w)).
  { unfold acquire, mkdirSync. rewrite Hio. cbn zeta.
    erewrite existsSync_false by exact Hf.
    unfold writeFileSync. rewrite Hio. eexists. split; reflexivity. }
  destruct H1 as (w1 & Hacq & Hfiles).
  assert (Hlock : files w1 !! lockFile (set_acquired true this) =
                  Some (JSON_stringify env (lock_record env this))).
  { rewrite Hfiles. cbn [lockFile set_acquired]. apply lookup_insert_eq. }
  destruct (acquire_live_holder env (set_acquired true this) w1 _ _ Hio Hlock Hjson)
    as (w2 & Hacq2 & Hfiles2 & Hconsole).
  - reflexivity.
  - cbn. rewrite Hpid. exact Halive.
  - exists (set_acquired true this), w1, w2. repeat split; try assumption.
    rewrite Hconsole. cbn. now rewrite Hpid.
Qed.

(** On the demonstration host the stale lock of process 17 is replaced. *)
Lemma acquire_stale_lock_witness :
  (Singleton.acquire Demo.host Demo.the_lock Demo.stale_world).1.1 = true /\
  files (Singleton.acquire Demo.host_read_only Demo.the_lock Demo.stale_world).2
    !! Demo.lock_path = None.
Proof.
  split.
  - destruct (acquire_stale_lock Demo.host Demo.the_lock Demo.stale_world
                (Demo.JSON_stringify
                   (JObj [("pid", JNum 17); ("started", JStr "2024");
                          ("hostname", JStr "devbox");
                          ("command", JStr "node index.js")])))
      as [H _].
    + reflexivity.
    + reflexivity.
    + reflexivity.
    + reflexivity.
    + vm_compute. reflexivity.
    + right. eexists. split; vm_compute; reflexivity.
    + destruct H as (w' & Hacq & _); [reflexivity|]. rewrite Hacq. reflexivity.
  - destruct (acquire_stale_lock Demo.host_read_only Demo.the_lock Demo.stale_world
                (Demo.JSON_stringify
                   (JObj [("pid", JNum 17); ("started", JStr "2024");
                          ("hostname", JStr "devbox");
                          ("command", JStr "node index.js")])))
      as [_ H].
    + reflexivity.
    + reflexivity.
    + reflexivity.
    + reflexivity.
    + vm_compute. reflexivity.
    + right. eexists. split; vm_compute; reflexivity.
    + destruct H as (w' & Hacq & _ & _ & Hgone); [reflexivity | reflexivity |].
      rewrite Hacq. exact Hgone.
Defined.

(** On the demonstration host, with no lock file, two calls in a row answer
    [true] then [false]. *)
Lemma acquire_twice_witness :
  exists this1 w1 w2,
    Singleton.acquire Demo.host Demo.the_lock Demo.empty_world = (true, this1, w1) /\
    Singleton.acquire Demo.host this1 w1 = (false, this1, w2) /\
    Singleton.files w2 = Singleton.files w1.
Proof.
  destruct (acquire_twice Demo.host Demo.the_lock Demo.empty_world)
    as (this1 & w1 & w2 & H1 & H2 & _ & H3 & _).
  - intros call path. reflexivity.
  - reflexivity.
  - vm_compute. reflexivity.
  - vm_compute. reflexivity.
  - reflexivity.
  - exists this1, w1, w2. auto.
Defined.

(** Acquire, release, acquire again: the lock file is written, removed and
    written again. *)
Example acquire_release_acquire :
  let '(r1, lock1, w1) := Singleton.acquire Demo.host Demo.the_lock Demo.empty_world in
  let '(lock2, w2) := Singleton.release Demo.host lock1 w1 in
  let '(r3, lock3, w3) := Singleton.acquire Demo.host lock2 w2 in
  (r1, Singleton.files w2 !! Demo.lock_path, r3, Singleton.acquired lock3,
   Singleton.calls w3)
  = (true, None, true, true,
     [(Singleton.MkdirSync, "/home/dev/.styxy/locks");
      (Singleton.WriteFileSync, Demo.lock_path);
      (Singleton.UnlinkSync, Demo.lock_path);
      (Singleton.MkdirSync, "/home/dev/.styxy/locks");
      (Singleton.WriteFileSync, Demo.lock_path)]).
Proof. vm_compute. reflexivity. Qed.

(** [release()] on a lock that is not held does nothing. *)
Lemma release_not_held (env : Env) (this : Lock) (w : World) :
  acquired this = false -> release env this w = (this, w).
Proof. intros H. unfold release. now rewrite H. Qed.

End SingletonProps.

(** ** The client *)

Module ClientProps.
Import Client Spec Aux.

(** *** The monad *)

Lemma bind_resolved {A B} (m : M A) (k : A -> M B) (w w' : World) (a : A) :
  m w = (Resolved a, w') -> (m ≫= k) w = k a w'.
Proof. intros H. unfold mbind, M_bind, bind. now rewrite H. Qed.

Lemma bind_rejected {A B} (m : M A) (k : A -> M B) (w w' : World) (e : exn) :
  m w = (Rejected e, w') -> (m ≫= k) w = (Rejected e, w').
Proof. intros H. unfold mbind, M_bind, bind. now rewrite H. Qed.

Lemma try_resolved {A} (m : M A) (h : exn -> M A) (w w' : World) (a : A) :
  m w = (Resolved a, w') -> try_catch m h w = (Resolved a, w').
Proof. intros H. unfold try_catch. now rewrite H. Qed.

Lemma try_rejected {A} (m : M A) (h : exn -> M A) (w w' : World) (e : exn) :
  m w = (Rejected e, w') -> try_catch m h w = h e w'.
Proof. intros H. unfold try_catch. now rewrite H. Qed.

Lemma quiet_ret {A} (a : A) : quiet (ret a).
Proof. intros w. split; reflexivity. Qed.

Lemma quiet_throw {A} (e : exn) : quiet (@throw A e).
Proof. intros w. split; reflexivity. Qed.

Lemma quiet_settled {A} (o : outcome A) : quiet (settled o).
Proof. intros w. split; reflexivity. Qed.

Lemma quiet_bind {A B} (m : M A) (k : A -> M B) :
  quiet m -> (forall a, quiet (k a)) -> quiet (m ≫= k).
Proof.
  intros Hm Hk w. unfold mbind, M_bind, bind.
  destruct (Hm w) as [H1 H2]. destruct (m w) as [[a|e] w1]; cbn [snd] in *.
  - destruct (Hk a w1) as [H3 H4]. split; congruence.
  - split; assumption.
Qed.

Lemma quiet_try {A} (m : M A) (h : exn -> M A) :
  quiet m -> (forall e, quiet (h e)) -> quiet (try_catch m h).
Proof.
  intros Hm Hh w. unfold try_catch.
  destruct (Hm w) as [H1 H2]. destruct (m w) as [[a|e] w1]; cbn [snd] in *.
  - split; assumption.
  - destruct (Hh e w1) as [H3 H4]. split; congruence.
Qed.

Lemma fallback_calls_app (t1 t2 : list event) :
  fallback_calls (t1 ++ t2) = (fallback_calls t1 ++ fallback_calls t2)%list.
Proof. unfold fallback_calls. apply flat_map_app. Qed.

Lemma quiet_emit (ev : event) :
  (forall c, ev <> EvFallback c) -> quiet (emit ev).
Proof.
  intros Hev w. split; [reflexivity|]. cbn [emit snd trace].
  rewrite fallback_calls_app. destruct ev; cbn; try apply app_nil_r.
  now destruct (Hev command).
Qed.

Section Env.
Variable env : Env.

Lemma quiet_execAsync (cmd : string) : quiet (execAsync env cmd).
Proof.
  unfold execAsync. apply quiet_bind; [now apply quiet_emit|].
  intros _. destruct (exec env cmd); [apply quiet_ret | apply quiet_throw].
Qed.

Lemma quiet_JSON_parse_m (text : string) : quiet (JSON_parse_m env text).
Proof.
  unfold JSON_parse_m. destruct (JSON_parse env text);
    [apply quiet_ret | apply quiet_throw].
Qed.

(** *** The configuration resolver *)

Lemma prototype_getConfig : prototype !! "getConfig" = Some 344%nat.
Proof. vm_compute. reflexivity. Qed.

Lemma getConfig_overflows (depth : nat) (options : ConfigOptions) (w : World) :
  getConfig env depth options w = (Rejected stack_overflow, w).
Proof.
  revert options. induction depth as [|depth IH]; intros options.
  - reflexivity.
  - cbn [getConfig]. rewrite prototype_getConfig. unfold getConfig_l344.
    now apply bind_rejected.
Qed.

Lemma loadDefaultConfig_from_resolves (paths : list string) (w : World) :
  exists cfg w', loadDefaultConfig_from env paths w = (Resolved cfg, w') /\
                 this w' = this w /\ truthy cfg = true.
Proof.
  revert w. induction paths as [|p paths IH]; intros w.
  - eexists _, w. repeat split.
  - cbn [loadDefaultConfig_from]. unfold try_catch.
    destruct ((content ← fs_readFile env p;
               parsed ← JSON_parse_m env content;
               ret (JObj (set_field "config_path" (JStr p) (spread parsed)))) w)
      as [[cfg|e] w1] eqn:Hbody.
    + exists cfg, w1. split; [reflexivity|].
      mrun in Hbody.
      destruct (readFile env p); [|discriminate].
      destruct (JSON_parse env a); [|discriminate].
      injection Hbody as <- <-. split; reflexivity.
    + destruct (IH w1) as (cfg & w' & H & Hthis & Ht).
      exists cfg, w'. split; [exact H|]. split; [|exact Ht].
      rewrite Hthis.
      mrun in Hbody.
      destruct (readFile env p).
      * destruct (JSON_parse env a); [discriminate|].
        now injection Hbody as _ <-.
      * now injection Hbody as _ <-.
Qed.

(** The resolver that line 16 defines does what the specification asks of
    [resolve()]: it always answers, and a truthy answer is kept. *)
Lemma getConfig_l16_resolves (w : World) :
  exists cfg w', getConfig_l16 env w = (Resolved cfg, w') /\
                 config (this w') = cfg.
Proof.
  unfold getConfig_l16, mbind, M_bind, bind, get_this.
  destruct (negb (truthy (config (this w)))).
  - unfold try_catch.
    destruct (bind (execAsync env "styxy config show --json")
                (fun stdout => bind (JSON_parse_m env stdout) (set_config))  w)
      as [[[]|e] w1] eqn:Hbody.
    + eexists _, w1. unfold bind in Hbody. rewrite Hbody. split; reflexivity.
    + unfold bind in Hbody. rewrite Hbody.
      destruct (loadDefaultConfig_from_resolves
                  [path_join [os_homedir env; ".styxy"; "config.json"];
                   path_join [os_homedir env; ".config"; "styxy"; "config.json"];
                   "/etc/styxy/config.json"] w1) as (cfg & w2 & H & _).
      unfold loadDefaultConfig. rewrite H. cbn. eexists _, _. split; reflexivity.
  - cbn. eexists _, w. split; reflexivity.
Qed.

Lemma getConfig_l16_cached (w : World) :
  truthy (config (this w)) = true ->
  getConfig_l16 env w = (Resolved (config (this w)), w).
Proof.
  intros H. unfold getConfig_l16, mbind, M_bind, bind, get_this. now rewrite H.
Qed.

End Env.

(** C2. The specification asks that [resolve()] never fails and caches its
    result. The class defines [getConfig] twice; the definition of line 344
    replaces the resolver of line 16 on the prototype, and its
    [this.getConfig()] calls itself. Whatever the environment, the options,
    the state of the client and the room on the stack, the call rejects
    with a stack overflow and leaves the client as it was: nothing is
    cached. *)
Theorem getConfig_never_resolves (env : Env) (options : ConfigOptions) (w : World) :
  prototype !! "getConfig" = Some 344%nat /\
  (forall depth, getConfig env depth options w = (Rejected stack_overflow, w)) /\
  getConfig env (stack_depth env) options w = (Rejected stack_overflow, w).
Proof.
  assert (Hproto : prototype !! "getConfig" = Some 344%nat)
    by (vm_compute; reflexivity).
  assert (Hall : forall depth opts,
             getConfig env depth opts w = (Rejected stack_overflow, w)).
  { induction depth as [|depth IH]; intros opts; [reflexivity|].
    cbn [getConfig]. rewrite Hproto. unfold getConfig_l344.
    unfold mbind, M_bind, bind. now rewrite IH. }
  split; [exact Hproto|]. split; [|apply Hall].
  intros depth. apply Hall.
Qed.

(** *** The socket path and the switch to the command line *)

Section Channel.
Variable env : Env.

Lemma connectToDaemon_open (w : World) :
  daemonSocket (this w) = Some {| readyState := Open |} ->
  connectToDaemon env w = (Resolved {| readyState := Open |}, w).
Proof.
  intros H. unfold connectToDaemon. mrun. now rewrite H.
Qed.

(** Without an open socket [connectToDaemon] asks for the configuration
    first, and fails there. *)
Lemma connectToDaemon_not_open (w : World) :
  daemonSocket (this w) <> Some {| readyState := Open |} ->
  connectToDaemon env w = (Rejected stack_overflow, w).
Proof.
  intros H. unfold connectToDaemon. mrun.
  destruct (daemonSocket (this w)) as [[[]]|]; try congruence;
    now rewrite getConfig_overflows.
Qed.

Lemma connectToDaemon_world (w : World) : (connectToDaemon env w).2 = w.
Proof.
  destruct (daemonSocket (this w)) as [[[]]|] eqn:H;
    try (rewrite connectToDaemon_not_open; [reflexivity | congruence]).
  now rewrite connectToDaemon_open.
Qed.

Lemma sendDaemonCommand_unreachable (c : Command) (w w1 : World) (e : exn) :
  connectToDaemon env w = (Rejected e, w1) ->
  sendDaemonCommand env c w = fallbackToCliCommand env c w1.
Proof.
  intros H. unfold sendDaemonCommand. mrun. now rewrite H.
Qed.

Lemma sendDaemonCommand_connected (c : Command) (w w1 : World) (s : Socket) :
  connectToDaemon env w = (Resolved s, w1) ->
  sendDaemonCommand env c w = exchange env s c w1.
Proof.
  intros H. unfold sendDaemonCommand. mrun. now rewrite H.
Qed.

Lemma quiet_exchange (s : Socket) (c : Command) : quiet (exchange env s c).
Proof.
  unfold exchange. apply quiet_bind; [now apply quiet_emit|].
  intros _. apply quiet_settled.
Qed.

Lemma quiet_released_ports_of (matches : list string) :
  quiet (released_ports_of matches).
Proof.
  induction matches as [|m matches IH]; cbn [released_ports_of].
  - apply quiet_ret.
  - destruct (match_digits m); [|apply quiet_throw].
    apply quiet_bind; [exact IH|]. intros ports. apply quiet_ret.
Qed.

Lemma quiet_cliCleanup (force : bool) (p : option Z) : quiet (cliCleanup env force p).
Proof.
  unfold cliCleanup. apply quiet_try.
  - apply quiet_bind; [apply quiet_execAsync|]. intros stdout.
    apply quiet_bind; [apply quiet_released_ports_of|]. intros ports.
    apply quiet_ret.
  - intros e. apply quiet_ret.
Qed.

Lemma quiet_cliGetStatus : quiet (cliGetStatus env).
Proof.
  unfold cliGetStatus. apply quiet_try.
  - apply quiet_bind; [apply quiet_execAsync|]. intros stdout.
    apply quiet_JSON_parse_m.
  - intros _. apply quiet_try.
    + apply quiet_bind; [apply quiet_execAsync|]. intros stdout. apply quiet_ret.
    + intros e. apply quiet_ret.
Qed.

Lemma quiet_cliAllocatePort_port (stdout : string) : quiet (cliAllocatePort_port stdout).
Proof.
  unfold cliAllocatePort_port.
  destruct (find _ _) as [line|]; [|apply quiet_ret].
  destruct (truthy (JStr line)); [|apply quiet_ret].
  destruct (match_digits line); [apply quiet_ret | apply quiet_throw].
Qed.

Lemma quiet_cliAllocatePort (context : Context) (preferences : Preferences) :
  quiet (cliAllocatePort env context preferences).
Proof.
  unfold cliAllocatePort. apply quiet_try.
  - apply quiet_bind; [apply quiet_execAsync|]. intros stdout.
    apply quiet_bind; [apply quiet_cliAllocatePort_port|]. intros p.
    destruct (negb (truthy p)); [apply quiet_throw | apply quiet_ret].
  - intros e. apply quiet_throw.
Qed.

(** A run of the translator enters it once, with the command it was given,
    and leaves the client as it was. *)
Lemma fallback_enters_once (c : Command) (w : World) :
  this (fallbackToCliCommand env c w).2 = this w /\
  fallback_calls (trace (fallbackToCliCommand env c w).2) =
  (fallback_calls (trace w) ++ [c])%list.
Proof.
  unfold fallbackToCliCommand.
  set (w1 := {| this := this w; trace := trace w ++ [EvFallback c] |}).
  assert (Hw1 : fallback_calls (trace w1) = (fallback_calls (trace w) ++ [c])%list).
  { unfold w1. cbn [trace]. now rewrite fallback_calls_app. }
  assert (Hq : forall m : M jsval, quiet m ->
               this ((emit (EvFallback c) ≫= fun _ => m) w).2 = this w /\
               fallback_calls (trace ((emit (EvFallback c) ≫= fun _ => m) w).2) =
               (fallback_calls (trace w) ++ [c])%list).
  { intros m Hm. destruct (Hm w1) as [H1 H2].
    change ((emit (EvFallback c) ≫= fun _ => m) w) with (m w1).
    rewrite H1, H2, Hw1. split; reflexivity. }
  destruct c; apply Hq;
    auto using quiet_cliAllocatePort, quiet_cliGetStatus, quiet_cliCleanup,
               quiet_throw.
Qed.


(** With an open socket the call settles as the listeners on the socket
    settle it, whatever that is. *)
Lemma sendDaemonCommand_open_socket (c : Command) (w : World) :
  daemonSocket (this w) = Some {| readyState := Open |} ->
  sendDaemonCommand env c w =
  (settle env "" (socket_events env),
   {| this := this w;
      trace := trace w ++
               [EvWrite (JSON_stringify env (command_object c) +:+ NL)] |}).
Proof.
  intros H.
  rewrite (sendDaemonCommand_connected c w w _ (connectToDaemon_open w H)).
  reflexivity.
Qed.

(** A call that resolves on the socket path hands back what [JSON.parse]
    made of the bytes received so far, as it is. *)
Lemma settle_resolved (events : list socket_event) (response : string) (r : jsval) :
  settle env response events = Resolved r ->
  exists text, JSON_parse env text = Some r.
Proof.
  revert response. induction events as [|[chunk|e] events IH]; intros response;
    cbn [settle]; try discriminate.
  destruct (JSON_parse env (response +:+ chunk)) as [v|] eqn:Hparse.
  - intros H. injection H as <-. eauto.
  - apply IH.
Qed.

Lemma settle_silence : settle env "" [] = Rejected (Error "Command timeout").
Proof. reflexivity. Qed.

Lemma settle_socket_error (e : exn) (rest : list socket_event) (response : string) :
  settle env response (SocketError e :: rest) = Rejected e.
Proof. reflexivity. Qed.

(** [getMetrics] awaits the call inside its [try]: no failure of the
    channel reaches its caller. *)
Lemma getMetrics_recovers (time_range : option string)
    (include_patterns : option bool) (w : World) :
  exists r w', getMetrics env time_range include_patterns w = (Resolved r, w').
Proof.
  unfold getMetrics, try_catch.
  destruct (sendDaemonCommand env _ w) as [[r|e] w1]; eexists _, _; reflexivity.
Qed.

End Channel.

(** In [sendDaemonCommand] the promise of the exchange is returned from
    the [try] block without being awaited, so only the failures of
    [connectToDaemon] reach the [catch]. On a client that held an open
    socket, a failure of the exchange (the timer of 10000 ms, an [error]
    event) would reject the call with that very failure. No call of the
    class leaves such a client: [daemonSocket] is assigned only after
    [connectToDaemon] has awaited [this.getConfig()], which never
    resolves. *)
Lemma sendDaemonCommand_channel_failure_surfaces
    (env : Env) (c : Command) (w : World) (e : exn) :
  daemonSocket (this w) = Some {| readyState := Open |} ->
  settle env "" (socket_events env) = Rejected e ->
  exists w',
    sendDaemonCommand env c w = (Rejected e, w') /\
    fallback_calls (trace w') = fallback_calls (trace w).
Proof.
  intros Hopen Hsettle. rewrite sendDaemonCommand_open_socket by exact Hopen.
  rewrite Hsettle. eexists. split; [reflexivity|].
  cbn [trace]. rewrite fallback_calls_app. apply app_nil_r.
Qed.

(** *** The status fallback *)

Section Status.
Variable env : Env.

Lemma cliGetStatus_resolves (w : World) :
  exists r w', cliGetStatus env w = (Resolved r, w').
Proof.
  unfold cliGetStatus. mrun.
  destruct (exec env "styxy status --json") as [stdout|m o].
  - destruct (JSON_parse env stdout); [eexists _, _; reflexivity|].
    destruct (exec env "styxy status"); eexists _, _; reflexivity.
  - destruct (exec env "styxy status"); eexists _, _; reflexivity.
Qed.

Lemma cliGetStatus_both_failed (w : World) (m1 o1 m2 o2 : string) :
  exec env "styxy status --json" = ExecFailed m1 o1 ->
  exec env "styxy status" = ExecFailed m2 o2 ->
  cliGetStatus env w =
  (Resolved (degraded_status m2),
   {| this := this w;
      trace := (trace w ++ [EvExec "styxy status --json"]) ++
               [EvExec "styxy status"] |}).
Proof.
  intros H1 H2. unfold cliGetStatus. mrun. now rewrite H1, H2.
Qed.

End Status.

(** C7. For the status command, when the invocation with [--json] and the
    plain one both fail, the fallback answers with a degraded result:
    [daemon_running] is [false], [active_ports] is empty and
    [recent_errors] holds the error of the command line. No exception
    reaches the caller: [cliGetStatus] resolves in every environment. *)
Theorem status_fallback_degraded (env : Env) (w : World)
    (include_ports include_recent_errors : bool) :
  (exists r w', cliGetStatus env w = (Resolved r, w')) /\
  forall m1 o1 m2 o2,
    exec env "styxy status --json" = ExecFailed m1 o1 ->
    exec env "styxy status" = ExecFailed m2 o2 ->
    exists r w',
      fallbackToCliCommand env (Status include_ports include_recent_errors) w
      = (Resolved r, w') /\
      get "daemon_running" r = JBool false /\
      get "active_ports" r = JArr [] /\
      get "recent_errors" r = JArr [JStr ("CLI error: " +:+ m2)] /\
      keys r = status_degraded_fields.
Proof.
  split; [apply cliGetStatus_resolves|].
  intros m1 o1 m2 o2 H1 H2. unfold fallbackToCliCommand.
  erewrite bind_resolved by reflexivity.
  erewrite cliGetStatus_both_failed by eassumption.
  eexists _, _. split; [reflexivity|]. repeat split.
Qed.

(** With no [styxy] on the path and no daemon, a status call still
    resolves, with the degraded result. *)
Lemma status_fallback_degraded_witness :
  exists r w',
    sendDaemonCommand (Demo.machine Demo.cli_missing) (Status true true) Demo.fresh
    = (Resolved r, w') /\
    get "daemon_running" r = JBool false /\
    get "active_ports" r = JArr [] /\
    get "recent_errors" r = JArr [JStr "CLI error: Command failed: styxy status"].
Proof.
  destruct (status_fallback_degraded (Demo.machine Demo.cli_missing) Demo.fresh
              true true) as [_ H].
  destruct (H "Command failed: styxy status --json" ""
              "Command failed: styxy status" "")
    as (r & w' & Hr & H1 & H2 & H3 & _); [reflexivity | reflexivity |].
  exists r, w'. split; [|repeat split; assumption].
  rewrite <- Hr.
  apply (sendDaemonCommand_unreachable _ _ Demo.fresh Demo.fresh stack_overflow).
  apply connectToDaemon_not_open. discriminate.
Defined.

(** *** The allocate fallback *)

Section Allocate.
Import StringFacts.

Lemma marked_line_truthy (lines : list string) (line : string) :
  find (includes "Port:") lines = Some line -> truthy (JStr line) = true.
Proof.
  intros H. apply find_some in H as [_ H].
  destruct line; [discriminate H | reflexivity].
Qed.

Lemma take_drop_while (p : ascii -> bool) (s : string) :
  take_while p s +:+ drop_while p s = s.
Proof.
  induction s as [|c s IH]; [reflexivity|]. simpl.
  destruct (p c); simpl; [now rewrite IH | reflexivity].
Qed.

Lemma all_digits_take_while (s : string) : all_digits (take_while is_digit s) = true.
Proof.
  induction s as [|c s IH]; [reflexivity|]. simpl.
  destruct (is_digit c) eqn:Hc; simpl; [now rewrite Hc | reflexivity].
Qed.

Lemma ends_digit_run_drop_while (s : string) :
  ends_digit_run (drop_while is_digit s) = true.
Proof.
  induction s as [|c s IH]; [reflexivity|]. simpl.
  destruct (is_digit c) eqn:Hc; [exact IH | simpl; now rewrite Hc].
Qed.

(** A line that holds a digit has a first maximal run of digits. *)
Lemma first_digit_run_exists (line : string) :
  no_digit line = false -> exists ds, first_digit_run line ds.
Proof.
  induction line as [|c line IH]; [discriminate|]. simpl.
  destruct (is_digit c) eqn:Hc; simpl.
  - intros _. exists (String c (take_while is_digit line)).
    exists "", (drop_while is_digit line). simpl. repeat split.
    + now rewrite take_drop_while.
    + now rewrite Hc, all_digits_take_while.
    + discriminate.
    + apply ends_digit_run_drop_while.
  - intros H. destruct (IH H) as (ds & before & after & -> & Hb & Hd & Hne & Ha).
    exists ds, (String c before), after. simpl. rewrite Hc. repeat split; assumption.
Qed.

Lemma cliAllocatePort_port_digits (stdout line ds : string) (w : World) :
  find (includes "Port:") (split NL (trim stdout)) = Some line ->
  first_digit_run line ds ->
  cliAllocatePort_port stdout w =
  (Resolved (JNum (to_double (decimal_value ds))), w).
Proof.
  intros Hfind (before & after & -> & Hb & Hd & Hne & Ha).
  unfold cliAllocatePort_port. rewrite Hfind.
  rewrite (marked_line_truthy _ _ Hfind).
  rewrite match_digits_run, parseInt_rounds by assumption. reflexivity.
Qed.

Lemma cliAllocatePort_port_no_digit (stdout line : string) (w : World) :
  find (includes "Port:") (split NL (trim stdout)) = Some line ->
  no_digit line = true ->
  cliAllocatePort_port stdout w = (Rejected (TypeError (cannot_read "null" "0")), w).
Proof.
  intros Hfind Hnd. unfold cliAllocatePort_port. rewrite Hfind.
  rewrite (marked_line_truthy _ _ Hfind).
  now rewrite match_digits_none.
Qed.

Lemma cliAllocatePort_port_no_marker (stdout : string) (w : World) :
  find (includes "Port:") (split NL (trim stdout)) = None ->
  cliAllocatePort_port stdout w = (Resolved JNull, w).
Proof. intros Hfind. unfold cliAllocatePort_port. now rewrite Hfind. Qed.

Lemma find_none_unmarked (lines : list string) :
  (forall line, In line lines -> ~ contains "Port:" line) ->
  find (includes "Port:") lines = None.
Proof.
  intros H. induction lines as [|l lines IH]; [reflexivity|]. simpl.
  destruct (includes "Port:" l) eqn:Hl.
  - apply includes_spec in Hl. exfalso. apply (H l); [now left | exact Hl].
  - apply IH. intros line Hin. apply H. now right.
Qed.

Variable env : Env.

(** [cliAllocatePort] once the command line has answered: the outcome
    follows the extraction of the port. *)
Lemma cliAllocatePort_answered (context : Context) (preferences : Preferences)
    (stdout : string) (w : World) :
  exec env ("styxy " +:+ join " " (allocate_args context preferences)) = ExecOk stdout ->
  let w1 := {| this := this w;
               trace := trace w ++
                 [EvExec ("styxy " +:+ join " " (allocate_args context preferences))] |} in
  (forall e, cliAllocatePort_port stdout w1 = (Rejected e, w1) ->
     cliAllocatePort env context preferences w =
     (Rejected (Error ("CLI allocation failed: " +:+ message e)), w1)) /\
  (forall p, cliAllocatePort_port stdout w1 = (Resolved p, w1) ->
     truthy p = false ->
     cliAllocatePort env context preferences w =
     (Rejected (Error ("CLI allocation failed: " +:+ unparseable_output)), w1)) /\
  (forall p, cliAllocatePort_port stdout w1 = (Resolved p, w1) ->
     truthy p = true ->
     exists r,
       cliAllocatePort env context preferences w = (Resolved r, w1) /\
       get "allocated_port" r = p /\
       get "service_url" r = JStr ("http://localhost:" +:+ ToString p) /\
       get "usage_example" r =
         generateUsageExamplesCli (serviceType context) p /\
       keys r = allocate_fields).
Proof.
  intros Hexec w1. repeat split.
  - intros e He. unfold cliAllocatePort. mrun. rewrite Hexec.
    fold w1. now rewrite He.
  - intros p Hp Ht. unfold cliAllocatePort. mrun. rewrite Hexec.
    fold w1. now rewrite Hp, Ht.
  - intros p Hp Ht. unfold cliAllocatePort. mrun. rewrite Hexec.
    fold w1. rewrite Hp, Ht. eexists. split; [reflexivity|]. repeat split.
Qed.

Lemma fallback_allocate (context : Context) (preferences : Preferences)
    (metadata : Metadata) (w : World) :
  fallbackToCliCommand env (Allocate context preferences metadata) w =
  cliAllocatePort env context preferences
    (entered (Allocate context preferences metadata) w).
Proof. reflexivity. Qed.

Lemma fallback_status (ports errors : bool) (w : World) :
  fallbackToCliCommand env (Status ports errors) w =
  cliGetStatus env (entered (Status ports errors) w).
Proof. reflexivity. Qed.

Lemma fallback_cleanup (force : bool) (p : option Z) (session : option string)
    (w : World) :
  fallbackToCliCommand env (Cleanup force p session) w =
  cliCleanup env force p (entered (Cleanup force p session) w).
Proof. reflexivity. Qed.

End Allocate.

(** C6. An allocate command for service type [web] and project [demo],
    no daemon to connect to, and a command line that succeeds: when the
    line the parser selects (the first that contains [Port:]) is
    [Port: 3042], the result has [allocated_port] 3042 and [service_url]
    [http://localhost:3042]. And for every allocate command whose
    successful output has no line with the marker, the call fails with the
    unparseable-output error; no result with a null port is returned. *)
Theorem allocate_fallback_scenario (env : Env) (w w1 : World) (e : exn) :
  connectToDaemon env w = (Rejected e, w1) ->
  (forall context preferences metadata stdout,
     serviceType context = "web" ->
     projectName context = "demo" ->
     exec env ("styxy " +:+ join " " (allocate_args context preferences))
       = ExecOk stdout ->
     find (includes "Port:") (split NL (trim stdout)) = Some "Port: 3042" ->
     exists r w',
       sendDaemonCommand env (Allocate context preferences metadata) w
         = (Resolved r, w') /\
       get "allocated_port" r = JNum 3042 /\
       get "service_url" r = JStr "http://localhost:3042" /\
       get "usage_example" r = JStr "npm run dev -- --port 3042" /\
       keys r = allocate_fields) /\
  (forall context preferences metadata stdout,
     exec env ("styxy " +:+ join " " (allocate_args context preferences))
       = ExecOk stdout ->
     (forall line, In line (split NL (trim stdout)) -> ~ contains "Port:" line) ->
     exists w',
       sendDaemonCommand env (Allocate context preferences metadata) w
         = (Rejected (Error ("CLI allocation failed: " +:+ unparseable_output)), w')).
Proof.
  intros Hconn.
  pose proof (connectToDaemon_world env w) as Hw. rewrite Hconn in Hw.
  cbn [snd] in Hw. subst w1.
  split.
  - intros context preferences metadata stdout Hweb Hdemo Hexec Hfind.
    rewrite (sendDaemonCommand_unreachable env _ w w e Hconn).
    rewrite fallback_allocate.
    destruct (cliAllocatePort_answered env context preferences stdout
                (entered (Allocate context preferences metadata) w) Hexec)
      as (_ & _ & Hok).
    destruct (Hok (JNum 3042)) as (r & Hr & Hp & Hu & Hex & Hk).
    + unfold cliAllocatePort_port. rewrite Hfind. reflexivity.
    + reflexivity.
    + exists r. eexists. split; [exact Hr|].
      rewrite Hp, Hu, Hex, Hweb. repeat split. exact Hk.
  - intros context preferences metadata stdout Hexec Hnone.
    rewrite (sendDaemonCommand_unreachable env _ w w e Hconn).
    rewrite fallback_allocate.
    destruct (cliAllocatePort_answered env context preferences stdout
                (entered (Allocate context preferences metadata) w) Hexec)
      as (_ & Hnull & _).
    eexists. apply (Hnull JNull); [|reflexivity].
    apply cliAllocatePort_port_no_marker. now apply find_none_unmarked.
Qed.

(** [allocatePort({serviceType: 'web', projectName: 'demo'})] with no
    daemon and a command line that prints [Port: 3042]. *)
Lemma allocate_fallback_witness :
  exists r w',
    allocatePort (Demo.machine Demo.cli_working) Demo.web_demo Demo.fresh
      = (Resolved r, w') /\
    get "allocated_port" r = JNum 3042 /\
    get "service_url" r = JStr "http://localhost:3042".
Proof.
  destruct (allocate_fallback_scenario (Demo.machine Demo.cli_working)
              Demo.fresh Demo.fresh stack_overflow) as [H _].
  - apply connectToDaemon_not_open. discriminate.
  - destruct (H {| serviceType := "web"; projectName := "demo";
                   workingDir := "/home/dev/demo"; claudeSessionId := None |}
                {| port := None; duration := "session" |}
                {| serviceName := None; timestamp := "2025-01-01T00:00:00.000Z" |}
                ("Allocating a port for demo" +:+ NL +:+ "Port: 3042" +:+ NL))
      as (r & w' & Hr & Hp & Hu & _); try reflexivity.
    exists r, w'. repeat split; assumption.
Defined.

(** C9. In the output of [styxy allocate], let [line] be the first line
    that contains [Port:]. If it holds a digit, the port that
    [cliAllocatePort] extracts is the number that the first maximal run of
    digits of the line writes, wherever that run stands with respect to the
    marker: the integer itself when it is below 2^53, and the double
    nearest to it in general. If the line holds no digit, the extraction
    throws while reading the match result, before the test of the
    unparseable-output branch, and the call fails with the message of that
    throw. *)
Theorem cliAllocatePort_port_is_first_digit_run (stdout line : string) (w : World) :
  Scenarios.first_marked_line "Port:" stdout line ->
  (no_digit line = false ->
   (exists ds, first_digit_run line ds) /\
   (forall ds, first_digit_run line ds ->
      cliAllocatePort_port stdout w =
        (Resolved (JNum (to_double (decimal_value ds))), w) /\
      (decimal_value ds < safe_bound ->
       cliAllocatePort_port stdout w = (Resolved (JNum (decimal_value ds)), w)))) /\
  (no_digit line = true ->
   cliAllocatePort_port stdout w = (Rejected (TypeError (cannot_read "null" "0")), w) /\
   cannot_read "null" "0" <> unparseable_output /\
   forall env context preferences,
     exec env ("styxy " +:+ join " " (allocate_args context preferences))
       = ExecOk stdout ->
     exists w',
       cliAllocatePort env context preferences w =
       (Rejected (Error ("CLI allocation failed: " +:+ cannot_read "null" "0")), w')).
Proof.
  intros Hline. apply StringFacts.find_first_marked_line in Hline as Hfind. split.
  - intros Hd. split; [now apply first_digit_run_exists|].
    intros ds Hds.
    pose proof (cliAllocatePort_port_digits stdout line ds w Hfind Hds) as Hrun.
    split; [exact Hrun|]. intros Hsafe. now rewrite StringFacts.to_double_safe in Hrun.
  - intros Hnd. split; [now apply cliAllocatePort_port_no_digit with (line := line)|].
    split; [discriminate|].
    intros env context preferences Hexec.
    destruct (cliAllocatePort_answered env context preferences stdout w Hexec)
      as (Hthrow & _ & _).
    eexists. apply (Hthrow (TypeError (cannot_read "null" "0"))).
    now apply cliAllocatePort_port_no_digit with (line := line).
Qed.

(** The digits before the marker win: [Retry 2 Port: 8080] gives port 2. *)
Lemma cliAllocatePort_port_witness :
  cliAllocatePort_port ("Allocating" +:+ NL +:+ "Retry 2 Port: 8080" +:+ NL) Demo.fresh
  = (Resolved (JNum 2), Demo.fresh).
Proof.
  destruct (cliAllocatePort_port_is_first_digit_run
              ("Allocating" +:+ NL +:+ "Retry 2 Port: 8080" +:+ NL)
              "Retry 2 Port: 8080" Demo.fresh) as [H _].
  - exists ("Allocating" +:+ NL +:+ "Retry 2 Port: 8080"), ["Allocating"], "".
    split; [exists "", NL; repeat split; reflexivity|].
    split; [reflexivity|].
    split.
    { constructor; [|constructor]. split; [reflexivity|].
      apply StringFacts.includes_false. reflexivity. }
    split; [reflexivity|].
    split; [exists "Retry 2 ", " 8080"; reflexivity | now left].
  - destruct H as [_ H]; [reflexivity|].
    apply (H "2"); [|reflexivity].
    exists "Retry ", " Port: 8080". repeat split. discriminate.
Defined.

(** A run of digits that writes an integer above 2^53 is not extracted as
    that integer: the output [id 20250101123456789 Port: 8080] gives the
    port 20250101123456788. *)
Lemma port_above_safe_bound :
  Scenarios.first_marked_line "Port:" "id 20250101123456789 Port: 8080"
    "id 20250101123456789 Port: 8080" /\
  first_digit_run "id 20250101123456789 Port: 8080" "20250101123456789" /\
  decimal_value "20250101123456789" = 20250101123456789 /\
  (allocatePort (Demo.machine (fun _ => ExecOk "id 20250101123456789 Port: 8080"))
     Demo.web_demo Demo.fresh).1
  = Resolved
      (JObj [("allocated_port", JNum 20250101123456788);
             ("service_url", JStr "http://localhost:20250101123456788");
             ("cleanup_command", JStr "styxy release 20250101123456788");
             ("duration", JStr "session");
             ("expires_with_session", JBool true);
             ("usage_example", JStr "npm run dev -- --port 20250101123456788");
             ("raw_output", JStr "id 20250101123456789 Port: 8080")]).
Proof.
  split.
  { exists "id 20250101123456789 Port: 8080", [], "".
    split; [exists "", ""; repeat split; reflexivity|].
    split; [reflexivity|]. split; [constructor|]. split; [reflexivity|].
    split; [exists "id 20250101123456789 ", " 8080"; reflexivity | now left]. }
  split.
  { exists "id ", " Port: 8080". repeat split. discriminate. }
  split; [reflexivity|]. vm_compute. reflexivity.
Qed.

Example port_from_unrelated_token :
  cliAllocatePort_port ("id a1b7 Port: 8080") Demo.fresh
  = (Resolved (JNum 1), Demo.fresh).
Proof. reflexivity. Qed.

Example port_marker_without_digit :
  (cliAllocatePort (Demo.machine (fun _ => ExecOk "Port: none"))
     {| serviceType := "web"; projectName := "demo";
        workingDir := "/"; claudeSessionId := None |}
     {| port := None; duration := "session" |} Demo.fresh).1
  = Rejected (Error "CLI allocation failed: Cannot read properties of null (reading '0')").
Proof. reflexivity. Qed.

Example port_zero_is_unparseable :
  (cliAllocatePort (Demo.machine (fun _ => ExecOk "Port: 0"))
     {| serviceType := "web"; projectName := "demo";
        workingDir := "/"; claudeSessionId := None |}
     {| port := None; duration := "session" |} Demo.fresh).1
  = Rejected (Error "CLI allocation failed: Failed to parse allocated port from styxy output").
Proof. reflexivity. Qed.

(** *** The cleanup fallback *)

Section Cleanup.
Import StringFacts.

Lemma match_all_released_step (c : ascii) (s : string) :
  match_all_released O (String c s) =
  if released_here (String c s)
  then (marker +:+ take_while is_digit (drop 14 (String c s))) ::
       match_all_released
         (String.length (marker +:+ take_while is_digit (drop 14 (String c s))) - 1) s
  else match_all_released O s.
Proof. reflexivity. Qed.

Lemma match_all_released_skip (a s : string) :
  match_all_released (String.length a) (a +:+ s) = match_all_released O s.
Proof. induction a as [|c a IH]; [reflexivity | exact IH]. Qed.

Lemma prefix_app_long (a text more : string) :
  (String.length a <= String.length text)%nat ->
  String.prefix a (text +:+ more) = String.prefix a text.
Proof.
  revert text. induction a as [|x a IH]; intros text Hlen.
  - now destruct text, more.
  - destruct text as [|y text]; [simpl in Hlen; lia|]. simpl.
    destruct (ascii_dec x y); [|reflexivity]. apply IH. simpl in Hlen. lia.
Qed.

Lemma includes_cons_false (sub : string) (c : ascii) (s : string) :
  includes sub (String c s) = false ->
  String.prefix sub (String c s) = false /\ includes sub s = false.
Proof. cbn [includes]. apply orb_false_elim. Qed.

Lemma holds_release_tail (c : ascii) (text : string) :
  ~ holds_release (String c text) -> ~ holds_release text.
Proof.
  intros H (before & d & after & -> & Hd). apply H.
  exists (String c before), d, after. split; [reflexivity | exact Hd].
Qed.

Lemma no_marker_no_release (text : string) :
  includes marker text = false -> ~ holds_release text.
Proof.
  intros H (before & d & after & -> & _). apply includes_false in H. apply H.
  now exists before, (String d after).
Qed.

(** Inside a text that holds no release, and that nothing or a marker
    follows, no position passes the test: where the marker stands in the
    text no digit follows it, and a marker that straddles the end of the
    text would have a character of the next marker where its digits should
    start. *)
Lemma released_here_in_text (c : ascii) (text tail : string) :
  ~ holds_release (String c text) ->
  tail = "" \/ (exists more, tail = marker +:+ more) ->
  released_here (String c text +:+ tail) = false.
Proof.
  intros Hno Htail. unfold released_here.
  destruct (le_lt_dec 15 (String.length (String c text))) as [Hlong|Hshort].
  - rewrite prefix_app_long by (cbn in *; lia).
    destruct (String.prefix marker (String c text)) eqn:Hp; [|reflexivity].
    apply prefix_spec in Hp as [r Hr].
    destruct r as [|d r]; [rewrite Hr in Hlong; cbn in Hlong; lia|].
    rewrite Hr, append_assoc.
    change (drop 14 (marker +:+ String d r +:+ tail)) with (String d (r +:+ tail)).
    cbn [take_while andb]. destruct (is_digit d) eqn:Hd; [|reflexivity].
    exfalso. apply Hno. exists "", d, r. split; [exact Hr | exact Hd].
  - apply andb_false_intro2.
    destruct Htail as [->|[more ->]];
      do 14 (destruct text as [|? text]; [reflexivity|]);
      simpl in Hshort; lia.
Qed.

Lemma match_all_released_text (text tail : string) :
  ~ holds_release text ->
  tail = "" \/ (exists more, tail = marker +:+ more) ->
  match_all_released O (text +:+ tail) = match_all_released O tail.
Proof.
  intros Hno Htail. induction text as [|c text IH]; [reflexivity|].
  change (String c text +:+ tail) with (String c (text +:+ tail)).
  rewrite match_all_released_step.
  change (String c (text +:+ tail)) with (String c text +:+ tail).
  rewrite released_here_in_text by assumption.
  apply IH. now apply holds_release_tail in Hno.
Qed.

Lemma match_all_released_row (ds more : string) :
  all_digits ds = true -> ds <> "" -> ends_digit_run more = true ->
  match_all_released O (marker +:+ ds +:+ more) =
  (marker +:+ ds) :: match_all_released O more.
Proof.
  intros Hd Hne Hmore.
  assert (Htake : take_while is_digit (ds +:+ more) = ds)
    by now apply take_while_digits.
  change (marker +:+ ds +:+ more)
    with (String "R" ("eleased port " +:+ ds +:+ more)).
  rewrite match_all_released_step. unfold released_here.
  change (drop 14 (String "R" ("eleased port " +:+ ds +:+ more)))
    with (ds +:+ more).
  rewrite Htake.
  change (String "R" ("eleased port " +:+ ds +:+ more))
    with (marker +:+ ds +:+ more) at 1.
  replace (String.prefix marker (marker +:+ ds +:+ more)) with true
    by (symmetry; apply prefix_spec; eauto).
  destruct (String.eqb_spec ds "") as [->|_]; [congruence|]. cbn [andb negb].
  f_equal.
  replace (String.length (marker +:+ ds) - 1)%nat
    with (String.length ("eleased port " +:+ ds))
    by (rewrite !length_append; simpl; lia).
  rewrite <- (append_assoc "eleased port " ds more).
  rewrite match_all_released_skip.
  reflexivity.
Qed.

Lemma report_rows_start (rows : list (string * string)) :
  report_rows rows = "" \/ (exists more, report_rows rows = marker +:+ more).
Proof. destruct rows as [|[ds text] rows]; [now left | right; now eexists]. Qed.

Lemma ends_digit_run_app (text tail : string) :
  ends_digit_run text = true ->
  tail = "" \/ (exists more, tail = marker +:+ more) ->
  ends_digit_run (text +:+ tail) = true.
Proof.
  intros Ht Htail. destruct text as [|c text]; [|exact Ht].
  now destruct Htail as [->|[more ->]].
Qed.

Lemma match_all_released_rows (rows : list (string * string)) :
  well_formed_rows rows ->
  match_all_released O (report_rows rows) = map (fun row => marker +:+ row.1) rows.
Proof.
  intros Hrows. induction Hrows as [|[ds text] rows (Hd & Hne & He & Hno) _ IH].
  - reflexivity.
  - cbn [report_rows map fst snd] in *. fold marker.
    rewrite match_all_released_row
      by (assumption || (apply ends_digit_run_app; [assumption | apply report_rows_start])).
    rewrite match_all_released_text by (assumption || apply report_rows_start).
    now rewrite IH.
Qed.

Lemma match_all_released_report (head : string) (rows : list (string * string)) :
  ~ holds_release head ->
  well_formed_rows rows ->
  match_all_released O (cleanup_report head rows) =
  map (fun row => marker +:+ row.1) rows.
Proof.
  intros Hhead Hrows. unfold cleanup_report.
  rewrite match_all_released_text by (assumption || apply report_rows_start).
  now apply match_all_released_rows.
Qed.

Lemma released_ports_of_rows (rows : list (string * string)) (w : World) :
  well_formed_rows rows ->
  released_ports_of (map (fun row => marker +:+ row.1) rows) w =
  (Resolved (map (fun row => JNum (to_double (decimal_value row.1))) rows), w).
Proof.
  intros Hrows. induction Hrows as [|[ds text] rows (Hd & Hne & He & Hno) _ IH].
  - reflexivity.
  - cbn [map released_ports_of fst snd] in *.
    rewrite <- (append_nil_r (marker +:+ ds)), append_assoc.
    rewrite match_digits_run by (assumption || reflexivity).
    erewrite bind_resolved by exact IH.
    now rewrite parseInt_rounds.
Qed.

Lemma digit_run_split (s : string) :
  exists ds text,
    s = ds +:+ text /\ all_digits ds = true /\ ends_digit_run text = true.
Proof.
  induction s as [|c s (ds & text & Hs & Hd & He)].
  - now exists "", "".
  - destruct (is_digit c) eqn:Hc.
    + exists (String c ds), text. rewrite Hs. repeat split; [|exact He].
      cbn [all_digits]. now rewrite Hc.
    + exists "", (String c s). repeat split. cbn. now rewrite Hc.
Qed.

Lemma holds_release_suffix (a text : string) :
  ~ holds_release (a +:+ text) -> ~ holds_release text.
Proof.
  induction a as [|c a IH]; [trivial|].
  intros H. apply IH. now apply holds_release_tail in H.
Qed.

(** Every text is a cleanup report: what stands before its first release,
    then its releases, each with all of its digits and with what stands
    between it and the next one. *)
Lemma every_output_is_a_report (stdout : string) :
  exists head rows,
    stdout = cleanup_report head rows /\
    ~ holds_release head /\ well_formed_rows rows.
Proof.
  induction stdout as [|c s (head & rows & Hs & Hhead & Hrows)].
  - exists "", []. repeat split; [|constructor].
    intros (before & d & after & H & _). now destruct before.
  - assert (Hcase :
      (exists d r, String c head = marker +:+ String d r /\ is_digit d = true) \/
      ~ holds_release (String c head)).
    { destruct (String.prefix marker (String c head)) eqn:Hp.
      - apply prefix_spec in Hp as [r Hr]. destruct r as [|d r].
        + right. intros (before & d & after & H & Hd).
          destruct before as [|b before].
          * rewrite Hr in H. cbv [marker] in H. cbn [String.append] in H.
            discriminate.
          * injection H as _ H. apply Hhead. now exists before, d, after.
        + destruct (is_digit d) eqn:Hd; [left; now exists d, r|].
          right. intros (before & d' & after & H & Hd').
          destruct before as [|b before].
          * rewrite Hr in H. cbv [marker] in H. cbn [String.append] in H.
            injection H as -> _. congruence.
          * injection H as _ H. apply Hhead. now exists before, d', after.
      - right. intros (before & d & after & H & Hd).
        destruct before as [|b before].
        + assert (String.prefix marker (String c head) = true)
            by (apply prefix_spec; now exists (String d after)).
          congruence.
        + injection H as _ H. apply Hhead. now exists before, d, after. }
    destruct Hcase as [(d & r & Hr & Hd)|Hno].
    + destruct (digit_run_split r) as (ds & text & -> & Hds & He).
      cbv [marker] in Hr. cbn [String.append] in Hr. injection Hr as -> ->.
      exists "", ((String d ds, text) :: rows). split; [|split].
      * unfold cleanup_report in *. cbn [report_rows]. rewrite Hs.
        cbn [String.append]. now rewrite !append_assoc.
      * intros (before & d' & after & H & _). now destruct before.
      * constructor; [|exact Hrows]. cbn [fst snd]. repeat split.
        -- cbn [all_digits]. now rewrite Hd.
        -- discriminate.
        -- exact He.
        -- apply (holds_release_suffix ("eleased port " +:+ String d ds)).
           rewrite append_assoc. exact Hhead.
    + exists (String c head), rows. repeat split; [|exact Hno|exact Hrows].
      unfold cleanup_report in *. now rewrite Hs.
Qed.

Lemma safe_rows (rows : list (string * string)) :
  Forall (fun row => decimal_value row.1 < safe_bound) rows ->
  map (fun row => JNum (to_double (decimal_value row.1))) rows =
  map (fun row => JNum (decimal_value row.1)) rows.
Proof.
  induction 1 as [|row rows Hrow _ IH]; [reflexivity|].
  cbn [map]. now rewrite to_double_safe, IH.
Qed.

(** Every match starts with the marker and goes on with a digit, so the
    callback of [map] never meets a failed match. *)
Lemma match_all_released_digits (s : string) (skip : nat) :
  Forall (fun m => exists ds, match_digits m = Some ds) (match_all_released skip s).
Proof.
  revert skip. induction s as [|c s IH]; intros skip; [constructor|].
  destruct skip as [|k]; [|apply IH].
  rewrite match_all_released_step. unfold released_here.
  destruct (take_while is_digit (drop 14 (String c s))) as [|d ds] eqn:Htake.
  - rewrite andb_false_r. apply IH.
  - destruct (String.prefix marker (String c s)); [|apply IH].
    cbn [andb negb String.eqb]. constructor; [|apply IH].
    assert (Hd : is_digit d = true).
    { clear IH. revert Htake. generalize (drop 14 (String c s)).
      intros [|x t]; [discriminate|]. simpl.
      destruct (is_digit x) eqn:Hx; [|discriminate]. congruence. }
    simpl. rewrite Hd. eauto.
Qed.

Lemma extractReleasedPorts_resolves (output : string) (w : World) :
  exists ports, extractReleasedPorts output w = (Resolved ports, w).
Proof.
  unfold extractReleasedPorts.
  generalize (match_all_released_digits output O).
  generalize (match_all_released O output). intros matches H.
  induction H as [|m matches [ds Hm] _ [ports IH]].
  - now exists [].
  - cbn [released_ports_of]. rewrite Hm.
    erewrite bind_resolved by exact IH. eexists. reflexivity.
Qed.

Variable env : Env.

Lemma cliCleanup_ok (force : bool) (p : option Z) (stdout : string) (w : World) :
  exec env ("styxy " +:+ join " " (cleanup_args force p)) = ExecOk stdout ->
  exists ports w',
    extractReleasedPorts stdout w' = (Resolved ports, w') /\
    cliCleanup env force p w =
    (Resolved (JObj [("released_ports", JArr ports); ("raw_output", JStr stdout)]),
     w').
Proof.
  intros Hexec.
  set (w1 := {| this := this w;
                trace := trace w ++
                  [EvExec ("styxy " +:+ join " " (cleanup_args force p))] |}).
  destruct (extractReleasedPorts_resolves stdout w1) as [ports Hports].
  exists ports, w1. split; [exact Hports|].
  unfold cliCleanup. mrun. rewrite Hexec. fold w1. now rewrite Hports.
Qed.

Lemma cliCleanup_failed (force : bool) (p : option Z) (m out : string) (w : World) :
  exec env ("styxy " +:+ join " " (cleanup_args force p)) = ExecFailed m out ->
  exists w',
    cliCleanup env force p w =
    (Resolved (JObj [("released_ports", JArr []);
                     ("errors", JArr [JStr m]);
                     ("raw_output", JStr out)]), w').
Proof.
  intros Hexec. unfold cliCleanup. mrun. rewrite Hexec. cbn [message error_stdout].
  eexists. destruct out; reflexivity.
Qed.

End Cleanup.

(** C8. For the cleanup command, the ports of the [Released port <N>]
    occurrences of the output are collected, in order, into
    [released_ports]. Every output reads as a text that holds no release
    followed by rows, each the marker [Released port ], all the digits
    that follow it and a text that holds no release, wherever the line
    ends; an output read this way gives the list of the numbers that the
    digits of its rows write, each the integer itself when it is below
    2^53 and the double nearest to it in general. When the command line
    fails the call still resolves, with an empty [released_ports] and the
    message of the failure in [errors]. *)
Theorem cleanup_fallback_released_ports (env : Env) (w : World)
    (force : bool) (p : option Z) (session : option string) :
  (forall stdout, exists head rows,
     stdout = cleanup_report head rows /\
     ~ holds_release head /\ well_formed_rows rows) /\
  (forall head rows,
     ~ holds_release head ->
     well_formed_rows rows ->
     exec env ("styxy " +:+ join " " (cleanup_args force p))
       = ExecOk (cleanup_report head rows) ->
     exists r w',
       fallbackToCliCommand env (Cleanup force p session) w = (Resolved r, w') /\
       get "released_ports" r =
         JArr (map (fun row => JNum (to_double (decimal_value row.1))) rows) /\
       (Forall (fun row => decimal_value row.1 < safe_bound) rows ->
        get "released_ports" r =
          JArr (map (fun row => JNum (decimal_value row.1)) rows))) /\
  (forall m out,
     exec env ("styxy " +:+ join " " (cleanup_args force p)) = ExecFailed m out ->
     exists r w',
       fallbackToCliCommand env (Cleanup force p session) w = (Resolved r, w') /\
       get "released_ports" r = JArr [] /\
       get "errors" r = JArr [JStr m]).
Proof.
  split; [exact every_output_is_a_report|]. split.
  - intros head rows Hhead Hrows Hexec. rewrite fallback_cleanup.
    destruct (cliCleanup_ok env force p _ (entered (Cleanup force p session) w) Hexec)
      as (ports & w' & Hports & Hrun).
    rewrite Hrun. eexists _, _. split; [reflexivity|].
    unfold extractReleasedPorts in Hports.
    rewrite match_all_released_report, released_ports_of_rows in Hports
      by assumption.
    injection Hports as <-. split; [reflexivity|].
    intros Hsafe. cbn. now rewrite safe_rows.
  - intros m out Hexec. rewrite fallback_cleanup.
    destruct (cliCleanup_failed env force p m out
                (entered (Cleanup force p session) w) Hexec) as (w' & Hrun).
    rewrite Hrun. eexists _, _. repeat split.
Qed.

(** [cleanup({force: true})] against an output with two [Released port]
    lines gives the two ports. *)
Lemma cleanup_fallback_witness :
  exists r w',
    cleanup (Demo.machine Demo.cli_working) (Some true) None Demo.fresh
      = (Resolved r, w') /\
    get "released_ports" r = JArr [JNum 3000; JNum 3001].
Proof.
  destruct (cleanup_fallback_released_ports (Demo.machine Demo.cli_working)
              Demo.fresh true None None) as (_ & H & _).
  destruct (H ("Cleaning up" +:+ NL) [("3000", NL); ("3001", NL)])
    as (r & w' & Hr & _ & Hp).
  - now apply no_marker_no_release.
  - repeat constructor; try discriminate; now apply no_marker_no_release.
  - reflexivity.
  - exists r, w'. split; [exact Hr|]. apply Hp. repeat constructor.
Defined.

(** A release is collected wherever it stands in its line; a marker that
    no digit follows is passed over. *)
Example released_ports_between_text :
  extractReleasedPorts
    ("Released port 3000 (web)" +:+ NL +:+ "Released port none" +:+ NL +:+
     "ok: Released port 3001.") Demo.fresh
  = (Resolved [JNum 3000; JNum 3001], Demo.fresh).
Proof. reflexivity. Qed.

(** *** The shape of the results *)

Section Shapes.
Variable env : Env.

Lemma cliAllocatePort_fields (context : Context) (preferences : Preferences)
    (w w' : World) (r : jsval) :
  cliAllocatePort env context preferences w = (Resolved r, w') ->
  keys r = allocate_fields.
Proof.
  unfold cliAllocatePort. mrun.
  destruct (exec env _); [|discriminate].
  destruct (cliAllocatePort_port _ _) as [[p|e] w1]; [|discriminate].
  destruct (negb (truthy p)); [discriminate|].
  intros H. injection H as <- _. reflexivity.
Qed.

Lemma cliGetStatus_fields (w w' : World) (r : jsval) :
  cliGetStatus env w = (Resolved r, w') ->
  match status_path_of env with
  | Structured v => r = v
  | PlainText => keys r = status_text_fields
  | Degraded => keys r = status_degraded_fields
  end.
Proof.
  unfold cliGetStatus, status_path_of. mrun.
  destruct (exec env "styxy status --json") as [stdout|m o].
  - destruct (JSON_parse env stdout).
    + intros H. now injection H as <- _.
    + destruct (exec env "styxy status"); intros H; now injection H as <- _.
  - destruct (exec env "styxy status"); intros H; now injection H as <- _.
Qed.

End Shapes.

(** C3, as the code has it. The field set of a result of the fallback is
    fixed by the command type together with the return that produced it.
    An allocate result has the seven fields of [allocate_fields]. A status
    result is the parsed output of [styxy status --json] as it is, or has
    the fields of [status_text_fields] when the plain output was parsed, or
    those of [status_degraded_fields] when both invocations failed. A
    cleanup result has [released_ports] and [raw_output], and [errors] as
    well when the command line failed. No other command type has a
    result. *)
Theorem fallback_result_fields (env : Env) (c : Command) (w w' : World) (r : jsval) :
  fallbackToCliCommand env c w = (Resolved r, w') ->
  match c with
  | Allocate _ _ _ => keys r = allocate_fields
  | Status _ _ =>
      match status_path_of env with
      | Structured v => r = v
      | PlainText => keys r = status_text_fields
      | Degraded => keys r = status_degraded_fields
      end
  | Cleanup force p _ =>
      match exec env ("styxy " +:+ join " " (cleanup_args force p)) with
      | ExecOk _ => keys r = cleanup_ok_fields
      | ExecFailed _ _ => keys r = cleanup_failed_fields
      end
  | Logs _ _ _ _ | Metrics _ _ => False
  end.
Proof.
  destruct c as [context preferences metadata| | |force p session|].
  - rewrite fallback_allocate. apply cliAllocatePort_fields.
  - rewrite fallback_status. apply cliGetStatus_fields.
  - discriminate.
  - rewrite fallback_cleanup.
    destruct (exec env ("styxy " +:+ join " " (cleanup_args force p)))
      as [stdout|m out] eqn:Hexec.
    + destruct (cliCleanup_ok env force p stdout
                  (entered (Cleanup force p session) w) Hexec)
        as (ports & w1 & _ & ->).
      intros H. now injection H as <- _.
    + destruct (cliCleanup_failed env force p m out
                  (entered (Cleanup force p session) w) Hexec) as (w1 & ->).
      intros H. now injection H as <- _.
  - discriminate.
Qed.

(** On a machine whose command line knows no [--json] flag, the status
    result has the fields of the plain-text parse. *)
Lemma fallback_result_fields_witness :
  exists r w',
    fallbackToCliCommand (Demo.machine Demo.cli_working) (Status true true) Demo.fresh
      = (Resolved r, w') /\
    keys r = status_text_fields.
Proof.
  eexists _, _. split; [reflexivity|].
  exact (fallback_result_fields (Demo.machine Demo.cli_working) (Status true true)
           Demo.fresh _ _ eq_refl).
Defined.

(** C3, as the specification states it, fails: three status results, one
    from the plain-text parse, one degraded, one from the socket, have
    three different field sets. *)
Lemma result_fields_depend_on_path :
  exists r_text r_degraded r_socket w1 w2 w3,
    sendDaemonCommand (Demo.machine Demo.cli_working) (Status true true) Demo.fresh
      = (Resolved r_text, w1) /\
    sendDaemonCommand (Demo.machine Demo.cli_missing) (Status true true) Demo.fresh
      = (Resolved r_degraded, w2) /\
    sendDaemonCommand (Demo.machine_with Demo.cli_working Demo.daemon_answer)
      (Status true true) Demo.connected
      = (Resolved r_socket, w3) /\
    keys r_text <> keys r_degraded /\
    keys r_socket <> keys r_text /\
    keys r_socket <> keys r_degraded.
Proof.
  do 6 eexists. split; [reflexivity|]. split; [reflexivity|].
  split; [vm_compute; reflexivity|]. repeat split; discriminate.
Qed.

(** *** The plain-text status *)

(** C10. [parseStatusOutput] reports [daemon_running] as [true] exactly
    when the output contains neither [not running] nor [failed]. So an
    output that mentions [failed] anywhere is reported as a daemon that is
    not running, also through [cliGetStatus] when the command line
    succeeded. *)
Theorem parseStatusOutput_daemon_running (output : string) :
  (get "daemon_running" (parseStatusOutput output) = JBool true <->
   ~ contains "not running" output /\ ~ contains "failed" output) /\
  (contains "failed" output ->
   get "daemon_running" (parseStatusOutput output) = JBool false /\
   forall env w m o,
     exec env "styxy status --json" = ExecFailed m o ->
     exec env "styxy status" = ExecOk output ->
     exists r w', cliGetStatus env w = (Resolved r, w') /\
                  get "daemon_running" r = JBool false).
Proof.
  assert (Hget : get "daemon_running" (parseStatusOutput output) =
                 JBool (negb (includes "not running" output) &&
                        negb (includes "failed" output))) by reflexivity.
  split.
  - rewrite Hget, <- !StringFacts.includes_false.
    destruct (includes "not running" output), (includes "failed" output);
      cbn; split; try intros [? ?]; try intros ?; try discriminate; auto.
  - intros Hfailed. apply StringFacts.includes_spec in Hfailed.
    assert (Hoff : get "daemon_running" (parseStatusOutput output) = JBool false).
    { rewrite Hget, Hfailed. now rewrite andb_false_r. }
    split; [exact Hoff|].
    intros env w m o H1 H2. eexists _, _. split; [|exact Hoff].
    unfold cliGetStatus. mrun. now rewrite H1, H2.
Qed.

(** A status text of a running daemon that logs one failed allocation. *)
Lemma parseStatusOutput_daemon_running_witness :
  get "daemon_running"
      (parseStatusOutput ("Daemon is up" +:+ NL +:+ "PID: 812" +:+ NL +:+
                          "Last error: allocation failed for demo" +:+ NL))
  = JBool false.
Proof.
  apply parseStatusOutput_daemon_running.
  exists ("Daemon is up" +:+ NL +:+ "PID: 812" +:+ NL +:+
          "Last error: allocation "), (" for demo" +:+ NL).
  reflexivity.
Defined.

End ClientProps.

(** ** More on the singleton lock *)

Module SingletonExtra.
Import Singleton Scenarios.

Section Lock.
Variable env : Env.

Lemma mkdirSync_keeps (dir : string) (w w1 : World) :
  mkdirSync env dir w = Some w1 ->
  files w1 = files w /\ handler_sets w1 = handler_sets w /\ console w1 = console w.
Proof.
  unfold mkdirSync. destruct (throws env MkdirSync dir); [discriminate|].
  intros H. injection H as <-. repeat split.
Qed.

Lemma readLockFile_keeps (this : Lock) (w : World) :
  files (readLockFile env this w).2 = files w /\
  handler_sets (readLockFile env this w).2 = handler_sets w /\
  console (readLockFile env this w).2 = console w.
Proof.
  unfold readLockFile, readFileSync.
  destruct (throws env ReadFileSync (lockFile this)); [repeat split|].
  destruct (files w !! lockFile this); repeat split.
Qed.

Lemma cleanup_keeps_handlers (this : Lock) (w : World) :
  handler_sets (cleanup env this w) = handler_sets w.
Proof.
  unfold cleanup, unlinkSync. destruct (existsSync _ _); [|reflexivity].
  destruct (throws env UnlinkSync (lockFile this)); [reflexivity|].
  destruct (files w !! lockFile this); reflexivity.
Qed.

Lemma failed_write_keeps (path : string) (w : World) :
  handler_sets (failed_write env path w) = handler_sets w /\
  console (failed_write env path w) = console w /\
  calls (failed_write env path w) = calls w.
Proof. unfold failed_write. destruct (write_residue env path); repeat split. Qed.

Lemma writeFileSync_written (path content : string) (w w1 : World) :
  writeFileSync env path content w = Some w1 ->
  files w1 = <[path := content]> (files w) /\
  handler_sets w1 = handler_sets w /\ console w1 = console w.
Proof.
  unfold writeFileSync. destruct (throws env WriteFileSync path); [discriminate|].
  intros H. injection H as <-. repeat split.
Qed.


(** What [acquire()] leaves, by its answer. *)
Lemma acquire_inv (this this1 : Lock) (w w1 : World) (b : bool) :
  acquire env this w = (b, this1, w1) ->
  this1 = (if b then set_acquired true this else this) /\
  handler_sets w1 = (if b then S (handler_sets w) else handler_sets w) /\
  (b = true ->
   files w1 !! lockFile this = Some (JSON_stringify env (lock_record env this))).
Proof.
  unfold acquire.
  destruct (mkdirSync env (lockDir this) w) as [w0|] eqn:Hmk;
    [|intros H; injection H as <- <- <-; repeat split; discriminate].
  apply mkdirSync_keeps in Hmk as (_ & Hh0 & _).
  assert (Hwrite : forall w2, handler_sets w2 = handler_sets w ->
    match writeFileSync env (lockFile this)
            (JSON_stringify env (lock_record env this)) w2 with
    | Some w3 => (true, set_acquired true this,
                  console_log (LogAcquired (pid this)) (setupCleanupHandlers w3))
    | None =>
        (false, this,
         console_log LogAcquireFailed (failed_write env (lockFile this) w2))
    end = (b, this1, w1) ->
    this1 = (if b then set_acquired true this else this) /\
    handler_sets w1 = (if b then S (handler_sets w) else handler_sets w) /\
    (b = true ->
     files w1 !! lockFile this = Some (JSON_stringify env (lock_record env this)))).
  { intros w2 Hh2.
    destruct (writeFileSync env _ _ w2) as [w3|] eqn:Hwr;
      intros H; injection H as <- <- <-.
    - apply writeFileSync_written in Hwr as (Hf & Hh3 & _).
      repeat split; cbn; [congruence|]. intros _. rewrite Hf. apply lookup_insert_eq.
    - repeat split; [|discriminate]. cbn [handler_sets console_log].
      now rewrite (proj1 (failed_write_keeps _ _)). }
  destruct (existsSync (lockFile this) w0).
  - destruct (readLockFile env this w0) as [lockData w0'] eqn:Hread.
    pose proof (readLockFile_keeps this w0) as (_ & Hh & _).
    rewrite Hread in Hh. cbn [snd] in Hh.
    destruct (truthy lockData && isProcessRunning env (get "pid" lockData)).
    + intros H; injection H as <- <- <-. repeat split; [cbn; congruence | discriminate].
    + apply Hwrite. rewrite cleanup_keeps_handlers. cbn. congruence.
  - now apply Hwrite.
Qed.

End Lock.

(** X1. [acquire()] answers [true] only when the lock file holds the record
    of this process; it then marks the lock as held and installs one more
    set of exit handlers. When it answers [false] the lock object is as it
    was and no handler is installed. This holds whatever the file system
    does. *)
Theorem acquire_result_sound (env : Env) (this : Lock) (w : World) :
  match acquire env this w with
  | (true, this', w') =>
      this' = set_acquired true this /\
      files w' !! lockFile this = Some (JSON_stringify env (lock_record env this)) /\
      handler_sets w' = S (handler_sets w)
  | (false, this', w') =>
      this' = this /\ handler_sets w' = handler_sets w
  end.
Proof.
  unfold acquire.
  destruct (mkdirSync env (lockDir this) w) as [w1|] eqn:Hmk; [|split; reflexivity].
  apply mkdirSync_keeps in Hmk as (_ & Hh1 & _).
  assert (Hwrite : forall w2, handler_sets w2 = handler_sets w ->
    match
      match writeFileSync env (lockFile this)
              (JSON_stringify env (lock_record env this)) w2 with
      | Some w3 => (true, set_acquired true this,
                    console_log (LogAcquired (pid this)) (setupCleanupHandlers w3))
      | None =>
          (false, this,
           console_log LogAcquireFailed (failed_write env (lockFile this) w2))
      end
    with
    | (true, this', w') =>
        this' = set_acquired true this /\
        files w' !! lockFile this =
          Some (JSON_stringify env (lock_record env this)) /\
        handler_sets w' = S (handler_sets w)
    | (false, this', w') => this' = this /\ handler_sets w' = handler_sets w
    end).
  { intros w2 Hh2.
    destruct (writeFileSync env _ _ w2) as [w3|] eqn:Hwr.
    - apply writeFileSync_written in Hwr as (Hf & Hh3 & _).
      repeat split; cbn.
      + rewrite Hf. apply lookup_insert_eq.
      + congruence.
    - split; [reflexivity|]. cbn [handler_sets console_log].
      now rewrite (proj1 (failed_write_keeps env _ _)). }
  destruct (existsSync (lockFile this) w1).
  - destruct (readLockFile env this w1) as [lockData w1'] eqn:Hread.
    pose proof (readLockFile_keeps env this w1) as (_ & Hh & _).
    rewrite Hread in Hh. cbn [snd] in Hh.
    destruct (truthy lockData && isProcessRunning env (get "pid" lockData)).
    + split; [reflexivity|]. cbn. congruence.
    + apply Hwrite. rewrite cleanup_keeps_handlers. cbn. congruence.
  - now apply Hwrite.
Qed.

(** X2. A process that finds the lock held by a live process does not get
    it, and its [release()] afterwards removes nothing: the lock file of the
    holder is still there, unchanged. *)
Theorem blocked_then_release_keeps_holder
    (env : Env) (this : Lock) (w : World) (content : string) (v : jsval) :
  acquired this = false ->
  throws env MkdirSync (lockDir this) = false ->
  throws env ReadFileSync (lockFile this) = false ->
  files w !! lockFile this = Some content ->
  JSON_parse env content = Some v ->
  truthy v = true ->
  process_kill0 env (get "pid" v) = true ->
  exists this1 w1,
    acquire env this w = (false, this1, w1) /\
    release env this1 w1 = (this1, w1) /\
    files w1 = files w /\
    calls w1 = (calls w ++ [(MkdirSync, lockDir this);
                            (ReadFileSync, lockFile this)])%list.
Proof.
  intros Hacq Hmk Hrd Hf Hp Ht Hk.
  unfold acquire, mkdirSync. rewrite Hmk. cbn zeta.
  erewrite SingletonProps.existsSync_true by exact Hf.
  unfold readLockFile, readFileSync. rewrite Hrd. cbn [files completed].
  rewrite Hf, Hp. simpl (default _ _). unfold isProcessRunning. rewrite Ht, Hk.
  cbn [andb]. eexists _, _. split; [reflexivity|]. split.
  - unfold release. now rewrite Hacq.
  - split; [reflexivity|]. cbn. now rewrite <- app_assoc.
Qed.

Lemma blocked_then_release_witness :
  exists this1 w1,
    acquire Demo.host Demo.the_lock Demo.held_world = (false, this1, w1) /\
    release Demo.host this1 w1 = (this1, w1) /\
    files w1 = files Demo.held_world.
Proof.
  destruct (blocked_then_release_keeps_holder Demo.host Demo.the_lock Demo.held_world
              (Demo.JSON_stringify
                 (JObj [("pid", JNum 4242); ("started", JStr "2024");
                        ("hostname", JStr "devbox");
                        ("command", JStr "node index.js")]))
              (JObj [("pid", JNum 4242); ("started", JStr "2024");
                     ("hostname", JStr "devbox");
                     ("command", JStr "node index.js")]))
    as (this1 & w1 & H1 & H2 & H3 & _); [vm_compute; reflexivity .. |].
  exists this1, w1. auto.
Defined.

(** X3. When the delete does not fail, [release()] of a held lock removes
    the lock file and marks the lock as not held, and a second [release()]
    does nothing at all. *)
Theorem release_idempotent (env : Env) (this : Lock) (w : World) :
  acquired this = true ->
  throws env UnlinkSync (lockFile this) = false ->
  exists this1 w1,
    release env this w = (this1, w1) /\
    acquired this1 = false /\
    files w1 !! lockFile this = None /\
    release env this1 w1 = (this1, w1).
Proof.
  intros Hacq Hun. unfold release at 1. rewrite Hacq. cbn [negb].
  unfold existsSync, unlinkSync. rewrite Hun.
  destruct (files w !! lockFile this) as [c|] eqn:Hf.
  - rewrite bool_decide_eq_true_2 by eauto.
    eexists _, _. split; [reflexivity|]. repeat split.
    cbn. apply lookup_delete_eq.
  - rewrite bool_decide_eq_false_2 by (intros [x Hx]; discriminate).
    eexists _, _. split; [reflexivity|]. repeat split. exact Hf.
Qed.

Lemma release_idempotent_witness :
  exists this1 w1,
    release Demo.host (set_acquired true Demo.the_lock) Demo.held_world = (this1, w1) /\
    files w1 !! Demo.lock_path = None /\
    release Demo.host this1 w1 = (this1, w1).
Proof.
  destruct (release_idempotent Demo.host (set_acquired true Demo.the_lock)
              Demo.held_world) as (this1 & w1 & H1 & _ & H2 & H3);
    [vm_compute; reflexivity .. |].
  exists this1, w1. auto.
Defined.

(** X4. After [acquire()] has answered [true], [getLockInfo()] reads back
    the record of this process, provided the read does not fail and
    [JSON.parse] inverts [JSON.stringify] on that record. *)
Theorem getLockInfo_after_acquire (env : Env) (this this1 : Lock) (w w1 : World) :
  throws env ReadFileSync (lockFile this) = false ->
  JSON_parse env (JSON_stringify env (lock_record env this)) =
    Some (lock_record env this) ->
  acquire env this w = (true, this1, w1) ->
  (getLockInfo env this1 w1).1 = lock_record env this /\
  get "pid" (getLockInfo env this1 w1).1 = JNum (pid this).
Proof.
  intros Hrd Hjson Hacq.
  destruct (acquire_inv env this this1 w w1 true Hacq) as (-> & _ & Hf).
  specialize (Hf eq_refl).
  assert (Hinfo : (getLockInfo env (set_acquired true this) w1).1 =
                  lock_record env this).
  { unfold getLockInfo. cbn [lockFile set_acquired].
    erewrite SingletonProps.existsSync_true by exact Hf. cbn [negb].
    unfold readLockFile, readFileSync. cbn [lockFile set_acquired].
    rewrite Hrd, Hf, Hjson. reflexivity. }
  rewrite Hinfo. split; reflexivity.
Qed.

Lemma getLockInfo_after_acquire_witness :
  get "pid" (getLockInfo Demo.host
               (acquire Demo.host Demo.the_lock Demo.empty_world).1.2
               (acquire Demo.host Demo.the_lock Demo.empty_world).2).1
  = JNum 4242.
Proof.
  apply (getLockInfo_after_acquire Demo.host Demo.the_lock _ Demo.empty_world).
  - reflexivity.
  - vm_compute. reflexivity.
  - vm_compute. reflexivity.
Defined.

(** X5. A stale lock file that cannot be deleted does not stop
    [acquire()]: the failure of the delete is reported on the console, the
    file is overwritten with the new record, and the answer is [true]. *)
Theorem acquire_stale_delete_fails
    (env : Env) (this : Lock) (w : World) (content : string) :
  throws env MkdirSync (lockDir this) = false ->
  throws env ReadFileSync (lockFile this) = false ->
  throws env UnlinkSync (lockFile this) = true ->
  throws env WriteFileSync (lockFile this) = false ->
  files w !! lockFile this = Some content ->
  stale env content ->
  exists w',
    acquire env this w = (true, set_acquired true this, w') /\
    files w' = <[lockFile this := JSON_stringify env (lock_record env this)]> (files w) /\
    console w' = (console w ++ [LogStale; LogCleanupFailed;
                                LogAcquired (pid this)])%list /\
    calls w' = (calls w ++ [(MkdirSync, lockDir this);
                            (ReadFileSync, lockFile this);
                            (WriteFileSync, lockFile this)])%list.
Proof.
  intros Hmk Hrd Hun Hwr Hf Hstale. unfold acquire, mkdirSync.
  rewrite Hmk. cbn zeta.
  erewrite SingletonProps.existsSync_true by exact Hf.
  unfold readLockFile, readFileSync. rewrite Hrd. cbn [files completed].
  rewrite Hf.
  assert (Hdead : truthy (default JNull (JSON_parse env content)) &&
                  isProcessRunning env
                    (get "pid" (default JNull (JSON_parse env content))) = false).
  { destruct Hstale as [Hp|(v & Hp & Hk)]; rewrite Hp; simpl (default _ _).
    - reflexivity.
    - unfold isProcessRunning. rewrite Hk. apply andb_false_r. }
  rewrite Hdead. unfold cleanup.
  erewrite SingletonProps.existsSync_true by (cbn [files console_log completed]; exact Hf).
  unfold unlinkSync. rewrite Hun. unfold writeFileSync. rewrite Hwr.
  eexists. split; [reflexivity|].
  cbn [calls files console console_log completed setupCleanupHandlers].
  repeat split; rewrite <- ?app_assoc; reflexivity.
Qed.

Lemma acquire_stale_delete_fails_witness :
  (acquire Demo.host_no_unlink Demo.the_lock Demo.stale_world).1.1 = true.
Proof.
  destruct (acquire_stale_delete_fails Demo.host_no_unlink Demo.the_lock
              Demo.stale_world
              (Demo.JSON_stringify
                 (JObj [("pid", JNum 17); ("started", JStr "2024");
                        ("hostname", JStr "devbox");
                        ("command", JStr "node index.js")])))
    as (w' & Hacq & _).
  - reflexivity.
  - reflexivity.
  - reflexivity.
  - reflexivity.
  - vm_compute. reflexivity.
  - right. eexists. split; vm_compute; reflexivity.
  - rewrite Hacq. reflexivity.
Defined.

(** X6. Starting without a lock file and with no fault of the file
    system, [acquire()] followed by [release()] can be repeated any number
    of times: each round leaves the files as they were and the lock not
    held, and each round installs one more set of exit handlers, which no
    [release()] takes away. *)
Theorem rounds_restore_files (env : Env) (n : nat) (this : Lock) (w : World) :
  no_faults env ->
  acquired this = false ->
  files w !! lockFile this = None ->
  files (rounds env n this w).2 = files w /\
  (rounds env n this w).1 = this /\
  handler_sets (rounds env n this w).2 = (handler_sets w + n)%nat.
Proof.
  intros Hio. revert this w. induction n as [|n IH]; intros this w Hacq Hf.
  - cbn. repeat split. lia.
  - cbn [rounds].
    assert (Hround : exists w2,
              acquire env this w =
                (true, set_acquired true this,
                 console_log (LogAcquired (pid this))
                   (setupCleanupHandlers
                      (completed WriteFileSync (lockFile this)
                         (<[lockFile this := JSON_stringify env (lock_record env this)]>
                            (files w))
                         (dirs (completed MkdirSync (lockDir this) (files w)
                                  ({[lockDir this]} ∪ dirs w) w))
                         (completed MkdirSync (lockDir this) (files w)
                            ({[lockDir this]} ∪ dirs w) w)))) /\
              release env (set_acquired true this)
                (console_log (LogAcquired (pid this))
                   (setupCleanupHandlers
                      (completed WriteFileSync (lockFile this)
                         (<[lockFile this := JSON_stringify env (lock_record env this)]>
                            (files w))
                         (dirs (completed MkdirSync (lockDir this) (files w)
                                  ({[lockDir this]} ∪ dirs w) w))
                         (completed MkdirSync (lockDir this) (files w)
                            ({[lockDir this]} ∪ dirs w) w)))) = (this, w2) /\
              files w2 = files w /\ handler_sets w2 = S (handler_sets w)).
    { eexists. split.
      - unfold acquire, mkdirSync. rewrite Hio. cbn zeta.
        erewrite SingletonProps.existsSync_false by exact Hf.
        unfold writeFileSync. rewrite Hio. reflexivity.
      - unfold release. cbn [acquired set_acquired negb lockFile].
        unfold existsSync, unlinkSync. rewrite Hio.
        cbn [files console_log setupCleanupHandlers completed].
        rewrite lookup_insert_eq.
        rewrite bool_decide_eq_true_2 by eauto.
        split; [|split].
        + f_equal. destruct this; cbn in *. now subst.
        + cbn. now apply delete_insert_id.
        + reflexivity. }
    destruct Hround as (w2 & -> & -> & Hf2 & Hh2).
    destruct (IH this w2 Hacq) as (H1 & H2 & H3); [now rewrite Hf2|].
    rewrite H1, H2, H3, Hf2, Hh2. repeat split. lia.
Qed.

Lemma rounds_witness :
  files (rounds Demo.host 3 Demo.the_lock Demo.empty_world).2 = ∅ /\
  handler_sets (rounds Demo.host 3 Demo.the_lock Demo.empty_world).2 = 3%nat.
Proof.
  destruct (rounds_restore_files Demo.host 3 Demo.the_lock Demo.empty_world)
    as (H1 & _ & H3).
  - intros call path. reflexivity.
  - reflexivity.
  - reflexivity.
  - split; [exact H1 | exact H3].
Defined.

End SingletonExtra.

(** ** More on the client: the channel *)

Module ChannelExtra.
Import Client Spec Aux Scenarios ClientProps.

Lemma offline_ret {A} (a : A) : offline (ret a).
Proof. intros w. split; [reflexivity|]. exists []. split; [now rewrite app_nil_r | constructor]. Qed.

Lemma offline_throw {A} (e : exn) : offline (@throw A e).
Proof. intros w. split; [reflexivity|]. exists []. split; [now rewrite app_nil_r | constructor]. Qed.

Lemma offline_bind {A B} (m : M A) (k : A -> M B) :
  offline m -> (forall a, offline (k a)) -> offline (m ≫= k).
Proof.
  intros Hm Hk w. unfold mbind, M_bind, bind.
  destruct (Hm w) as (H1 & evs1 & H2 & H3).
  destruct (m w) as [[a|e] w1]; cbn [snd] in *.
  - destruct (Hk a w1) as (H4 & evs2 & H5 & H6). split; [congruence|].
    exists (evs1 ++ evs2)%list. split.
    + rewrite H5, H2. now rewrite app_assoc.
    + now apply Forall_app.
  - split; [assumption|]. eauto.
Qed.

Lemma offline_try {A} (m : M A) (h : exn -> M A) :
  offline m -> (forall e, offline (h e)) -> offline (try_catch m h).
Proof.
  intros Hm Hh w. unfold try_catch.
  destruct (Hm w) as (H1 & evs1 & H2 & H3).
  destruct (m w) as [[a|e] w1]; cbn [snd] in *.
  - split; [assumption|]. eauto.
  - destruct (Hh e w1) as (H4 & evs2 & H5 & H6). split; [congruence|].
    exists (evs1 ++ evs2)%list. split.
    + rewrite H5, H2. now rewrite app_assoc.
    + now apply Forall_app.
Qed.

Lemma offline_emit (ev : event) : is_socket_event ev = false -> offline (emit ev).
Proof.
  intros Hev w. split; [reflexivity|]. exists [ev]. split; [reflexivity|].
  now repeat constructor.
Qed.

Section Env.
Variable env : Env.

Lemma offline_execAsync (cmd : string) : offline (execAsync env cmd).
Proof.
  unfold execAsync. apply offline_bind; [now apply offline_emit|].
  intros _. destruct (exec env cmd); [apply offline_ret | apply offline_throw].
Qed.

Lemma offline_released_ports_of (matches : list string) :
  offline (released_ports_of matches).
Proof.
  induction matches as [|m matches IH]; cbn [released_ports_of].
  - apply offline_ret.
  - destruct (match_digits m); [|apply offline_throw].
    apply offline_bind; [exact IH|]. intros ports. apply offline_ret.
Qed.

Lemma offline_fallback (c : Command) : offline (fallbackToCliCommand env c).
Proof.
  unfold fallbackToCliCommand. apply offline_bind; [now apply offline_emit|].
  intros _. destruct c as [context preferences metadata| | |force p session|].
  - unfold cliAllocatePort. apply offline_try; [|intros e; apply offline_throw].
    apply offline_bind; [apply offline_execAsync|]. intros stdout.
    apply offline_bind.
    + unfold cliAllocatePort_port. destruct (List.find _ _) as [line|]; [|apply offline_ret].
      destruct (truthy (JStr line)); [|apply offline_ret].
      destruct (match_digits line); [apply offline_ret | apply offline_throw].
    + intros p. destruct (negb (truthy p)); [apply offline_throw | apply offline_ret].
  - unfold cliGetStatus. apply offline_try.
    + apply offline_bind; [apply offline_execAsync|]. intros stdout.
      unfold JSON_parse_m. destruct (JSON_parse env stdout);
        [apply offline_ret | apply offline_throw].
    + intros _. apply offline_try; [|intros e; apply offline_ret].
      apply offline_bind; [apply offline_execAsync|]. intros stdout. apply offline_ret.
  - apply offline_throw.
  - unfold cliCleanup. apply offline_try; [|intros e; apply offline_ret].
    apply offline_bind; [apply offline_execAsync|]. intros stdout.
    apply offline_bind; [apply offline_released_ports_of|]. intros ports.
    apply offline_ret.
  - apply offline_throw.
Qed.

Lemma not_open_rejects (w : World) :
  ~ socket_open w -> connectToDaemon env w = (Rejected stack_overflow, w).
Proof. apply connectToDaemon_not_open. Qed.

Lemma send_not_open (c : Command) (w : World) :
  ~ socket_open w -> sendDaemonCommand env c w = fallbackToCliCommand env c w.
Proof.
  intros H. apply (sendDaemonCommand_unreachable env c w w stack_overflow).
  now apply not_open_rejects.
Qed.

End Env.

(** X7. A client whose socket is not open never opens one. However many
    commands are sent, each goes to the command-line translator, in the
    order they were sent; the client stays as it was, and no connection is
    attempted and nothing is written to a socket. *)
Theorem every_command_falls_back (env : Env) (cs : list Command) (w : World) :
  ~ socket_open w ->
  this (send_all env cs w) = this w /\
  fallback_calls (trace (send_all env cs w)) = (fallback_calls (trace w) ++ cs)%list /\
  exists evs, trace (send_all env cs w) = (trace w ++ evs)%list /\
              Forall (fun ev => is_socket_event ev = false) evs.
Proof.
  revert w. induction cs as [|c cs IH]; intros w Hw.
  - cbn. repeat split; [now rewrite app_nil_r|].
    exists []. split; [now rewrite app_nil_r | constructor].
  - cbn [send_all]. rewrite send_not_open by exact Hw.
    destruct (offline_fallback env c w) as (Hthis & evs1 & Ht1 & Hs1).
    destruct (fallback_enters_once env c w) as [_ Hcalls].
    destruct (IH (fallbackToCliCommand env c w).2) as (H1 & H2 & evs2 & H3 & H4).
    { unfold socket_open. now rewrite Hthis. }
    split; [congruence|]. split.
    + rewrite H2, Hcalls. now rewrite <- app_assoc.
    + exists (evs1 ++ evs2)%list. split.
      * rewrite H3, Ht1. now rewrite app_assoc.
      * now apply Forall_app.
Qed.

Lemma every_command_falls_back_witness :
  fallback_calls
    (trace (send_all (Demo.machine Demo.cli_working)
              [Status true true; Cleanup true None None; Metrics "24h" true]
              Demo.fresh))
  = [Status true true; Cleanup true None None; Metrics "24h" true].
Proof.
  apply (every_command_falls_back (Demo.machine Demo.cli_working)
           [Status true true; Cleanup true None None; Metrics "24h" true]
           Demo.fresh).
  discriminate.
Defined.

Section Settle.
Variable env : Env.

Lemma settle_chunks (chunks : list string) (later : list socket_event)
    (response : string) :
  (forall k, (k <= length chunks)%nat -> (0 < k)%nat ->
     JSON_parse env (response +:+ concat_chunks (firstn k chunks)) = None) ->
  settle env response (map Data chunks ++ later) =
  settle env (response +:+ concat_chunks chunks) later.
Proof.
  revert response. induction chunks as [|chunk chunks IH]; intros response Hnone.
  - cbn. now rewrite StringFacts.append_nil_r.
  - cbn [map app settle concat_chunks].
    pose proof (Hnone 1%nat) as H1. cbn in H1.
    rewrite StringFacts.append_nil_r in H1. rewrite H1 by lia.
    rewrite <- StringFacts.append_assoc. apply IH.
    intros k Hk Hpos. rewrite StringFacts.append_assoc.
    apply (Hnone (S k)); cbn; lia.
Qed.

End Settle.

(** X8. The listeners on the socket put the chunks together: when the
    chunks received so far decode for the first time once the last of
    [chunks] has arrived, the call resolves with the decoded value,
    whatever the socket delivers afterwards. When no such moment comes
    before an [error] event, the call rejects with that error. *)
Theorem settle_reassembles (env : Env) (chunks : list string) (last : string)
    (later : list socket_event) :
  (forall k, (k <= length chunks)%nat -> (0 < k)%nat ->
     JSON_parse env (concat_chunks (firstn k chunks)) = None) ->
  (forall v, JSON_parse env (concat_chunks chunks +:+ last) = Some v ->
     settle env "" (map Data (chunks ++ [last]) ++ later) = Resolved v) /\
  (forall e, settle env "" (map Data chunks ++ SocketError e :: later) = Rejected e).
Proof.
  intros Hnone. split.
  - intros v Hv. rewrite map_app, <- app_assoc.
    rewrite settle_chunks by exact Hnone. cbn. now rewrite Hv.
  - intros e. rewrite settle_chunks by exact Hnone. reflexivity.
Qed.

Lemma settle_reassembles_witness :
  settle (Demo.machine Demo.cli_working) ""
    (Demo.daemon_answer ++ [SocketError (Error "read ECONNRESET")])
  = Resolved (JObj [("daemon_running", JNum 1); ("pid", JNum 812)]).
Proof.
  destruct (settle_reassembles (Demo.machine Demo.cli_working)
              ["{ " +:+ Demo.quoted "daemon_running" +:+ ": 1, "]
              (Demo.quoted "pid" +:+ ": 812 }" +:+ NL)
              [SocketError (Error "read ECONNRESET")]) as [H _].
  - intros k Hk Hpos. cbn in Hk. assert (k = 1%nat) as -> by lia.
    vm_compute. reflexivity.
  - apply H. vm_compute. reflexivity.
Defined.

End ChannelExtra.

(** ** More on the client: logs, metrics and the configuration *)

Module ConfigExtra.
Import Client Spec Aux Scenarios ClientProps ChannelExtra.

Section Env.
Variable env : Env.
Variable invalid_path_message : jsval -> string.

Lemma readLogFiles_unavailable (options : LogsOptions) (w : World) :
  readLogFiles env invalid_path_message options w = (Resolved logs_unavailable, w).
Proof.
  unfold readLogFiles. rewrite (try_rejected _ _ w w stack_overflow).
  - reflexivity.
  - apply bind_rejected. apply getConfig_overflows.
Qed.

End Env.

(** X9. [getLogs] never reads a log file. A client whose socket is not
    open answers that the log files could not be read, after the
    translator has refused the logs command; so does a client with an open
    socket when the exchange fails. No call rejects. *)
Theorem getLogs_never_reads_a_file (env : Env) (invalid_path_message : jsval -> string)
    (options : LogsOptions) (w : World) :
  (~ socket_open w ->
   getLogs env invalid_path_message options w =
   (Resolved logs_unavailable, entered (logs_command options) w)) /\
  (socket_open w -> forall e,
   settle env "" (socket_events env) = Rejected e ->
   getLogs env invalid_path_message options w =
   (Resolved logs_unavailable,
    {| this := this w;
       trace := trace w ++
         [EvWrite (JSON_stringify env (command_object (logs_command options)) +:+ NL)] |})).
Proof.
  split.
  - intros Hw. unfold getLogs. erewrite try_rejected.
    + apply readLogFiles_unavailable.
    + rewrite send_not_open by exact Hw. reflexivity.
  - intros Hw e He. unfold getLogs. erewrite try_rejected.
    + apply readLogFiles_unavailable.
    + rewrite sendDaemonCommand_open_socket by exact Hw. now rewrite He.
Qed.

Lemma getLogs_witness :
  (getLogs (Demo.machine Demo.cli_working) (fun _ => "invalid path")
     {| lo_level := None; lo_time_range := None; lo_filter := None;
        lo_limit := Some 10 |} Demo.fresh).1
  = Resolved logs_unavailable.
Proof.
  destruct (getLogs_never_reads_a_file (Demo.machine Demo.cli_working)
              (fun _ => "invalid path")
              {| lo_level := None; lo_time_range := None; lo_filter := None;
                 lo_limit := Some 10 |} Demo.fresh) as [H _].
  rewrite H; [reflexivity | discriminate].
Defined.

(** *** Objects *)

Lemma assoc_set_field_eq (k : string) (v : jsval) (fs : list (string * jsval)) :
  assoc k (set_field k v fs) = Some v.
Proof.
  induction fs as [|[k' v'] fs IH]; cbn.
  - now rewrite String.eqb_refl.
  - destruct (String.eqb k k') eqn:Hk; cbn.
    + now rewrite String.eqb_refl.
    + now rewrite Hk.
Qed.

Lemma assoc_set_field_ne (k k' : string) (v : jsval) (fs : list (string * jsval)) :
  k <> k' -> assoc k (set_field k' v fs) = assoc k fs.
Proof.
  intros Hne. apply String.eqb_neq in Hne.
  induction fs as [|[k2 v2] fs IH]; cbn.
  - now rewrite Hne.
  - destruct (String.eqb k' k2) eqn:Hk; cbn.
    + apply String.eqb_eq in Hk as <-. now rewrite Hne.
    + now rewrite IH.
Qed.

Lemma get_set_field_eq (k : string) (v : jsval) (fs : list (string * jsval)) :
  get k (JObj (set_field k v fs)) = v.
Proof. cbn. now rewrite assoc_set_field_eq. Qed.

Lemma get_set_field_ne (k k' : string) (v : jsval) (fs : list (string * jsval)) :
  k <> k' -> get k (JObj (set_field k' v fs)) = get k (JObj fs).
Proof. intros H. cbn. now rewrite assoc_set_field_ne. Qed.

(** *** The configuration files *)

Section Files.
Variable env : Env.

Lemma load_some (path : string) (parsed : jsval) (w : World) :
  load env path = Some parsed ->
  (content ← fs_readFile env path;
   parsed ← JSON_parse_m env content;
   ret (JObj (set_field "config_path" (JStr path) (spread parsed)))) w
  = (Resolved (JObj (set_field "config_path" (JStr path) (spread parsed))),
     {| this := this w; trace := trace w ++ [EvReadFile path] |}).
Proof.
  unfold load. intros H. mrun.
  destruct (readFile env path) as [content|e]; [|discriminate]. now rewrite H.
Qed.

Lemma load_none (path : string) (w : World) :
  load env path = None ->
  exists e,
    (content ← fs_readFile env path;
     parsed ← JSON_parse_m env content;
     ret (JObj (set_field "config_path" (JStr path) (spread parsed)))) w
    = (Rejected e, {| this := this w; trace := trace w ++ [EvReadFile path] |}).
Proof.
  unfold load. intros H. mrun.
  destruct (readFile env path) as [content|e]; [rewrite H|]; eauto.
Qed.

Lemma loadDefaultConfig_from_spec (paths : list string) (w : World) :
  (Forall (fun p => load env p = None) paths /\
   loadDefaultConfig_from env paths w =
   (Resolved (made_up_config env),
    {| this := this w; trace := trace w ++ map EvReadFile paths |})) \/
  (exists before src after parsed,
     paths = (before ++ src :: after)%list /\
     Forall (fun p => load env p = None) before /\
     load env src = Some parsed /\
     loadDefaultConfig_from env paths w =
     (Resolved (JObj (set_field "config_path" (JStr src) (spread parsed))),
      {| this := this w;
         trace := trace w ++ map EvReadFile (before ++ [src]) |})).
Proof.
  revert w. induction paths as [|p paths IH]; intros w.
  - left. split; [constructor|]. destruct w as [c t]. cbn.
    now rewrite app_nil_r.
  - cbn [loadDefaultConfig_from]. destruct (load env p) as [parsed|] eqn:Hload.
    + right. exists [], p, paths, parsed.
      split; [reflexivity|]. split; [constructor|]. split; [exact Hload|].
      erewrite try_resolved by (apply load_some; exact Hload). reflexivity.
    + destruct (load_none p w Hload) as [e He].
      erewrite try_rejected by exact He.
      destruct (IH {| this := this w; trace := trace w ++ [EvReadFile p] |})
        as [[Hall Hrun]|(before & src & after & parsed & -> & Hall & Hsrc & Hrun)].
      * left. split; [now constructor|]. rewrite Hrun. cbn [this trace map].
        now rewrite <- app_assoc.
      * right. exists (p :: before), src, after, parsed.
        split; [reflexivity|]. split; [now constructor|]. split; [exact Hsrc|].
        rewrite Hrun. cbn [this trace map app]. now rewrite <- app_assoc.
Qed.

End Files.

(** X10. [loadDefaultConfig] always resolves. It reads the three candidate
    files in order and stops at the first that can be read and parsed; the
    configuration is then what that file holds, except that [config_path]
    is the path of the file, whatever the file says. When no candidate
    loads, the configuration is the made-up one, with [config_path] set to
    [not found]. *)
Theorem loadDefaultConfig_source (env : Env) (w : World) :
  (Forall (fun p => load env p = None) (config_candidates env) /\
   loadDefaultConfig env w =
   (Resolved (made_up_config env),
    {| this := this w;
       trace := trace w ++ map EvReadFile (config_candidates env) |})) \/
  (exists before src after parsed cfg,
     config_candidates env = (before ++ src :: after)%list /\
     Forall (fun p => load env p = None) before /\
     load env src = Some parsed /\
     loadDefaultConfig env w =
     (Resolved cfg,
      {| this := this w;
         trace := trace w ++ map EvReadFile (before ++ [src]) |}) /\
     get "config_path" cfg = JStr src /\
     forall k, k <> "config_path" -> get k cfg = get k (JObj (spread parsed))).
Proof.
  destruct (loadDefaultConfig_from_spec env (config_candidates env) w)
    as [H|(before & src & after & parsed & Hc & Hall & Hsrc & Hrun)].
  - left. exact H.
  - right. exists before, src, after, parsed.
    exists (JObj (set_field "config_path" (JStr src) (spread parsed))).
    repeat split; try assumption.
    + apply get_set_field_eq.
    + intros k Hk. now apply get_set_field_ne.
Qed.

(** X11. The resolver of line 16, taken by itself, always resolves and
    stores its answer in the client. A truthy answer is kept: the next call
    gives it back without running a command or reading a file. The answer
    is falsy only when [styxy config show --json] itself printed a falsy
    JSON value. *)
Theorem resolver_l16 (env : Env) (w : World) :
  exists cfg w1,
    getConfig_l16 env w = (Resolved cfg, w1) /\
    config (this w1) = cfg /\
    (truthy cfg = true -> getConfig_l16 env w1 = (Resolved cfg, w1)) /\
    (truthy cfg = false ->
     exists stdout, exec env "styxy config show --json" = ExecOk stdout /\
                    JSON_parse env stdout = Some cfg).
Proof.
  destruct (getConfig_l16_resolves env w) as (cfg & w1 & Hrun & Hcfg).
  exists cfg, w1. split; [exact Hrun|]. split; [exact Hcfg|]. split.
  - intros Hv. rewrite <- Hcfg in Hv |- *. now apply getConfig_l16_cached.
  - intros Hv. revert Hrun. unfold getConfig_l16. mrun.
    destruct (truthy (config (this w))) eqn:Hcached; cbn [negb].
    { intros H. injection H as <- _. congruence. }
    destruct (exec env "styxy config show --json") as [stdout|m o] eqn:Hexec.
    + destruct (JSON_parse env stdout) as [v|] eqn:Hparse.
      * intros H. injection H as <- _. eauto.
      * destruct (loadDefaultConfig_from_resolves env (config_candidates env)
                    {| this := this w;
                       trace := trace w ++ [EvExec "styxy config show --json"] |})
          as (loaded & w2 & Hload & _ & Ht).
        unfold loadDefaultConfig. unfold config_candidates in Hload.
        rewrite Hload. intros H. injection H as <- _. congruence.
    + destruct (loadDefaultConfig_from_resolves env (config_candidates env)
                  {| this := this w;
                     trace := trace w ++ [EvExec "styxy config show --json"] |})
        as (loaded & w2 & Hload & _ & Ht).
      unfold loadDefaultConfig. unfold config_candidates in Hload.
      rewrite Hload. intros H. injection H as <- _. congruence.
Qed.

(** On a machine without [styxy] and without configuration files the
    resolver makes up a configuration, and keeps it. *)
Lemma resolver_l16_witness :
  exists w1,
    getConfig_l16 (Demo.machine Demo.cli_missing) Demo.fresh
      = (Resolved (made_up_config (Demo.machine Demo.cli_missing)), w1) /\
    getConfig_l16 (Demo.machine Demo.cli_missing) w1
      = (Resolved (made_up_config (Demo.machine Demo.cli_missing)), w1).
Proof.
  destruct (resolver_l16 (Demo.machine Demo.cli_missing) Demo.fresh)
    as (cfg & w1 & H1 & _ & H2 & _).
  assert (Hcfg : cfg = made_up_config (Demo.machine Demo.cli_missing)).
  { vm_compute in H1. injection H1 as <- _. reflexivity. }
  subst cfg. exists w1. split; [exact H1|]. apply H2. reflexivity.
Defined.

(** X13. [validateConfig] of a configuration that is neither [null] nor
    [undefined] resolves; the configuration is valid exactly when it has a
    [daemon] with a [socket_path] and a [port_range], which is exactly when
    the list of errors is empty; a configuration without [daemon] gets the
    single error about the missing daemon. *)
Theorem validateConfig_valid_iff (cfg : jsval) (w : World) :
  cfg <> JNull -> cfg <> JUndefined ->
  exists valid errors,
    validateConfig cfg w = (Resolved (valid, errors), w) /\
    (valid = true <-> errors = []) /\
    (valid = true <->
     truthy (get "daemon" cfg) = true /\
     truthy (get "socket_path" (get "daemon" cfg)) = true /\
     truthy (get "port_range" (get "daemon" cfg)) = true) /\
    (truthy (get "daemon" cfg) = false ->
     errors = ["Missing daemon configuration"]).
Proof.
  intros Hnull Hundef.
  assert (Hprop : prop "daemon" cfg w = (Resolved (get "daemon" cfg), w))
    by (destruct cfg; try reflexivity; congruence).
  unfold validateConfig. erewrite bind_resolved by exact Hprop.
  destruct (truthy (get "daemon" cfg)) eqn:Hd; cbn [negb].
  - destruct (truthy (get "socket_path" (get "daemon" cfg))) eqn:Hs;
      destruct (truthy (get "port_range" (get "daemon" cfg))) eqn:Hp;
      eexists _, _; (split; [reflexivity|]); cbn;
      repeat split; try discriminate; try tauto; intros; try discriminate;
      intuition discriminate.
  - eexists _, _. split; [reflexivity|]. cbn.
    repeat split; try discriminate; intros; intuition discriminate.
Qed.

(** The configuration that [loadDefaultConfig] makes up is valid. *)
Lemma validateConfig_witness :
  exists errors,
    validateConfig (made_up_config (Demo.machine Demo.cli_missing)) Demo.fresh
    = (Resolved (true, errors), Demo.fresh).
Proof.
  destruct (validateConfig_valid_iff (made_up_config (Demo.machine Demo.cli_missing))
              Demo.fresh) as (valid & errors & Hrun & _ & Hvalid & _);
    [discriminate | discriminate |].
  exists errors. rewrite Hrun.
  assert (valid = true) as -> by (apply Hvalid; repeat split).
  reflexivity.
Defined.

End ConfigExtra.


(** ** More on the client: the parsers of the command-line output *)

Module ParserExtra.
Import Client Spec Aux Scenarios ClientProps StringFacts.

(** *** Digits *)

Lemma digit_value_nonneg (c : ascii) : is_digit c = true -> 0 <= digit_value c.
Proof.
  unfold is_digit, digit_value. intros H. apply andb_true_iff in H as [H _].
  apply Nat.leb_le in H. lia.
Qed.

Lemma parse_digits_nonneg (s : string) (acc : Z) : 0 <= acc -> 0 <= parse_digits acc s.
Proof.
  revert acc. induction s as [|c s IH]; intros acc Hacc; cbn; [exact Hacc|].
  destruct (is_digit c) eqn:Hc; [|exact Hacc].
  apply IH. pose proof (digit_value_nonneg c Hc). lia.
Qed.

Lemma to_double_nonneg (n : Z) : 0 <= n -> 0 <= to_double n.
Proof.
  intros Hn. unfold to_double. destruct (Z.ltb n safe_bound); [exact Hn|].
  cbv zeta. apply Z.min_glb; [|unfold infinity; apply Z.pow_nonneg; lia].
  apply Z.shiftl_nonneg.
  assert (Hq : 0 <= Z.shiftr n (Z.log2 n - 52)) by now apply Z.shiftr_nonneg.
  destruct (_ || _); lia.
Qed.

Lemma parseInt_number (c : ascii) (s : string) :
  is_digit c = true ->
  exists n, parseInt (String c s) = JNum n /\ 0 <= n.
Proof.
  intros Hc. unfold parseInt. rewrite Hc. eexists. split; [reflexivity|].
  apply to_double_nonneg. now apply parse_digits_nonneg.
Qed.

Lemma match_digits_head (s ds : string) :
  match_digits s = Some ds ->
  exists c rest, ds = String c rest /\ is_digit c = true.
Proof.
  induction s as [|c s IH]; cbn; [discriminate|].
  destruct (is_digit c) eqn:Hc; [|exact IH].
  intros H. injection H as <-. eauto.
Qed.

Lemma take_while_head (p : ascii -> bool) (s : string) (c : ascii) (rest : string) :
  take_while p s = String c rest -> p c = true.
Proof.
  destruct s as [|x s]; cbn; [discriminate|].
  destruct (p x) eqn:Hx; [|discriminate]. congruence.
Qed.

(** *** Released ports *)

Lemma released_ports_numbers (matches : list string) (w : World) :
  Forall (fun m => exists ds, match_digits m = Some ds) matches ->
  exists ports,
    released_ports_of matches w = (Resolved ports, w) /\
    Forall (fun v => exists n, v = JNum n /\ 0 <= n) ports /\
    length ports = length matches.
Proof.
  induction 1 as [|m matches [ds Hm] _ (ports & Hrun & Hnum & Hlen)].
  - exists []. repeat split. constructor.
  - destruct (match_digits_head _ _ Hm) as (c & rest & -> & Hc).
    destruct (parseInt_number c rest Hc) as (n & Hn & Hpos).
    exists (JNum n :: ports). cbn [released_ports_of]. rewrite Hm.
    erewrite bind_resolved by exact Hrun. rewrite Hn. repeat split.
    + constructor; eauto.
    + cbn. now rewrite Hlen.
Qed.

(** X14. [cliCleanup] never rejects. It runs one command; its result
    always has a [released_ports] array, and every element of that array is
    a non-negative number. *)
Theorem cliCleanup_never_rejects (env : Env) (force : bool) (p : option Z) (w : World) :
  exists r ports,
    cliCleanup env force p w =
    (Resolved r,
     {| this := this w;
        trace := trace w ++ [EvExec ("styxy " +:+ join " " (cleanup_args force p))] |}) /\
    get "released_ports" r = JArr ports /\
    Forall (fun v => exists n, v = JNum n /\ 0 <= n) ports.
Proof.
  unfold cliCleanup. mrun.
  destruct (exec env ("styxy " +:+ join " " (cleanup_args force p))) as [stdout|m out].
  - unfold extractReleasedPorts.
    destruct (released_ports_numbers (match_all_released 0 stdout)
                {| this := this w;
                   trace := trace w ++
                     [EvExec ("styxy " +:+ join " " (cleanup_args force p))] |}
                (match_all_released_digits stdout 0))
      as (ports & Hrun & Hnum & _).
    rewrite Hrun. exists (JObj [("released_ports", JArr ports);
                                ("raw_output", JStr stdout)]), ports.
    repeat split. exact Hnum.
  - eexists _, []. repeat split. constructor.
Qed.

(** *** The allocated port *)

(** X15. [cliAllocatePort] never resolves without a port. When it
    resolves, [allocated_port] is a positive number and [service_url] and
    [cleanup_command] are written with that number. When it rejects, the
    message starts with [CLI allocation failed: ]; when the command line
    itself failed, the rest of the message is the message of that
    failure. *)
Theorem cliAllocatePort_outcomes (env : Env) (context : Context)
    (preferences : Preferences) (w : World) :
  match cliAllocatePort env context preferences w with
  | (Resolved r, _) =>
      exists n, 0 < n /\
        get "allocated_port" r = JNum n /\
        get "service_url" r = JStr ("http://localhost:" +:+ toString n) /\
        get "cleanup_command" r = JStr ("styxy release " +:+ toString n)
  | (Rejected e, _) =>
      exists m, e = Error ("CLI allocation failed: " +:+ m) /\
        forall m' out,
          exec env ("styxy " +:+ join " " (allocate_args context preferences))
            = ExecFailed m' out -> m = m'
  end.
Proof.
  unfold cliAllocatePort. mrun.
  destruct (exec env ("styxy " +:+ join " " (allocate_args context preferences)))
    as [stdout|m out].
  - unfold cliAllocatePort_port.
    destruct (List.find _ _) as [line|]; [|mrun; eexists; split; [reflexivity | discriminate]].
    destruct (truthy (JStr line)); [|mrun; eexists; split; [reflexivity | discriminate]].
    destruct (match_digits line) as [ds|] eqn:Hds;
      [|mrun; eexists; split; [reflexivity | discriminate]].
    destruct (match_digits_head _ _ Hds) as (c & rest & -> & Hc).
    destruct (parseInt_number c rest Hc) as (n & Hn & Hpos).
    rewrite Hn. mrun. cbn [truthy].
    destruct (Z.eqb_spec n 0) as [->|Hne]; cbn [negb].
    + eexists. split; [reflexivity | discriminate].
    + exists n. split; [lia|]. split; [reflexivity|]. split; reflexivity.
  - exists m. split; [reflexivity|]. intros m' out' H. congruence.
Qed.

(** *** The rows of the port table *)

Lemma space_not_digit (c : ascii) : is_space c = true -> is_digit c = false.
Proof.
  unfold is_space, is_digit. generalize (nat_of_ascii c). intros n H.
  apply andb_false_iff.
  destruct (Nat.leb_spec 48 n); [|now left]. right.
  apply Nat.leb_gt.
  apply orb_true_iff in H as [H|H]; [apply orb_true_iff in H as [H|H]|].
  - apply andb_true_iff in H as [_ H]. apply Nat.leb_le in H. lia.
  - apply Nat.eqb_eq in H. lia.
  - apply Nat.eqb_eq in H. lia.
Qed.

Lemma blank_then_dash_ends_digits (gap rest : string) :
  all_blank gap = true -> ends_digit_run (gap +:+ String "-" rest) = true.
Proof.
  destruct gap as [|c gap]; [reflexivity|]. cbn. intros H.
  apply andb_true_iff in H as [H _]. now rewrite space_not_digit.
Qed.

Lemma drop_while_blank (gap rest : string) (c : ascii) :
  all_blank gap = true -> is_space c = false ->
  drop_while is_space (gap +:+ String c rest) = String c rest.
Proof.
  intros Hgap Hc. induction gap as [|x gap IH]; cbn in *.
  - now rewrite Hc.
  - apply andb_true_iff in Hgap as [Hx Hgap]. rewrite Hx. now apply IH.
Qed.

Lemma take_while_one_line (s : string) :
  one_line s = true ->
  take_while (fun c => negb (is_line_terminator c)) s = s.
Proof.
  induction s as [|c s IH]; [reflexivity|]. cbn. intros H.
  apply andb_true_iff in H as [Hc Hs]. rewrite Hc. now rewrite IH.
Qed.

Lemma match_description_text (gap text : string) (c : ascii) (t : string) :
  all_blank gap = true -> text = String c t -> is_space c = false ->
  one_line text = true ->
  match_description (gap +:+ text) = Some text.
Proof.
  intros Hgap -> Hc Hline. induction gap as [|x gap IH].
  - cbn [String.append match_description]. rewrite Hc.
    now rewrite take_while_one_line.
  - cbn in Hgap. apply andb_true_iff in Hgap as [Hx Hgap].
    cbn [String.append match_description]. rewrite Hx. now rewrite IH.
Qed.

Lemma match_port_row_here_row (ds gap1 gap2 text : string) (c : ascii) (t : string) :
  all_digits ds = true -> ds <> "" ->
  all_blank gap1 = true -> all_blank gap2 = true ->
  text = String c t -> is_space c = false -> one_line text = true ->
  match_port_row_here (ds +:+ gap1 +:+ String "-" (gap2 +:+ text)) = Some (ds, text).
Proof.
  intros Hds Hne Hg1 Hg2 Htext Hc Hline. unfold match_port_row_here.
  rewrite take_while_digits, drop_while_digits
    by (assumption || now apply blank_then_dash_ends_digits).
  destruct (String.eqb_spec ds "") as [->|_]; [congruence|].
  rewrite drop_while_blank by (assumption || reflexivity).
  now rewrite (match_description_text gap2 text c t).
Qed.

Lemma match_port_row_here_no_digit (c : ascii) (s : string) :
  is_digit c = false -> match_port_row_here (String c s) = None.
Proof. intros H. unfold match_port_row_here. cbn. now rewrite H. Qed.

Lemma match_port_row_row (indent ds gap1 gap2 text : string) (c : ascii) (t : string) :
  no_digit indent = true ->
  all_digits ds = true -> ds <> "" ->
  all_blank gap1 = true -> all_blank gap2 = true ->
  text = String c t -> is_space c = false -> one_line text = true ->
  match_port_row (indent +:+ ds +:+ gap1 +:+ String "-" (gap2 +:+ text))
  = Some (ds, text).
Proof.
  intros Hind Hds Hne Hg1 Hg2 Htext Hc Hline.
  induction indent as [|x indent IH].
  - cbn [String.append].
    pose proof (match_port_row_here_row ds gap1 gap2 text c t
                  Hds Hne Hg1 Hg2 Htext Hc Hline) as Hrow.
    destruct ds as [|d ds]; [congruence|].
    cbn [String.append match_port_row] in *. now rewrite Hrow.
  - cbn in Hind. apply andb_true_iff in Hind as [Hx Hind].
    apply negb_true_iff in Hx.
    cbn [String.append match_port_row].
    rewrite match_port_row_here_no_digit by exact Hx. now apply IH.
Qed.

Lemma match_port_row_head (s ds d : string) :
  match_port_row s = Some (ds, d) ->
  exists c rest, ds = String c rest /\ is_digit c = true.
Proof.
  induction s as [|x s IH]; cbn [match_port_row]; [discriminate|].
  destruct (match_port_row_here (String x s)) as [[ds' d']|] eqn:Hhere; [|exact IH].
  intros H. injection H as -> ->. revert Hhere. unfold match_port_row_here.
  destruct (take_while is_digit (String x s)) as [|c rest] eqn:Htake;
    [discriminate|].
  cbn [String.eqb]. 
  destruct (drop_while is_space _) as [|y after]; [discriminate|].
  destruct (Ascii.eqb_spec y "-") as [->|Hy].
  - destruct (match_description after); [|discriminate].
    intros H. injection H as <- _. exists c, rest. split; [reflexivity|].
    now apply (take_while_head is_digit (String x s) c rest).
  - intros H. exfalso. revert H.
    destruct y as [[] [] [] [] [] [] [] []]; try discriminate.
    now destruct Hy.
Qed.

Lemma no_char_drop_while (c : ascii) (p : ascii -> bool) (s : string) :
  no_char c s = true -> no_char c (drop_while p s) = true.
Proof.
  induction s as [|x s IH]; [reflexivity|]. cbn. intros H.
  destruct (p x); [|exact H]. apply andb_true_iff in H as [_ H]. now apply IH.
Qed.

Lemma match_port_row_here_no_dash (s : string) :
  no_char "-" s = true -> match_port_row_here s = None.
Proof.
  intros H. unfold match_port_row_here.
  destruct (String.eqb _ ""); [reflexivity|].
  pose proof (no_char_drop_while "-" is_space _
                (no_char_drop_while "-" is_digit s H)) as Hd.
  destruct (drop_while is_space (drop_while is_digit s)) as [|y after];
    [reflexivity|].
  cbn in Hd. apply andb_true_iff in Hd as [Hy _].
  destruct y as [[] [] [] [] [] [] [] []]; try reflexivity. discriminate.
Qed.

Lemma match_port_row_no_dash (s : string) :
  no_char "-" s = true -> match_port_row s = None.
Proof.
  induction s as [|x s IH]; [reflexivity|]. intros H.
  cbn [match_port_row]. rewrite match_port_row_here_no_dash by exact H.
  apply IH. cbn in H. now apply andb_true_iff in H as [_ H].
Qed.

(** X16. A line made of an indentation without digits, the digits of a
    port, blanks, a hyphen, blanks and a text that starts with a character
    that is not a blank gives one entry of [active_ports]: its port is the
    number that the digits write, which is the integer itself when that is
    below 2^53 and the double nearest to it in general, and its
    description is the text, trimmed. *)
Theorem extractPorts_row (indent ds gap1 gap2 text : string) (c : ascii) (t : string) :
  no_digit indent = true ->
  all_digits ds = true -> ds <> "" ->
  all_blank gap1 = true -> all_blank gap2 = true ->
  text = String c t -> is_space c = false -> one_line text = true ->
  extractPorts [indent +:+ ds +:+ gap1 +:+ String "-" (gap2 +:+ text)]
  = [port_entry (to_double (decimal_value ds)) (trim text)] /\
  (decimal_value ds < safe_bound ->
   extractPorts [indent +:+ ds +:+ gap1 +:+ String "-" (gap2 +:+ text)]
   = [port_entry (decimal_value ds) (trim text)]).
Proof.
  intros Hind Hds Hne Hg1 Hg2 Htext Hc Hline. unfold extractPorts.
  cbn [flat_map].
  rewrite (match_port_row_row indent ds gap1 gap2 text c t) by assumption.
  rewrite parseInt_rounds by assumption. split; [reflexivity|].
  intros Hsafe. now rewrite to_double_safe.
Qed.

Lemma extractPorts_row_witness :
  extractPorts ["  3042 - web (demo)  "] = [port_entry 3042 "web (demo)"].
Proof.
  apply (extractPorts_row "  " "3042" " " " " "web (demo)  " "w" "eb (demo)  ");
    (reflexivity || discriminate).
Defined.

(** A row whose digits write an integer above 2^53 gets the double
    nearest to it. *)
Example extractPorts_rounds :
  extractPorts ["20250101123456789 - x"] = [port_entry 20250101123456788 "x"].
Proof. reflexivity. Qed.

(** X17. Whatever the lines are, [extractPorts] gives at most one entry
    for each line, every entry has a [port] that is a non-negative number
    and a [description] that is a string, and lines without a hyphen give
    no entry. *)
Theorem extractPorts_entries (lines : list string) :
  Forall (fun e => exists n d, e = port_entry n d /\ 0 <= n) (extractPorts lines) /\
  (length (extractPorts lines) <= length lines)%nat /\
  (Forall (fun line => no_char "-" line = true) lines -> extractPorts lines = []).
Proof.
  unfold extractPorts. induction lines as [|line lines (IH1 & IH2 & IH3)].
  - repeat split; constructor.
  - cbn [flat_map].
    destruct (match_port_row line) as [[ds d]|] eqn:Hrow.
    + destruct (match_port_row_head _ _ _ Hrow) as (c & rest & -> & Hc).
      destruct (parseInt_number c rest Hc) as (n & Hn & Hpos).
      rewrite Hn. cbn [app length]. repeat split.
      * constructor; [|exact IH1]. exists n, (trim d). split; [reflexivity | exact Hpos].
      * lia.
      * intros H. inversion H as [|? ? Hline _]; subst.
        rewrite match_port_row_no_dash in Hrow by exact Hline. discriminate.
    + cbn [app length]. repeat split.
      * exact IH1.
      * lia.
      * intros H. inversion H; subst. now apply IH3.
Qed.

Lemma extractPorts_entries_witness :
  extractPorts ["Daemon is up"; "PID: 812"; "Uptime: 2h"] = [].
Proof.
  apply (extractPorts_entries ["Daemon is up"; "PID: 812"; "Uptime: 2h"]).
  repeat constructor.
Defined.

(** A date is read as a port: the digits before the first hyphen that
    follows digits directly. *)
Example extractPorts_date :
  extractPorts ["Started: 2025-01-01"] = [port_entry 2025 "01-01"].
Proof. reflexivity. Qed.

(** *** Labelled values *)

Lemma split_labelled (c0 : ascii) (label' before value : string) :
  no_char c0 before = true ->
  includes (String c0 label') value = false ->
  split (String c0 label') (before +:+ String c0 label' +:+ value) = [before; value].
Proof.
  intros Hb Hv. unfold split.
  rewrite split_go_text by exact Hb.
  rewrite split_go_match, split_go_plain by exact Hv.
  now rewrite !rev_rev_app.
Qed.

(** X18. [extractValue] takes the first line that contains the label. When
    that line is some text without the first character of the label, the
    label, and a value in which the label does not occur again, the result
    is the value, trimmed. When no line contains the label the result is
    [null]. *)
Theorem extractValue_labelled (c0 : ascii) (label' before value : string)
    (earlier later : list string) :
  Forall (fun l => includes (String c0 label') l = false) earlier ->
  (no_char c0 before = true ->
   includes (String c0 label') value = false ->
   extractValue (earlier ++ (before +:+ String c0 label' +:+ value) :: later)
                (String c0 label')
   = JStr (trim value)) /\
  extractValue earlier (String c0 label') = JNull.
Proof.
  intros He. split.
  - intros Hb Hv. unfold extractValue.
    rewrite (find_first _ earlier later) by
      (assumption || (apply includes_spec; now exists before, value)).
    assert (Htruthy : truthy (JStr (before +:+ String c0 label' +:+ value)) = true)
      by now destruct before.
    rewrite Htruthy. now rewrite split_labelled.
  - unfold extractValue.
    assert (Hnone : List.find (includes (String c0 label')) earlier = None).
    { induction He as [|l earlier Hl _ IH]; cbn; [reflexivity|]. now rewrite Hl. }
    now rewrite Hnone.
Qed.

Lemma extractValue_witness :
  extractValue ["Daemon is up"; "  PID:  812 "; "PID: 9"] "PID:" = JStr "812".
Proof.
  destruct (extractValue_labelled "P" "ID:" "  " "  812 "
              ["Daemon is up"] ["PID: 9"]) as [H _].
  - repeat constructor.
  - now apply H.
Defined.

(** The value stops where the label occurs again. *)
Example extractValue_label_twice :
  extractValue ["Config: /a/b Config: x"] "Config:" = JStr "/a/b".
Proof. reflexivity. Qed.

End ParserExtra.

(** ** The tools of the server *)

Module ServerExtra.
Import Client Server Spec Aux Scenarios ClientProps ChannelExtra ConfigExtra ParserExtra.

Lemma answers_ret (text : string) : answers_text (ret (tool_result text)).
Proof. intros w r w' H. injection H as <- _. now exists text. Qed.

Lemma answers_throw (e : exn) : answers_text (throw e).
Proof. intros w r w' H. discriminate. Qed.

Lemma answers_bind {A} (m : M A) (k : A -> M jsval) :
  (forall a, answers_text (k a)) -> answers_text (m ≫= k).
Proof.
  intros Hk w r w'. unfold mbind, M_bind, bind.
  destruct (m w) as [[a|e] w1]; [apply Hk | discriminate].
Qed.

Lemma answers_try (m : M jsval) (h : exn -> M jsval) :
  answers_text m -> (forall e, answers_text (h e)) -> answers_text (try_catch m h).
Proof.
  intros Hm Hh w r w'. unfold try_catch.
  destruct (m w) as [[a|e] w1] eqn:H; [|apply Hh].
  intros H'. injection H' as <- <-. eapply Hm, H.
Qed.

Ltac answers :=
  cbv zeta; repeat (apply answers_bind; intros ?; cbv zeta); apply answers_ret.

Section Env.
Variable env : Env.
Variable JSON_stringify_pretty : jsval -> string.
Variable invalid_path_message : jsval -> string.

Lemma answers_handleAllocatePort (args : ToolArgs) :
  answers_text (handleAllocatePort env args).
Proof.
  unfold handleAllocatePort. cbv zeta.
  apply answers_try; [answers | intros e; apply answers_ret].
Qed.

Lemma answers_handleStatus (args : ToolArgs) : answers_text (handleStatus env args).
Proof. unfold handleStatus. answers. Qed.

Lemma answers_handleLogs (args : ToolArgs) :
  answers_text (handleLogs env invalid_path_message args).
Proof. unfold handleLogs. answers. Qed.

Lemma answers_handleConfig (args : ToolArgs) :
  answers_text (handleConfig env JSON_stringify_pretty args).
Proof. unfold handleConfig. answers. Qed.

Lemma answers_handleCleanup (args : ToolArgs) : answers_text (handleCleanup env args).
Proof. unfold handleCleanup. answers. Qed.

Lemma answers_handleMetrics (args : ToolArgs) : answers_text (handleMetrics env args).
Proof. unfold handleMetrics. answers. Qed.

End Env.

(** X19. A tool call never rejects and always answers with one text,
    whatever the tool, the arguments object, the daemon and the command
    line do.
    A name that is not one of the six tools is answered with
    [Error executing <name>: Unknown tool: <name>], and nothing is run. *)
Theorem callTool_always_answers (env : Env) (JSON_stringify_pretty : jsval -> string)
    (invalid_path_message : jsval -> string) (name : string) (args : ToolArgs)
    (w : World) :
  (exists text w',
     callTool env JSON_stringify_pretty invalid_path_message name args w =
     (Resolved (tool_result text), w')) /\
  (~ In name tool_names ->
   callTool env JSON_stringify_pretty invalid_path_message name args w =
   (Resolved (tool_result ("Error executing " +:+ name +:+ ": Unknown tool: " +:+ name)),
    w)).
Proof.
  split.
  - unfold callTool.
    set (body := if String.eqb name _ then _ else _).
    assert (Hbody : answers_text body).
    { subst body.
      repeat match goal with
             | |- answers_text (if ?b then _ else _) => destruct b
             end;
        auto using answers_handleAllocatePort, answers_handleStatus,
          answers_handleLogs, answers_handleConfig, answers_handleCleanup,
          answers_handleMetrics, answers_throw. }
    unfold try_catch. destruct (body w) as [[r|e] w1] eqn:H.
    + destruct (Hbody _ _ _ H) as [text ->]. eauto.
    + eexists _, _. reflexivity.
  - intros Hname. unfold callTool, tool_names in *.
    repeat match goal with
           | |- context [String.eqb name ?s] =>
               destruct (String.eqb_spec name s) as [->|_];
                 [exfalso; apply Hname; cbn; tauto|]
           end.
    reflexivity.
Qed.

Lemma callTool_unknown_witness :
  callTool (Demo.machine Demo.cli_working) Demo.JSON_stringify Demo.path_message
    "styxy_restart" Demo.web_args Demo.fresh
  = (Resolved (tool_result "Error executing styxy_restart: Unknown tool: styxy_restart"),
     Demo.fresh).
Proof.
  apply (callTool_always_answers (Demo.machine Demo.cli_working) Demo.JSON_stringify
           Demo.path_message "styxy_restart" Demo.web_args Demo.fresh).
  cbn. intros H. repeat destruct H as [H|H]; try discriminate H. exact H.
Defined.

(** X20. The tool [styxy_config] never shows a configuration: for every
    environment and all arguments the answer is the text of the stack
    overflow, and neither a command line nor a file is tried. *)
Theorem config_tool_always_fails (env : Env) (JSON_stringify_pretty : jsval -> string)
    (invalid_path_message : jsval -> string) (args : ToolArgs) (w : World) :
  callTool env JSON_stringify_pretty invalid_path_message "styxy_config" args w =
  (Resolved (tool_result
               "Error executing styxy_config: Maximum call stack size exceeded"),
   w).
Proof.
  unfold callTool. cbn [String.eqb Ascii.eqb Bool.eqb].
  rewrite (try_rejected _ _ w w stack_overflow); [reflexivity|].
  unfold handleConfig. apply bind_rejected. apply getConfig_overflows.
Qed.

(** *** A client without an open socket *)

Section Offline.
Variable env : Env.
Variable invalid_path_message : jsval -> string.



Lemma cliGetStatus_degraded (m out : string) (w : World) :
  status_path_of env = Degraded ->
  exec env "styxy status" = ExecFailed m out ->
  cliGetStatus env w =
  (Resolved (degraded_status m),
   {| this := this w;
      trace := (trace w ++ [EvExec "styxy status --json"]) ++
               [EvExec "styxy status"] |}).
Proof.
  unfold status_path_of, cliGetStatus. mrun. intros Hpath Hplain.
  rewrite Hplain in *.
  destruct (exec env "styxy status --json") as [stdout|m1 o1]; [|reflexivity].
  destruct (JSON_parse env stdout); [discriminate | reflexivity].
Qed.

Lemma cliGetStatus_plain (output : string) (w : World) :
  status_path_of env = PlainText ->
  exec env "styxy status" = ExecOk output ->
  cliGetStatus env w =
  (Resolved (parseStatusOutput output),
   {| this := this w;
      trace := (trace w ++ [EvExec "styxy status --json"]) ++
               [EvExec "styxy status"] |}).
Proof.
  unfold status_path_of, cliGetStatus. mrun. intros Hpath Hplain.
  rewrite Hplain in *.
  destruct (exec env "styxy status --json") as [stdout|m1 o1]; [|reflexivity].
  destruct (JSON_parse env stdout); [discriminate | reflexivity].
Qed.

End Offline.





(** X23. The tool [styxy_status] on a client whose socket is not open,
    when [styxy status] fails and [styxy status --json] gave nothing that
    parses: the text says that the daemon is not running, shows no PID,
    uptime or path, counts zero ports and lists the error of the command
    line. *)
Theorem status_tool_degraded (env : Env) (args : ToolArgs) (w : World)
    (m out : string) :
  ~ socket_open w ->
  status_path_of env = Degraded ->
  exec env "styxy status" = ExecFailed m out ->
  (handleStatus env args w).1 =
  Resolved
    (tool_result
       ("📊 STYXY DAEMON STATUS" +:+ NL +:+ NL +:+
        "🟢 Status: ❌ Not Running" +:+ NL +:+
        "🏠 PID: N/A" +:+ NL +:+
        "⏰ Uptime: N/A" +:+ NL +:+
        "🔌 Active Ports: 0" +:+ NL +:+ NL +:+
        "⚠️  RECENT ERRORS:" +:+ NL +:+
        "  CLI error: " +:+ m +:+ NL +:+ NL +:+
        "🔧 Config Path: N/A" +:+ NL +:+
        "📄 Log Path: N/A")).
Proof.
  intros Hw Hpath Hplain. unfold handleStatus, getStatus.
  erewrite bind_resolved by
    (rewrite send_not_open by exact Hw; rewrite fallback_status;
     eapply cliGetStatus_degraded; eassumption).
  cbv -[String.append]. rewrite !StringFacts.append_assoc. reflexivity.
Qed.

Lemma status_tool_degraded_witness :
  (handleStatus (Demo.machine Demo.cli_missing) Demo.web_args Demo.fresh).1 =
  Resolved
    (tool_result
       ("📊 STYXY DAEMON STATUS" +:+ NL +:+ NL +:+
        "🟢 Status: ❌ Not Running" +:+ NL +:+
        "🏠 PID: N/A" +:+ NL +:+
        "⏰ Uptime: N/A" +:+ NL +:+
        "🔌 Active Ports: 0" +:+ NL +:+ NL +:+
        "⚠️  RECENT ERRORS:" +:+ NL +:+
        "  CLI error: " +:+ "Command failed: styxy status" +:+ NL +:+ NL +:+
        "🔧 Config Path: N/A" +:+ NL +:+
        "📄 Log Path: N/A")).
Proof.
  apply (status_tool_degraded (Demo.machine Demo.cli_missing) Demo.web_args
           Demo.fresh "Command failed: styxy status" "");
    [discriminate | reflexivity | reflexivity].
Defined.

(** *** The rows of the status text *)

Lemma extractPorts_shape (lines : list string) :
  Forall (fun e => exists n d, e = port_entry n d) (extractPorts lines).
Proof.
  unfold extractPorts. induction lines as [|line lines IH]; [constructor|].
  cbn [flat_map]. destruct (match_port_row line) as [[ds d]|] eqn:Hrow; [|exact IH].
  destruct (match_port_row_head _ _ _ Hrow) as (c & rest & -> & Hc).
  destruct (parseInt_number c rest Hc) as (n & Hn & _). rewrite Hn.
  constructor; [|exact IH]. now exists n, (trim d).
Qed.

Lemma port_lines_entries (ports : list jsval) (w : World) :
  Forall (fun e => exists n d, e = port_entry n d) ports ->
  port_lines ports w = (Resolved (map port_row_text ports), w).
Proof.
  induction 1 as [|e ports (n & d & ->) _ IH]; [reflexivity|].
  cbn [port_lines]. erewrite bind_resolved by reflexivity.
  erewrite bind_resolved by reflexivity.
  erewrite bind_resolved by exact IH. reflexivity.
Qed.

Lemma truthy_length {A} (l : list A) :
  l <> [] -> truthy (JNum (Z.of_nat (length l))) = true.
Proof. destruct l; [congruence|]. intros _. reflexivity. Qed.

(** X24. The status that the command line prints as text loses its
    service types and project names on the way to the tool: every row that
    [extractPorts] reads is shown as [<port> - undefined (undefined)],
    under the count of the rows. *)
Theorem status_tool_plain_rows (env : Env) (args : ToolArgs) (w : World)
    (output : string) :
  ~ socket_open w ->
  status_path_of env = PlainText ->
  exec env "styxy status" = ExecOk output ->
  extractPorts (split NL output) <> [] ->
  exists before after,
    (handleStatus env args w).1 =
    Resolved
      (tool_result
         (before +:+
          "🔌 Active Ports: " +:+
            toString (Z.of_nat (length (extractPorts (split NL output)))) +:+
            NL +:+ NL +:+
          "📋 ALLOCATED PORTS:" +:+ NL +:+
          join NL (map port_row_text (extractPorts (split NL output))) +:+
          NL +:+ NL +:+
          after)).
Proof.
  intros Hw Hpath Hplain Hports. unfold handleStatus, getStatus.
  erewrite bind_resolved by
    (rewrite send_not_open by exact Hw; rewrite fallback_status;
     eapply cliGetStatus_plain; eassumption).
  unfold parseStatusOutput.
  set (ports := extractPorts (split NL output)) in *.
  erewrite bind_resolved by reflexivity.
  change (get "active_ports" (JObj _)) with (JArr ports).
  change (get "recent_errors" (JObj _)) with JUndefined.
  cbn [opt_length]. unfold or_text at 3. rewrite (truthy_length ports Hports).
  erewrite bind_resolved by
    (erewrite bind_resolved by (apply port_lines_entries, extractPorts_shape);
     reflexivity).
  erewrite bind_resolved by reflexivity.
  exists ("📊 STYXY DAEMON STATUS" +:+ NL +:+ NL +:+
          "🟢 Status: " +:+
            (if negb (includes "not running" output) &&
                negb (includes "failed" output)
             then "Running" else "❌ Not Running") +:+ NL +:+
          "🏠 PID: " +:+ or_text (extractValue (split NL output) "PID:") "N/A" +:+ NL +:+
          "⏰ Uptime: " +:+ or_text (extractValue (split NL output) "Uptime:") "N/A" +:+
          NL),
         ("🔧 Config Path: " +:+
            or_text (extractValue (split NL output) "Config:") "N/A" +:+ NL +:+
          "📄 Log Path: " +:+ or_text (extractValue (split NL output) "Logs:") "N/A").
  cbv [ret fst]. do 2 f_equal.
  rewrite !StringFacts.append_assoc. reflexivity.
Qed.

Lemma status_tool_plain_rows_witness :
  exists before after,
    (handleStatus (Demo.machine Demo.cli_working) Demo.web_args Demo.fresh).1 =
    Resolved
      (tool_result
         (before +:+
          "🔌 Active Ports: " +:+ "1" +:+ NL +:+ NL +:+
          "📋 ALLOCATED PORTS:" +:+ NL +:+
          "  3042 - undefined (undefined)" +:+ NL +:+ NL +:+
          after)).
Proof.
  apply (status_tool_plain_rows (Demo.machine Demo.cli_working) Demo.web_args
           Demo.fresh
           ("Daemon is up" +:+ NL +:+ "PID: 812" +:+ NL +:+ "3042 - web (demo)" +:+ NL));
    [discriminate | reflexivity | reflexivity | discriminate].
Defined.

(** *** Cleanup *)

Lemma numbers_list (values : list jsval) :
  Forall (fun v => exists n, v = JNum n /\ 0 <= n) values ->
  exists ns, values = map JNum ns /\ Forall (fun n => 0 <= n) ns.
Proof.
  induction 1 as [|v values (n & -> & Hn) _ (ns & -> & Hns)].
  - now exists [].
  - exists (n :: ns). split; [reflexivity | now constructor].
Qed.

Lemma count_text {A} (l : list A) :
  or_text (JNum (Z.of_nat (length l))) "0" = toString (Z.of_nat (length l)).
Proof. destruct l; reflexivity. Qed.

(** X25. The tool [styxy_cleanup] on a client whose socket is not open
    reports what the command line did. When the command line fails the
    text counts zero ports and shows the message of the failure. When it
    succeeds, its output reads as rows of [Released port ] and digits
    between texts that hold no release: the text counts the rows and
    lists, in their order, the numbers that their digits write. *)
Theorem cleanup_tool_offline (env : Env) (args : ToolArgs) (w : World) :
  ~ socket_open w ->
  (forall m out,
     exec env ("styxy " +:+
               join " " (cleanup_args (default false (a_force args)) (a_port args)))
       = ExecFailed m out ->
     (handleCleanup env args w).1 =
     Resolved
       (tool_result
          ("🧹 CLEANUP COMPLETED" +:+ NL +:+ NL +:+
           "✅ Released: 0 ports" +:+ NL +:+
           "⚠️  Errors:" +:+ NL +:+ m +:+ NL +:+ NL +:+
           "💡 Use styxy_status to verify cleanup results"))) /\
  (forall head rows,
     ~ holds_release head ->
     well_formed_rows rows ->
     exec env ("styxy " +:+
               join " " (cleanup_args (default false (a_force args)) (a_port args)))
       = ExecOk (cleanup_report head rows) ->
     (handleCleanup env args w).1 =
     Resolved
       (tool_result
          ("🧹 CLEANUP COMPLETED" +:+ NL +:+ NL +:+
           "✅ Released: " +:+ toString (Z.of_nat (length rows)) +:+ " ports" +:+ NL +:+
           match rows with
           | [] => ""
           | _ => "📋 Released Ports:" +:+ NL +:+
                  join NL (map (fun row =>
                                  "  " +:+ toString (to_double (decimal_value row.1)))
                               rows) +:+
                  NL +:+ NL
           end +:+
           "💡 Use styxy_status to verify cleanup results"))).
Proof.
  intros Hw. split.
  - intros m out Hexec. unfold handleCleanup, cleanup.
    destruct (cliCleanup_failed env _ _ m out
                (entered (Cleanup (default false (a_force args)) (a_port args)
                                  (CLAUDE_SESSION_ID env)) w) Hexec) as [w' Hrun].
    erewrite bind_resolved by
      (rewrite send_not_open by exact Hw; rewrite fallback_cleanup; exact Hrun).
    cbv -[String.append]. rewrite !StringFacts.append_assoc. reflexivity.
  - intros head rows Hhead Hrows Hexec. unfold handleCleanup, cleanup.
    destruct (cliCleanup_ok env _ _ _
                (entered (Cleanup (default false (a_force args)) (a_port args)
                                  (CLAUDE_SESSION_ID env)) w) Hexec)
      as (values & w' & Hvalues & Hrun).
    unfold extractReleasedPorts in Hvalues.
    rewrite match_all_released_report, released_ports_of_rows in Hvalues
      by assumption.
    injection Hvalues as <-.
    erewrite bind_resolved by
      (rewrite send_not_open by exact Hw; rewrite fallback_cleanup; exact Hrun).
    erewrite bind_resolved by reflexivity.
    change (get "errors" (JObj _)) with JUndefined.
    change (get "released_ports" (JObj _))
      with (JArr (map (fun row => JNum (to_double (decimal_value row.1))) rows)).
    cbn [opt_length]. rewrite count_text, length_map.
    destruct rows as [|row rows].
    + reflexivity.
    + rewrite (truthy_length (row :: rows)) by discriminate.
      erewrite bind_resolved by
        (erewrite bind_resolved by reflexivity; reflexivity).
      erewrite bind_resolved by reflexivity.
      cbv [ret fst]. do 2 f_equal. rewrite map_map.
      rewrite !StringFacts.append_assoc. reflexivity.
Qed.

Lemma cleanup_tool_offline_witness :
  (handleCleanup (Demo.machine Demo.cli_working) Demo.web_args Demo.fresh).1 =
  Resolved
    (tool_result
       ("🧹 CLEANUP COMPLETED" +:+ NL +:+ NL +:+
        "✅ Released: 2 ports" +:+ NL +:+
        "📋 Released Ports:" +:+ NL +:+
        "  3000" +:+ NL +:+ "  3001" +:+ NL +:+ NL +:+
        "💡 Use styxy_status to verify cleanup results")).
Proof.
  destruct (cleanup_tool_offline (Demo.machine Demo.cli_working) Demo.web_args
              Demo.fresh) as [_ H]; [discriminate|].
  rewrite (H ("Cleaning up" +:+ NL) [("3000", NL); ("3001", NL)]).
  - reflexivity.
  - now apply no_marker_no_release.
  - repeat constructor; try discriminate; now apply no_marker_no_release.
  - reflexivity.
Defined.

(** *** Allocation *)






(** The service type [constructor] against a command line that prints a
    port. *)
Example allocate_tool_constructor :
  result_text
    (match (handleAllocatePort (Demo.machine Demo.cli_working)
              {| a_service_type := "constructor"; a_project_name := "demo";
                 a_preferred_port := None; a_duration := None;
                 a_service_name := None; a_include_ports := None;
                 a_include_recent_errors := None; a_level := None;
                 a_time_range := None; a_filter := None; a_limit := None;
                 a_validate := None; a_show_sensitive := None; a_force := None;
                 a_port := None; a_include_patterns := None |} Demo.fresh).1 with
     | Resolved r => r
     | Rejected _ => JNull
     end)
  = JStr ("❌ Failed to allocate port: serviceExamples.map is not a function" +:+
          NL +:+ NL +:+
          "🔧 Troubleshooting:" +:+ NL +:+
          "- Check if styxy daemon is running: styxy status" +:+ NL +:+
          "- Try a different service type or project name" +:+ NL +:+
          "- Use styxy_status tool to check daemon health").
Proof. vm_compute. reflexivity. Qed.

End ServerExtra.

(** ** The states that a client reaches *)

Module ReachableProps.
Import Client Spec Aux Scenarios ClientProps ChannelExtra ConfigExtra ServerExtra.

Section Env.
Variable env : Env.
Variable invalid_path_message : jsval -> string.






End Env.



End ReachableProps.

(** ** The start of the process *)

Module StartupExtra.
Import Singleton Startup SingletonExtra.

Section Host.
Variable env : Env.

Lemma exit_handlers_released (n : nat) (this : Lock) (w : World) :
  acquired this = false -> exit_handlers env n this w = (this, w).
Proof.
  intros H. induction n as [|n IH]; [reflexivity|].
  cbn [exit_handlers]. unfold release. rewrite H. exact IH.
Qed.

End Host.

(** X27. The server runs only while it holds the lock: when the start ends
    with the server running, the lock object is marked as held and the
    lock file holds the record of this process. Every other start ends
    with exit code 1, whatever the file system does. *)
Theorem running_holds_lock (env : Env) (run_rejects : bool) (w : World) :
  match main env run_rejects w with
  | (Running, _, lock, w') =>
      acquired lock = true /\
      files w' !! lockFile (new_lock env "styxy-mcp-server") =
        Some (JSON_stringify env (lock_record env (new_lock env "styxy-mcp-server")))
  | (Exited code, _, _, _) => code = 1
  end.
Proof.
  unfold main.
  destruct (acquire env (new_lock env "styxy-mcp-server") w) as [[b lock1] w1] eqn:Hacq.
  apply acquire_inv in Hacq as (-> & _ & Hfile).
  destruct b; cbn [negb].
  - destruct run_rejects.
    + destruct (release env _ w1) as [lock2 w2].
      destruct (exit_handlers env _ lock2 w2). reflexivity.
    + split; [reflexivity | now apply Hfile].
  - destruct (getLockInfo env _ w1) as [lockInfo w2].
    destruct (exit_handlers env _ _ w2). reflexivity.
Qed.

(** X28. A second process that finds the lock held by a live process exits
    with code 1 after naming the PID and the start time of the holder; it
    changes no file and installs no handler. *)
Theorem start_blocked_by_live_holder (env : Env) (run_rejects : bool) (w : World)
    (content : string) (v : jsval) :
  throws env MkdirSync (lockDir (new_lock env "styxy-mcp-server")) = false ->
  throws env ReadFileSync (lockFile (new_lock env "styxy-mcp-server")) = false ->
  files w !! lockFile (new_lock env "styxy-mcp-server") = Some content ->
  JSON_parse env content = Some v ->
  truthy v = true ->
  process_kill0 env (get "pid" v) = true ->
  exists w',
    main env run_rejects w =
    (Exited 1, (already_running ++ [existing_instance v])%list,
     new_lock env "styxy-mcp-server", w') /\
    files w' = files w /\
    handler_sets w' = handler_sets w.
Proof.
  intros Hmk Hrd Hf Hp Ht Hk.
  unfold main, acquire, mkdirSync. rewrite Hmk. cbn zeta.
  erewrite SingletonProps.existsSync_true by exact Hf.
  unfold readLockFile, readFileSync. rewrite Hrd. cbn [files completed].
  rewrite Hf, Hp. simpl (default _ _). unfold isProcessRunning. rewrite Ht, Hk.
  cbn [andb negb]. unfold getLockInfo.
  erewrite SingletonProps.existsSync_true by exact Hf.
  cbn [negb]. unfold readLockFile, readFileSync. rewrite Hrd. cbn [files completed console_log].
  rewrite Hf, Hp. simpl (default _ _). rewrite Ht.
  cbn [handler_sets completed console_log]. rewrite Nat.sub_diag.
  cbn [exit_handlers]. eexists. split; [reflexivity|]. split; reflexivity.
Qed.

Lemma start_blocked_witness :
  exists w',
    main Demo.host false Demo.held_world =
    (Exited 1,
     ["[Singleton] Another styxy-mcp-server instance is already running";
      "[Singleton] This instance will exit to prevent conflicts";
      "[Singleton] Existing instance: PID 4242, started 2024"],
     Demo.the_lock, w') /\
    files w' = files Demo.held_world.
Proof.
  destruct (start_blocked_by_live_holder Demo.host false Demo.held_world
              (Demo.JSON_stringify
                 (JObj [("pid", JNum 4242); ("started", JStr "2024");
                        ("hostname", JStr "devbox");
                        ("command", JStr "node index.js")]))
              (JObj [("pid", JNum 4242); ("started", JStr "2024");
                     ("hostname", JStr "devbox");
                     ("command", JStr "node index.js")]))
    as (w' & H1 & H2 & _); [vm_compute; reflexivity .. |].
  exists w'. split; [exact H1 | exact H2].
Defined.

(** X29. A process that cannot create the lock directory, or cannot write
    the lock file, exits with code 1 and says that another instance is
    already running, also when there is no lock file and so no other
    instance; it names no holder. A failed [mkdirSync], and a write that
    failed before it opened the file, leave the files as they were. A
    write that failed later leaves what it wrote as the lock file; that
    part of a record is taken not to be a JSON text. *)
Theorem start_fault_blames_other_instance (env : Env) (run_rejects : bool) (w : World) :
  files w !! lockFile (new_lock env "styxy-mcp-server") = None ->
  (throws env MkdirSync (lockDir (new_lock env "styxy-mcp-server")) = true ->
   exists w',
     main env run_rejects w =
     (Exited 1, already_running, new_lock env "styxy-mcp-server", w') /\
     files w' = files w /\
     console w' = (console w ++ [LogAcquireFailed])%list) /\
  (throws env MkdirSync (lockDir (new_lock env "styxy-mcp-server")) = false ->
   throws env WriteFileSync (lockFile (new_lock env "styxy-mcp-server")) = true ->
   (write_residue env (lockFile (new_lock env "styxy-mcp-server")) = None ->
    exists w',
      main env run_rejects w =
      (Exited 1, already_running, new_lock env "styxy-mcp-server", w') /\
      files w' = files w /\
      console w' = (console w ++ [LogAcquireFailed])%list) /\
   (forall partial,
      write_residue env (lockFile (new_lock env "styxy-mcp-server")) = Some partial ->
      JSON_parse env partial = None ->
      exists w',
        main env run_rejects w =
        (Exited 1, already_running, new_lock env "styxy-mcp-server", w') /\
        files w' = <[lockFile (new_lock env "styxy-mcp-server") := partial]> (files w) /\
        console w' = (console w ++ [LogAcquireFailed])%list)).
Proof.
  intros Hf. split; [|intros Hmk Hwr; split].
  - intros Hmk. unfold main, acquire, mkdirSync. rewrite Hmk.
    cbn [negb]. unfold getLockInfo.
    rewrite SingletonProps.existsSync_false by exact Hf. cbn [negb].
    cbn [handler_sets console_log]. rewrite Nat.sub_diag. cbn [exit_handlers].
    eexists. split; [reflexivity|]. split; reflexivity.
  - intros Hres. unfold main, acquire, mkdirSync, writeFileSync, failed_write.
    rewrite Hmk. cbn zeta.
    rewrite SingletonProps.existsSync_false by exact Hf.
    rewrite Hwr, Hres. cbn [negb]. unfold getLockInfo.
    rewrite SingletonProps.existsSync_false by exact Hf. cbn [negb].
    cbn [handler_sets console_log completed]. rewrite Nat.sub_diag.
    cbn [exit_handlers].
    eexists. split; [reflexivity|]. split; reflexivity.
  - intros partial Hres Hparse.
    unfold main, acquire, mkdirSync, writeFileSync, failed_write.
    rewrite Hmk. cbn zeta.
    rewrite SingletonProps.existsSync_false by exact Hf.
    rewrite Hwr, Hres. cbn [negb]. unfold getLockInfo.
    erewrite SingletonProps.existsSync_true
      by (cbn [files console_log completed]; apply lookup_insert_eq).
    cbn [negb]. unfold readLockFile, readFileSync.
    cbn [files console_log completed]. rewrite lookup_insert_eq.
    destruct (throws env ReadFileSync _).
    + cbn [truthy app handler_sets console_log completed].
      rewrite Nat.sub_diag. cbn [exit_handlers].
      eexists. split; [rewrite app_nil_r; reflexivity|]. split; reflexivity.
    + rewrite Hparse. simpl (default _ _).
      cbn [truthy app handler_sets console_log completed].
      rewrite Nat.sub_diag. cbn [exit_handlers].
      eexists. split; [rewrite app_nil_r; reflexivity|]. split; reflexivity.
Qed.

Lemma start_fault_witness :
  exists w',
    main Demo.host_no_mkdir false Demo.empty_world =
    (Exited 1, already_running, Demo.the_lock, w') /\
    files w' = files Demo.empty_world.
Proof.
  destruct (start_fault_blames_other_instance Demo.host_no_mkdir false Demo.empty_world)
    as [H _]; [reflexivity|].
  destruct H as (w' & H1 & H2 & _); [reflexivity|].
  exists w'. split; [exact H1 | exact H2].
Defined.

(** On a full disk the failed start leaves an empty lock file. *)
Example start_disk_full :
  exists w',
    main Demo.host_disk_full false Demo.empty_world =
    (Exited 1, already_running, Demo.the_lock, w') /\
    files w' !! Demo.lock_path = Some "".
Proof. eexists. split; [vm_compute; reflexivity|]. vm_compute. reflexivity. Qed.

(** X30. When the lock was acquired and [server.run()] rejects, the
    process exits with code 1 after releasing the lock: if the delete does
    not fail, no lock file is left and the lock object is marked as not
    held. *)
Theorem failed_start_releases (env : Env) (w : World) :
  (acquire env (new_lock env "styxy-mcp-server") w).1.1 = true ->
  throws env UnlinkSync (lockFile (new_lock env "styxy-mcp-server")) = false ->
  exists lock w',
    main env true w = (Exited 1, [starting_server; "Server error:"], lock, w') /\
    acquired lock = false /\
    files w' !! lockFile (new_lock env "styxy-mcp-server") = None.
Proof.
  intros Hok Hun. unfold main.
  destruct (acquire env (new_lock env "styxy-mcp-server") w) as [[b lock1] w1] eqn:Hacq.
  cbn in Hok. subst b. apply acquire_inv in Hacq as (-> & _ & Hfile).
  specialize (Hfile eq_refl). cbn [negb].
  unfold release at 1. cbn [acquired set_acquired negb lockFile].
  erewrite SingletonProps.existsSync_true by exact Hfile.
  unfold unlinkSync. cbn [lockFile set_acquired]. rewrite Hun, Hfile.
  rewrite exit_handlers_released by reflexivity.
  eexists _, _. split; [reflexivity|]. split; [reflexivity|].
  cbn. apply lookup_delete_eq.
Qed.

Lemma failed_start_witness :
  exists lock w',
    main Demo.host true Demo.stale_world =
    (Exited 1, [starting_server; "Server error:"], lock, w') /\
    files w' !! Demo.lock_path = None.
Proof.
  destruct (failed_start_releases Demo.host Demo.stale_world)
    as (lock & w' & H1 & _ & H2); [vm_compute; reflexivity .. |].
  exists lock, w'. split; [exact H1 | exact H2].
Defined.

End StartupExtra.
